(** * fhir-spec-reader: the reference resolver of [src/processor.ts]

    A shallow embedding of [processFiles] and of the functions nested in it,
    and of [readSpecification] of [src/reader.ts], followed by the properties
    that are checked against it.

    Conventions of the embedding.
    - JavaScript strings are [string]s of code units; the text is taken to be
      ASCII, so [String.length] is the JS [length].
    - An optional or nullable JS value is an [option]; [null] and [undefined]
      are both [None].
    - Objects that the code shares and mutates (type nodes, enum members and
      member arrays) live in heaps of the state and are named by their index.
    - A run either completes, throws a JS runtime error, or exhausts the
      recursion budget of the embedding ([Done], [Raise], [OutOfFuel]); the
      state reached so far is kept in each case.
    - The document map and the name index are plain objects: a read that
      finds no own property goes on to [Object.prototype], as the realm of
      the engine starts it. The flag that the resolver sets on a value it
      got from there is kept in the state.
    - A flag of a document is absent or true, never an own falsy property.
      When the resolver sets its flag on [Object.prototype] itself, every
      document reads that flag from then on; the embedding gives it to every
      document at that moment, so the flag of a document is always read off
      the document ([polluted_realm_marks_documents]).
    - Declarations are read with function scope, as the TypeScript source
      means them: [addProperty] sees the [element] and [containingType] of the
      running loop iteration, and [processPrimitive] has one [intrinsicType]. *)

From Stdlib Require Import String Ascii List Arith Lia Bool.
From Stdlib Require Import Decimal DecimalString DecimalNat.
From stdpp Require Import base option list strings gmap.

#[local] Set Warnings "-register-all,-notation-incompatible-prefix".

Local Open Scope string_scope.
Local Open Scope list_scope.

(** ** JavaScript string operations *)

Module Js.

(** [s.indexOf(sub)]: [None] is the JS result [-1]. *)
Fixpoint indexOfFrom (sub s : string) (i : nat) : option nat :=
  if String.prefix sub s then Some i
  else match s with
       | EmptyString => None
       | String _ s' => indexOfFrom sub s' (S i)
       end.

Definition indexOf (sub s : string) : option nat := indexOfFrom sub s 0.

Definition includes (sub s : string) : bool :=
  match indexOf sub s with Some _ => true | None => false end.

(** [s.substring(n)]. *)
Fixpoint substringFrom (n : nat) (s : string) : string :=
  match n, s with
  | O, _ => s
  | S n', String _ s' => substringFrom n' s'
  | S _, EmptyString => EmptyString
  end.

(** [s.split(c)] for a one-character separator. *)
Fixpoint split (c : ascii) (s : string) : list string :=
  match s with
  | EmptyString => [EmptyString]
  | String a s' =>
      if Ascii.eqb a c then EmptyString :: split c s'
      else match split c s' with
           | h :: t => String a h :: t
           | [] => [String a EmptyString]
           end
  end.

(** [parts.join(sep)]. *)
Definition join (sep : string) (parts : list string) : string :=
  String.concat sep parts.

(** [parts.splice(parts.length - 1, 0, x)]. *)
Fixpoint spliceBeforeLast (x : string) (parts : list string) : list string :=
  match parts with
  | [] => [x]
  | [y] => [x; y]
  | y :: rest => y :: spliceBeforeLast x rest
  end.

(** [parts[parts.length - 1]]. *)
Definition lastPart (parts : list string) : option string := List.last (map Some parts) None.

Definition isWhite (a : ascii) : bool :=
  let n := nat_of_ascii a in
  (Nat.eqb n 32 || (Nat.leb 9 n && Nat.leb n 13))%bool.

Fixpoint trimStart (s : string) : string :=
  match s with
  | String a s' => if isWhite a then trimStart s' else s
  | EmptyString => EmptyString
  end.

Fixpoint trimEnd (s : string) : string :=
  match s with
  | EmptyString => EmptyString
  | String a s' =>
      match trimEnd s' with
      | EmptyString => if isWhite a then EmptyString else String a EmptyString
      | t => String a t
      end
  end.

(** [s.trim()]. *)
Definition trim (s : string) : string := trimEnd (trimStart s).

(** The replacement patterns of [String.prototype.replace] with a string
    pattern: [$$], [$&], [$`] and [$']. *)
Fixpoint expandReplacement (matched before after rep : string) : string :=
  match rep with
  | EmptyString => EmptyString
  | String a r =>
      if Ascii.eqb a "$" then
        match r with
        | String b r' =>
            if Ascii.eqb b "$" then String "$" (expandReplacement matched before after r')
            else if Ascii.eqb b "&" then matched +:+ expandReplacement matched before after r'
            else if Ascii.eqb b "`" then before +:+ expandReplacement matched before after r'
            else if Ascii.eqb b "'" then after +:+ expandReplacement matched before after r'
            else String a (expandReplacement matched before after r)
        | EmptyString => String a EmptyString
        end
      else String a (expandReplacement matched before after r)
  end.

Fixpoint replaceFrom (pat rep before s : string) : option string :=
  if String.prefix pat s then
    let after := substringFrom (String.length pat) s in
    Some (before +:+ expandReplacement pat before after rep +:+ after)
  else match s with
       | EmptyString => None
       | String a s' => replaceFrom pat rep (before +:+ String a EmptyString) s'
       end.

(** [s.replace(pat, rep)] with a string pattern: the first occurrence only. *)
Definition replace (pat rep s : string) : string :=
  match replaceFrom pat rep EmptyString s with
  | Some r => r
  | None => s
  end.

(** [isNumberCharacter(text.charCodeAt(0))]; [charCodeAt] of the empty string
    is [NaN], which fails both comparisons. *)
Definition isNumberCharacter (charCode : nat) : bool :=
  (Nat.leb 48 charCode && Nat.leb charCode 57)%bool.

Definition startsWithNumber (text : string) : bool :=
  match text with
  | String a _ => isNumberCharacter (nat_of_ascii a)
  | EmptyString => false
  end.

(** [o === s] for a [string | undefined] and a string literal. *)
Definition isStr (o : option string) (s : string) : bool :=
  match o with
  | Some x => String.eqb x s
  | None => false
  end.

(** Truthiness of a [string | undefined]. *)
Definition truthy (o : option string) : bool :=
  match o with
  | Some s => negb (String.eqb s EmptyString)
  | None => false
  end.

(** [util.format("%s", x)] and string concatenation of a missing value. *)
Definition showUndefined (o : option string) : string :=
  match o with Some s => s | None => "undefined" end.

Definition showNull (o : option string) : string :=
  match o with Some s => s | None => "null" end.

(** Decimal rendering of a number, as in [name + "_" + num]. *)
Definition showNat (n : nat) : string := NilEmpty.string_of_uint (Nat.to_uint n).

End Js.

(** ** A model of [changeCase.pascalCase]

    The change-case package is a dependency of the repository, not part of it.
    The resolver is embedded over an arbitrary [pascalCase]; the function below
    follows the 3.x package on ASCII text and serves the concrete runs. *)

Module ChangeCase.

Definition isUpper (a : ascii) : bool :=
  let n := nat_of_ascii a in (Nat.leb 65 n && Nat.leb n 90)%bool.
Definition isLower (a : ascii) : bool :=
  let n := nat_of_ascii a in (Nat.leb 97 n && Nat.leb n 122)%bool.
Definition isDigit (a : ascii) : bool :=
  let n := nat_of_ascii a in (Nat.leb 48 n && Nat.leb n 57)%bool.
Definition isWord (a : ascii) : bool := (isUpper a || isLower a || isDigit a)%bool.

Definition toLower (a : ascii) : ascii :=
  if isUpper a then ascii_of_nat (nat_of_ascii a + 32) else a.
Definition toUpper (a : ascii) : ascii :=
  if isLower a then ascii_of_nat (nat_of_ascii a - 32) else a.

(** [/([a-z0-9])([A-Z])/g -> "$1 $2"]. *)
Fixpoint splitCamel (s : list ascii) : list ascii :=
  match s with
  | a :: ((b :: _) as rest) =>
      if ((isLower a || isDigit a) && isUpper b)%bool
      then a :: " "%char :: splitCamel rest
      else a :: splitCamel rest
  | _ => s
  end.

(** [/([A-Z])([A-Z][a-z])/g -> "$1 $2"]. *)
Fixpoint splitUpper (s : list ascii) : list ascii :=
  match s with
  | a :: ((b :: c :: _) as rest) =>
      if (isUpper a && isUpper b && isLower c)%bool
      then a :: " "%char :: splitUpper rest
      else a :: splitUpper rest
  | _ => s
  end.

(** Words between the runs of characters that are neither letters nor
    digits: the runs become single spaces, and are dropped at both ends. *)
Fixpoint wordsOf (cur : list ascii) (s : list ascii) : list (list ascii) :=
  match s with
  | [] => match cur with [] => [] | _ => [rev cur] end
  | a :: rest =>
      if isWord a then wordsOf (a :: cur) rest
      else match cur with
           | [] => wordsOf [] rest
           | _ => rev cur :: wordsOf [] rest
           end
  end.

Definition noCase (s : list ascii) : list (list ascii) :=
  map (map toLower) (wordsOf [] (splitUpper (splitCamel s))).

Definition upperFirst (w : list ascii) : list ascii :=
  match w with
  | a :: rest => toUpper a :: rest
  | [] => []
  end.

(** A space before a digit becomes an underscore; any other space is dropped
    and the character after it is upper-cased. *)
Definition camelWord (w : list ascii) : list ascii :=
  match w with
  | a :: _ => if isDigit a then "_"%char :: w else upperFirst w
  | [] => []
  end.

Definition camelCase (s : list ascii) : list ascii :=
  match noCase s with
  | [] => []
  | w :: ws => w ++ concat (map camelWord ws)
  end.

Definition pascalCase (s : string) : string :=
  string_of_list_ascii (upperFirst (camelCase (list_ascii_of_string s))).

End ChangeCase.

(** ** Input documents ([fhir] resources, as far as the resolver reads them) *)

Record Extension := mkExtension {
  ext_url : option string;
  ext_valueString : option string }.

Record Concept := mkConcept {
  c_code : string;
  c_display : option string;
  c_definition : option string;
  c_extension : option (list Extension) }.

Record IncludeFilter := mkFilter {
  flt_property : string;
  flt_op : string;
  flt_value : string }.

Record ComposeInclude := mkInclude {
  inc_system : option string;
  inc_concept : option (list Concept);
  inc_filter : option (list IncludeFilter);
  inc_valueSet : option (list string) }.

Record Compose := mkCompose { cmp_include : option (list ComposeInclude) }.

Record ElementType := mkElementType {
  et_code : option string;
  et_profile : option string }.

(** [valueSetReference] is a [Reference]; [Some r] is the object with
    [reference] equal to [r]. *)
Record Binding := mkBinding {
  bnd_strength : option string;
  bnd_valueSetReference : option string }.

Record ElementDefinition := mkElement {
  el_path : string;
  el_short : option string;
  el_definition : option string;
  el_min : option nat;
  el_max : option string;
  el_contentReference : option string;
  el_type : option (list ElementType);
  el_binding : option Binding }.

(** One record for the three resource types; a field that a resource type
    does not have is [None]. *)
Record Content := mkContent {
  ct_resourceType : option string;
  ct_id : option string;
  ct_kind : option string;
  ct_derivation : option string;
  ct_baseDefinition : option string;
  ct_differential : option (list ElementDefinition);
  ct_name : option string;
  ct_description : option string;
  ct_url : option string;
  ct_caseSensitive : option bool;
  ct_concept : option (list Concept);
  ct_compose : option Compose;
  ct_copyright : option string }.

(** ** Type nodes *)

Inductive TypeKind :=
| KTypeReference | KObjectType | KInterfaceType | KEnumType
| KArrayType | KUnionType | KPrimitive | KAliasType.

Definition kindCode (k : TypeKind) : nat :=
  match k with
  | KTypeReference => 1 | KObjectType => 2 | KInterfaceType => 4 | KEnumType => 8
  | KArrayType => 16 | KUnionType => 32 | KPrimitive => 64 | KAliasType => 128
  end.

(** [TypeKind.ObjectTypes = InterfaceType | ObjectType]. *)
Definition objectTypesMask : nat := Nat.lor (kindCode KInterfaceType) (kindCode KObjectType).

Inductive TypeCategory :=
| CatNone | CatPrimitive | CatDataType | CatResource | CatSubType | CatValueSet | CatCodeSystem.

Definition categoryCode (c : TypeCategory) : nat :=
  match c with
  | CatNone => 0 | CatPrimitive => 1 | CatDataType => 2 | CatResource => 3
  | CatSubType => 4 | CatValueSet => 5 | CatCodeSystem => 6
  end.

(** The nodes a property owns: references, arrays and unions. Their category
    is always [None], so it is not stored. *)
Inductive PType :=
| TypeReference (name : option string) (binding : option string)
| ArrayType (elementType : option PType)
| UnionType (types : list PType).

Definition ptypeKind (t : PType) : TypeKind :=
  match t with
  | TypeReference _ _ => KTypeReference
  | ArrayType _ => KArrayType
  | UnionType _ => KUnionType
  end.

Definition ptypeName (t : PType) : option string :=
  match t with
  | TypeReference n _ => n
  | _ => None
  end.

Record Property := mkProperty {
  p_name : string;
  p_description : option string;
  p_type : PType;
  p_optional : bool }.

(** The named nodes: interface, enum and primitive types. They are shared
    between a document, the name index and the output list, so they live in
    the type heap. [t_members] names a member array of the array heap. *)
Record TypeNode := mkTypeNode {
  t_kind : TypeKind;
  t_category : TypeCategory;
  t_name : option string;
  t_description : option string;
  t_intrinsicType : option string;
  t_baseType : option string;
  t_properties : option (list Property);
  t_members : option nat }.

(** The [parent] field of the source is never assigned by the resolver and
    is left out. *)
Record EnumMember := mkEnumMember {
  m_name : option string;
  m_description : option string;
  m_value : string;
  m_display : option string;
  m_system : option string;
  m_caseSensitive : option bool }.

(** What a read of the name index yields as a type: a node of the heap, or
    a value that the index inherits from [Object.prototype]. Of such a value
    the resolver can only read [name], which it has when it is a function;
    its [kind], [category], [baseType] and [properties] are [undefined]. *)
Inductive TypeRef :=
| Node (tid : nat)
| Foreign (name : option string).

(** What [getReferencedType] yields: a named node, the property's own node
    when that is a union, or an inherited value. *)
Inductive TypeVal :=
| Named (tid : nat)
| Inline (t : PType)
| ForeignType (name : option string).

(** ** What a plain object inherits

    [Object.prototype] answers to the names below: eleven functions, and
    [__proto__], under which the prototype itself is read. *)

Module Prototype.

(** The functions of [Object.prototype], each under its property name and
    with its own [name]. *)
Definition functions : list (string * string) :=
  [("constructor", "Object"); ("toString", "toString");
   ("toLocaleString", "toLocaleString"); ("valueOf", "valueOf");
   ("hasOwnProperty", "hasOwnProperty"); ("isPrototypeOf", "isPrototypeOf");
   ("propertyIsEnumerable", "propertyIsEnumerable");
   ("__defineGetter__", "__defineGetter__"); ("__defineSetter__", "__defineSetter__");
   ("__lookupGetter__", "__lookupGetter__"); ("__lookupSetter__", "__lookupSetter__")].

Definition isFunction (name : string) : bool :=
  existsb (fun p => String.eqb (fst p) name) functions.

(** The names that the prototype answers to from the start. *)
Definition isStandard (name : string) : bool :=
  (isFunction name || String.eqb name "__proto__")%bool.

(** [value.name] of the value that is read under [name]. *)
Definition nameOf (name : string) : option string :=
  option_map snd (List.find (fun p => String.eqb (fst p) name) functions).

End Prototype.

(** ** Documents and the resolver state *)

Record SpecificationFile := mkFile {
  f_id : string;
  f_filename : string;
  f_queued : bool;
  f_processed : bool;
  f_referenced : bool;
  f_symbol : option string;
  f_content : option Content;
  f_type : option nat }.

(** The document map, in the enumeration order of [for (const id in files)]. *)
Definition FileMap : Type := list (string * SpecificationFile).

Record State := mkState {
  files : FileMap;
  typeHeap : list TypeNode;
  memberHeap : list EnumMember;
  arrayHeap : list (list nat);
  typesByName : gmap string nat;
  resultTypes : list nat;
  resultErrors : list string;
  currentFile : option string;
  (** ghost: the keys of the documents whose [processFile] body was entered,
      in order; nothing reads it *)
  bodyLog : list string;
  (** the values inherited from [Object.prototype], by the name they are
      read under, on which [referenceFile] has set [referenced]; they belong
      to the realm and outlive the call *)
  flagged : list string }.

Fixpoint lookupFile (key : string) (fs : FileMap) : option SpecificationFile :=
  match fs with
  | [] => None
  | (k, f) :: rest => if String.eqb k key then Some f else lookupFile key rest
  end.

Fixpoint updateFile (key : string) (g : SpecificationFile -> SpecificationFile)
    (fs : FileMap) : FileMap :=
  match fs with
  | [] => []
  | (k, f) :: rest =>
      if String.eqb k key then (k, g f) :: rest else (k, f) :: updateFile key g rest
  end.

(** The assignments to the fields of a file object. *)
Definition markQueued (f : SpecificationFile) : SpecificationFile :=
  mkFile (f_id f) (f_filename f) true (f_processed f) (f_referenced f)
         (f_symbol f) (f_content f) (f_type f).
Definition markProcessed (f : SpecificationFile) : SpecificationFile :=
  mkFile (f_id f) (f_filename f) (f_queued f) true (f_referenced f)
         (f_symbol f) (f_content f) (f_type f).
Definition markReferenced (f : SpecificationFile) : SpecificationFile :=
  mkFile (f_id f) (f_filename f) (f_queued f) (f_processed f) true
         (f_symbol f) (f_content f) (f_type f).
Definition withType (tid : nat) (f : SpecificationFile) : SpecificationFile :=
  mkFile (f_id f) (f_filename f) (f_queued f) (f_processed f) (f_referenced f)
         (f_symbol f) (f_content f) (Some tid).
Definition withSymbol (symbol : string) (f : SpecificationFile) : SpecificationFile :=
  mkFile (f_id f) (f_filename f) (f_queued f) (f_processed f) (f_referenced f)
         (Some symbol) (f_content f) (f_type f).

Definition setFiles (g : FileMap -> FileMap) (s : State) : State :=
  mkState (g (files s)) (typeHeap s) (memberHeap s) (arrayHeap s) (typesByName s)
          (resultTypes s) (resultErrors s) (currentFile s) (bodyLog s) (flagged s).
Definition setTypeHeap (g : list TypeNode -> list TypeNode) (s : State) : State :=
  mkState (files s) (g (typeHeap s)) (memberHeap s) (arrayHeap s) (typesByName s)
          (resultTypes s) (resultErrors s) (currentFile s) (bodyLog s) (flagged s).
Definition setMemberHeap (g : list EnumMember -> list EnumMember) (s : State) : State :=
  mkState (files s) (typeHeap s) (g (memberHeap s)) (arrayHeap s) (typesByName s)
          (resultTypes s) (resultErrors s) (currentFile s) (bodyLog s) (flagged s).
Definition setArrayHeap (g : list (list nat) -> list (list nat)) (s : State) : State :=
  mkState (files s) (typeHeap s) (memberHeap s) (g (arrayHeap s)) (typesByName s)
          (resultTypes s) (resultErrors s) (currentFile s) (bodyLog s) (flagged s).
Definition setTypesByName (g : gmap string nat -> gmap string nat) (s : State) : State :=
  mkState (files s) (typeHeap s) (memberHeap s) (arrayHeap s) (g (typesByName s))
          (resultTypes s) (resultErrors s) (currentFile s) (bodyLog s) (flagged s).
Definition setResultTypes (g : list nat -> list nat) (s : State) : State :=
  mkState (files s) (typeHeap s) (memberHeap s) (arrayHeap s) (typesByName s)
          (g (resultTypes s)) (resultErrors s) (currentFile s) (bodyLog s) (flagged s).
Definition setResultErrors (g : list string -> list string) (s : State) : State :=
  mkState (files s) (typeHeap s) (memberHeap s) (arrayHeap s) (typesByName s)
          (resultTypes s) (g (resultErrors s)) (currentFile s) (bodyLog s) (flagged s).
Definition setCurrentFile (c : option string) (s : State) : State :=
  mkState (files s) (typeHeap s) (memberHeap s) (arrayHeap s) (typesByName s)
          (resultTypes s) (resultErrors s) c (bodyLog s) (flagged s).
Definition setBodyLog (g : list string -> list string) (s : State) : State :=
  mkState (files s) (typeHeap s) (memberHeap s) (arrayHeap s) (typesByName s)
          (resultTypes s) (resultErrors s) (currentFile s) (g (bodyLog s)) (flagged s).
Definition setFlagged (g : list string -> list string) (s : State) : State :=
  mkState (files s) (typeHeap s) (memberHeap s) (arrayHeap s) (typesByName s)
          (resultTypes s) (resultErrors s) (currentFile s) (bodyLog s) (g (flagged s)).

(** [Object.prototype.referenced] is set. *)
Definition isPolluted (s : State) : bool :=
  existsb (String.eqb "__proto__") (flagged s).

(** The names that [Object.prototype] answers to. *)
Definition inherits (s : State) (name : string) : bool :=
  (Prototype.isStandard name || (isPolluted s && String.eqb name "referenced"))%bool.

(** What a read [files[name]] yields when it is not [undefined]: a document
    of the map, named by its key, or the value that the map inherits under
    the name. *)
Inductive FileValue :=
| Document (key : string)
| Inherited (name : string).

Definition readFiles (name : string) (s : State) : option FileValue :=
  match lookupFile name (files s) with
  | Some _ => Some (Document name)
  | None => if inherits s name then Some (Inherited name) else None
  end.

(** [typesByName[name]]. *)
Definition readIndex (name : string) (s : State) : option TypeRef :=
  match typesByName s !! name with
  | Some tid => Some (Node tid)
  | None => if inherits s name then Some (Foreign (Prototype.nameOf name)) else None
  end.

(** [value.referenced] of an inherited value. *)
Definition isFlagged (name : string) (s : State) : bool :=
  (existsb (String.eqb name) (flagged s) || isPolluted s)%bool.

(** ** The resolver monad: state, JS runtime errors and a recursion budget *)

Inductive Outcome (A : Type) :=
| Done (a : A)
| Raise (e : string)
| OutOfFuel.
Arguments Done {A} a.
Arguments Raise {A} e.
Arguments OutOfFuel {A}.

Definition M (A : Type) : Type := State -> State * Outcome A.

Definition ret {A} (a : A) : M A := fun s => (s, Done a).

Definition bind {A B} (m : M A) (k : A -> M B) : M B :=
  fun s =>
    match m s with
    | (s1, Done a) => k a s1
    | (s1, Raise e) => (s1, Raise e)
    | (s1, OutOfFuel) => (s1, OutOfFuel)
    end.

Definition raise {A} (e : string) : M A := fun s => (s, Raise e).
Definition outOfFuel {A} : M A := fun s => (s, OutOfFuel).
Definition gets {A} (g : State -> A) : M A := fun s => (s, Done (g s)).
Definition modify (g : State -> State) : M unit := fun s => (g s, Done tt).

Declare Scope resolver_scope.
Delimit Scope resolver_scope with M.
Notation "'let*' x ':=' m 'in' k" := (bind m (fun x => k))
  (at level 10, x name, m at level 100, k at level 200) : resolver_scope.
Notation "m '>>' k" := (bind m (fun _ => k))
  (at level 100, k at level 200, right associativity) : resolver_scope.
Local Open Scope resolver_scope.

(** [members.forEach(...)] and [for ... of] loops without an early exit. *)
Fixpoint forEach {A} (l : list A) (body : A -> M unit) : M unit :=
  match l with
  | [] => ret tt
  | x :: rest => body x >> forEach rest body
  end.

(** *** Reading and writing the heaps *)

Definition typeError {A} : M A := raise "TypeError".
Definition referenceError {A} : M A := raise "ReferenceError".

(** A file object is named by its key; the keys in use come from the map. *)
Definition getFile (key : string) : M SpecificationFile :=
  fun s => match lookupFile key (files s) with
           | Some f => (s, Done f)
           | None => (s, Raise "no such document")
           end.

Definition modifyFile (key : string) (g : SpecificationFile -> SpecificationFile) : M unit :=
  modify (setFiles (updateFile key g)).

Definition getType (tid : nat) : M TypeNode :=
  fun s => match typeHeap s !! tid with
           | Some t => (s, Done t)
           | None => (s, Raise "no such type node")
           end.

Definition allocType (t : TypeNode) : M nat :=
  fun s => (setTypeHeap (fun h => h ++ [t]) s, Done (length (typeHeap s))).

Definition modifyType (tid : nat) (g : TypeNode -> TypeNode) : M unit :=
  modify (setTypeHeap (alter g tid)).

Definition getMember (mid : nat) : M EnumMember :=
  fun s => match memberHeap s !! mid with
           | Some m => (s, Done m)
           | None => (s, Raise "no such member")
           end.

Definition allocMember (m : EnumMember) : M nat :=
  fun s => (setMemberHeap (fun h => h ++ [m]) s, Done (length (memberHeap s))).

(** [member.name = n]. *)
Definition withName (n : option string) (m : EnumMember) : EnumMember :=
  mkEnumMember n (m_description m) (m_value m) (m_display m) (m_system m)
               (m_caseSensitive m).

Definition setMemberName (mid : nat) (n : option string) : M unit :=
  modify (setMemberHeap (alter (withName n) mid)).

Definition getArray (aid : nat) : M (list nat) :=
  fun s => match arrayHeap s !! aid with
           | Some a => (s, Done a)
           | None => (s, Raise "no such array")
           end.

Definition allocArray (a : list nat) : M nat :=
  fun s => (setArrayHeap (fun h => h ++ [a]) s, Done (length (arrayHeap s))).

Definition pushArray (aid : nat) (mid : nat) : M unit :=
  modify (setArrayHeap (alter (fun a => a ++ [mid]) aid)).

(** The members of an array, read through the member heap. *)
Fixpoint getMembers (mids : list nat) : M (list EnumMember) :=
  match mids with
  | [] => ret []
  | mid :: rest =>
      let* m := getMember mid in
      let* ms := getMembers rest in
      ret (m :: ms)
  end.

(** The open type element list of the source. *)
Definition openTypeElement : list ElementType :=
  map (fun c => mkElementType (Some c) None)
    ["integer"; "decimal"; "dateTime"; "date"; "instant"; "time"; "string"; "uri";
     "boolean"; "code"; "base64Binary"; "Coding"; "CodeableConcept"; "Attachment";
     "Identifier"; "Quantity"; "Range"; "Period"; "Ratio"; "HumanName"; "Address";
     "ContactPoint"; "Timing"; "Signature"; "Reference"].

(** ** The resolver *)

Section Processor.

(** [changeCase.pascalCase]. *)
Variable pascalCase : string -> string.

Definition maxNameLength : nat := 56.

(** [x && f(x)] on a [string | undefined]. *)
Definition andThen (o : option string) (f : string -> string) : option string :=
  match o with
  | Some s => if String.eqb s "" then Some "" else Some (f s)
  | None => None
  end.

(** [if (x)] on a [string | undefined]: the value when it is truthy. *)
Definition nonEmpty (o : option string) : option string :=
  match o with
  | Some s => if String.eqb s "" then None else Some s
  | None => None
  end.

Definition addError (msg : string) : M unit :=
  fun s =>
    let msg' :=
      match currentFile s with
      | Some key =>
          match lookupFile key (files s) with
          | Some f => f_filename f +:+ ": " +:+ msg
          | None => msg
          end
      | None => msg
      end in
    (setResultErrors (fun es => es ++ [msg']) s, Done tt).

Definition isResourceDefinition (file : SpecificationFile) : bool :=
  match f_content file with
  | Some content =>
      if Js.isStr (ct_resourceType content) "StructureDefinition"
      then Js.isStr (ct_kind content) "resource"
      else false
  | None => false
  end.

Definition isConstrainedType (file : SpecificationFile) : M bool :=
  match f_content file with
  | Some content => ret (Js.isStr (ct_derivation content) "constraint")
  | None => typeError
  end.

Definition addTypeToResults (tid : nat) : M unit :=
  let* type := getType tid in
  (match t_name type with
   | Some name =>
       if String.eqb name "" then ret tt
       else
         let* registered := gets (readIndex name) in
         match registered with
         | Some _ => addError ("Duplicate type name '" +:+ name +:+ "'.")
         | None => modify (setTypesByName (insert name tid))
         end
   | None => ret tt
   end) >>
  modify (setResultTypes (fun ts => ts ++ [tid])).

(** *** Name allocation *)

Definition formatName (name : string) : string :=
  let name := pascalCase name in
  if Js.startsWithNumber name then "_" +:+ name else name.

Definition getMappedName (system : option string) (code : string) : option string :=
  if String.eqb code "=" then Some "Equals"
  else if String.eqb code "<" then Some "LessThan"
  else if String.eqb code "<=" then Some "LessThanOrEqual"
  else if String.eqb code ">" then Some "GreaterThan"
  else if String.eqb code ">=" then Some "GreaterThanOrEqual"
  else None.

Fixpoint getExtension (extension : list Extension) (url : string) : option Extension :=
  match extension with
  | [] => None
  | item :: rest =>
      match ext_url item with
      | Some u => if String.eqb u url then Some item else getExtension rest url
      | None => getExtension rest url
      end
  end.

Definition getExtensionValueString (concept : Concept) (url : string) : option string :=
  match c_extension concept with
  | Some extension =>
      match getExtension extension url with
      | Some item => ext_valueString item
      | None => None
      end
  | None => None
  end.

Definition getEnumMemberDescription (concept : Concept) : option string :=
  if Js.truthy (c_definition concept) then c_definition concept
  else
    let definitionExtension :=
      getExtensionValueString concept
        "http://hl7.org/fhir/StructureDefinition/valueset-definition" in
    if Js.truthy definitionExtension then definitionExtension
    else
      match c_display concept with
      | Some d => if (negb (String.eqb d "") && Js.includes " " d)%bool then Some d else None
      | None => None
      end.

Definition shortEnough (o : option string) : bool :=
  match o with
  | Some s => (negb (String.eqb s "") && Nat.ltb (String.length s) maxNameLength)%bool
  | None => false
  end.

Definition getEnumMemberName (system : option string) (concept : Concept)
    : M (option string) :=
  let name :=
    match getMappedName system (c_code concept) with
    | Some mapped => Some mapped
    | None =>
        let display := andThen (c_display concept) Js.trim in
        if shortEnough display then
          andThen (c_display concept) (Js.replace "*" "Star")
        else
          let code := c_code concept in
          if (negb (String.eqb code "") && negb (Js.startsWithNumber code))%bool
          then Some code
          else
            let description := andThen (getEnumMemberDescription concept) Js.trim in
            if shortEnough description then description else Some code
    end in
  if Js.truthy name then ret (option_map formatName name)
  else addError "Unable to determine name for value set concept." >> ret None.

Definition getAlternateName (member : EnumMember) : option string :=
  let name :=
    if (negb (String.eqb (m_value member) "") && negb (Js.startsWithNumber (m_value member)))%bool
    then Some (m_value member)
    else if shortEnough (m_description member) then m_description member
    else None in
  if Js.truthy name then option_map formatName name else None.

Definition optEqb {A} (eqb : A -> A -> bool) (x y : option A) : bool :=
  match x, y with
  | Some a, Some b => eqb a b
  | None, None => true
  | _, _ => false
  end.

Definition areEnumMembersEqual (member1 member2 : EnumMember) : bool :=
  (optEqb String.eqb (m_name member1) (m_name member2)
   && String.eqb (m_value member1) (m_value member2)
   && optEqb String.eqb (m_description member1) (m_description member2)
   && optEqb String.eqb (m_display member1) (m_display member2)
   && optEqb String.eqb (m_system member1) (m_system member2)
   && optEqb Bool.eqb (m_caseSensitive member1) (m_caseSensitive member2))%bool.

(** The first member of the array with the name of [memberToAdd]. *)
Fixpoint findDuplicate (name : option string) (mids : list nat) : M (option nat) :=
  match mids with
  | [] => ret None
  | mid :: rest =>
      let* currentMember := getMember mid in
      if optEqb String.eqb (m_name currentMember) name then ret (Some mid)
      else findDuplicate name rest
  end.

Definition getDuplicate (memberToAdd : nat) (members : nat) : M (option nat) :=
  let* m := getMember memberToAdd in
  let* mids := getArray members in
  findDuplicate (m_name m) mids.

(** [do { memberToAdd.name = originalName + "_" + (num++); }
     while (getDuplicate(memberToAdd, members));] *)
Fixpoint suffixLoop (budget : nat) (originalName : option string) (num : nat)
    (memberToAdd members : nat) : M unit :=
  match budget with
  | O => outOfFuel
  | S budget' =>
      setMemberName memberToAdd
        (Some (Js.showNull originalName +:+ "_" +:+ Js.showNat num)) >>
      let* dup := getDuplicate memberToAdd members in
      match dup with
      | Some _ => suffixLoop budget' originalName (S num) memberToAdd members
      | None => ret tt
      end
  end.

Definition suffixFallback (originalName : option string) (memberToAdd members : nat)
    : M bool :=
  let* mids := getArray members in
  suffixLoop (S (length mids)) originalName 1 memberToAdd members >> ret true.

Definition adjustMemberName (memberToAdd members : nat) : M bool :=
  let* duplicate := getDuplicate memberToAdd members in
  match duplicate with
  | None => ret true
  | Some duplicateMember =>
      let* dupRec := getMember duplicateMember in
      let* addRec := getMember memberToAdd in
      if areEnumMembersEqual dupRec addRec then ret false
      else
        let originalName := m_name addRec in
        match nonEmpty (getAlternateName addRec) with
        | Some alternate =>
            setMemberName memberToAdd (Some alternate) >>
            let* dup1 := getDuplicate memberToAdd members in
            match dup1 with
            | None => ret true
            | Some _ =>
                let* dupRec' := getMember duplicateMember in
                match nonEmpty (getAlternateName dupRec') with
                | Some alternate' =>
                    setMemberName duplicateMember (Some alternate') >>
                    let* dup2 := getDuplicate memberToAdd members in
                    match dup2 with
                    | None => ret true
                    | Some _ => suffixFallback originalName memberToAdd members
                    end
                | None => suffixFallback originalName memberToAdd members
                end
            end
        | None => suffixFallback originalName memberToAdd members
        end
  end.

(** *** Value sets and code systems *)

Definition getNameFromSystemUrl (url : string) : string :=
  formatName (default "" (Js.lastPart (Js.split "/" url))).

Definition getEnumName (file : SpecificationFile) (content : Content) : string :=
  let name := ct_name content in
  let name :=
    match nonEmpty name with
    | Some n => if Js.includes " " n then f_symbol file else name
    | None => f_symbol file
    end in
  match nonEmpty name with
  | Some n => formatName n
  | None => getNameFromSystemUrl (f_id file)
  end.

Definition getValueSetFile (url : string) (s : State) : option FileValue :=
  let url :=
    if String.eqb url "http://build.fhir.org/valueset-request-intent.html"
    then "http://hl7.org/fhir/ValueSet/request-intent" else url in
  match readFiles url s with
  | Some file => Some file
  | None =>
      let parts := Js.spliceBeforeLast "vs" (Js.split "/" url) in
      readFiles (Js.join "/" parts) s
  end.

Definition createEnumType (category : TypeCategory) (name : string)
    (description : option string) (members : nat) : TypeNode :=
  mkTypeNode KEnumType category (Some name) description None None None (Some members).

Definition setFileType (key : string) (tid : nat) : M unit :=
  modifyFile key (withType tid).

Definition processConcepts (concepts : option (list Concept)) (caseSensitive : option bool)
    (system : option string) : M nat :=
  let* members := allocArray [] in
  (match concepts with
   | Some cs =>
       forEach cs (fun concept =>
         let* name := getEnumMemberName system concept in
         let description := getEnumMemberDescription concept in
         let display := nonEmpty (andThen (c_display concept) Js.trim) in
         let* member :=
           allocMember (mkEnumMember name description (c_code concept) display system
                                     caseSensitive) in
         pushArray members member)
   | None => ret tt
   end) >>
  ret members.

Definition processValueSetComposeInclude (include : ComposeInclude) : M nat :=
  processConcepts (inc_concept include) (Some true) (inc_system include).

Definition processCodeSystem (key : string) : M unit :=
  let* file := getFile key in
  match f_content file with
  | None => typeError
  | Some content =>
      let name := getEnumName file content in
      let* members :=
        processConcepts (ct_concept content) (ct_caseSensitive content) (ct_url content) in
      let* tid :=
        allocType (createEnumType CatCodeSystem name (ct_description content) members) in
      setFileType key tid
  end.

(** [parent] is never set, so the ancestor walk of the source stops after
    the member itself. *)
Definition enumMemberIsA (member : EnumMember) (code : string) : bool :=
  String.eqb (m_value member) code.

(** The members array of a type node that is used as an [EnumType]:
    [undefined] for the other kinds. *)
Definition membersOf (tid : nat) : M (option nat) :=
  let* t := getType tid in ret (t_members t).

(** *** The part that re-enters the driver *)

Section Open.

(** [processFile] at the remaining recursion budget. *)
Variable processFile : string -> M unit.
(** The budget of the loops that are not structural. *)
Variable fuel : nat.

(** [referenceFile] on a document. *)
Definition referenceFile (key : string) : M unit :=
  let* file := getFile key in
  if f_referenced file then ret tt
  else
    modifyFile key markReferenced >>
    processFile key >>
    let* file' := getFile key in
    match f_type file' with
    | Some tid => addTypeToResults tid
    | None => ret tt
    end.

(** [referenceFile] on a value that the map inherits. [processFile] returns
    at once on it, as it has no [content], and it has no [type]; what stays
    is the flag on the inherited value. Once the flag is set on
    [Object.prototype] itself, every object that has no flag of its own
    reads it: the inherited values do, and so does every document. *)
Definition referenceInherited (name : string) : M unit :=
  let* referenced := gets (isFlagged name) in
  if referenced then ret tt
  else
    modify (setFlagged (fun names => names ++ [name])) >>
    if String.eqb name "__proto__" then
      let* fs := gets files in
      forEach (map fst fs) (fun key => modifyFile key markReferenced)
    else ret tt.

(** [referenceFile(file)] on what a read of the map gave. *)
Definition referenceValue (file : FileValue) : M unit :=
  match file with
  | Document key => referenceFile key
  | Inherited name => referenceInherited name
  end.

Definition substituteCodesFromOriginalSystem (url : string) (members : nat)
    : M (option nat) :=
  let* found := gets (getValueSetFile url) in
  match found with
  | Some (Document key) =>
      processFile key >>
      let* file := getFile key in
      match f_type file with
      | Some tid =>
          let* mids := getArray members in
          let* typeMembers := membersOf tid in
          match mids with
          | [] => ret typeMembers
          | _ =>
              match typeMembers with
              | None => typeError
              | Some tm =>
                  let* given := getMembers mids in
                  let* tmids := getArray tm in
                  let* trecs := getMembers tmids in
                  let kept :=
                    map fst (List.filter (fun p : nat * EnumMember =>
                      existsb (fun currentMember =>
                        String.eqb (m_value currentMember) (m_value (snd p))) given)
                      (combine tmids trecs)) in
                  let* r := allocArray kept in
                  ret (Some r)
              end
          end
      | None => ret (Some members)
      end
  | Some (Inherited _) => ret (Some members)
  | None => ret (Some members)
  end.

Definition processFilter (url : string) (filter : IncludeFilter) (members : option nat)
    : M unit :=
  let* found := gets (getValueSetFile url) in
  match found with
  | None => ret tt
  | Some value =>
      if negb (String.eqb (flt_op filter) "is-a") then
        addError ("Do not know how to process filter operation '" +:+ flt_op filter +:+ "'.")
      else if negb (String.eqb (flt_property filter) "concept") then
        addError ("Do not know how to process filter property '" +:+ flt_property filter +:+ "'.")
      else
        match value with
        | Document key =>
            processFile key >>
            let* file := getFile key in
            match f_type file with
            | Some tid =>
                let* typeMembers := membersOf tid in
                match typeMembers with
                | None => typeError
                | Some tm =>
                    let* tmids := getArray tm in
                    forEach tmids (fun member =>
                      let* rec := getMember member in
                      if enumMemberIsA rec (flt_value filter) then
                        match members with
                        | Some a => pushArray a member
                        | None => typeError
                        end
                      else ret tt)
                end
            | None => ret tt
            end
        | Inherited _ => ret tt
        end
  end.

Definition processImport (url : string) : M (option nat) :=
  let* found := gets (getValueSetFile url) in
  match found with
  | None =>
      addError ("Unable to process import statement for '" +:+ url
                +:+ "' because value set with id '" +:+ url +:+ "' could not be found.") >>
      let* r := allocArray [] in ret (Some r)
  | Some (Document key) =>
      processFile key >>
      let* file := getFile key in
      match f_type file with
      | Some tid => membersOf tid
      | None => let* r := allocArray [] in ret (Some r)
      end
  | Some (Inherited _) => let* r := allocArray [] in ret (Some r)
  end.

(** [combine] of [processValueSet]; [typeMembers] is [type.members]. *)
Definition combineMembers (typeMembers : nat) (members : option nat) : M unit :=
  match members with
  | None => ret tt
  | Some a =>
      let* mids := getArray a in
      forEach mids (fun member =>
        let* ok := adjustMemberName member typeMembers in
        if ok then pushArray typeMembers member else ret tt)
  end.

Definition processInclude (typeMembers : nat) (include : ComposeInclude) : M (option nat) :=
  match nonEmpty (inc_system include) with
  | Some system =>
      let* given := processValueSetComposeInclude include in
      let* members := substituteCodesFromOriginalSystem system given in
      (match inc_filter include with
       | Some filters => forEach filters (fun filter => processFilter system filter members)
       | None => ret tt
       end) >>
      ret members
  | None =>
      (match inc_valueSet include with
       | Some imports =>
           forEach imports (fun item =>
             let* imported := processImport item in combineMembers typeMembers imported)
       | None => ret tt
       end) >>
      let* r := allocArray [] in ret (Some r)
  end.

Definition processValueSet (key : string) : M unit :=
  let* file := getFile key in
  match f_content file with
  | None => typeError
  | Some content =>
      let* members := allocArray [] in
      let* tid :=
        allocType (createEnumType CatValueSet (getEnumName file content)
                                  (ct_description content) members) in
      setFileType key tid >>
      match ct_compose content with
      | Some compose =>
          match cmp_include compose with
          | Some includes =>
              forEach includes (fun item =>
                let* included := processInclude members item in
                combineMembers members included)
          | None => ret tt
          end
      | None => ret tt
      end
  end.

(** *** Structure definitions *)

Definition createTypeReference (name : option string) : PType := TypeReference name None.
Definition createArrayType (elementType : option PType) : PType := ArrayType elementType.
Definition createUnionType (types : list PType) : PType := UnionType types.

Definition createInterfaceType (name : string) (category : TypeCategory) : TypeNode :=
  mkTypeNode KInterfaceType category (Some name) None None None (Some []) None.

Definition createPrimitiveType (name intrinsicType : option string) : TypeNode :=
  mkTypeNode KPrimitive CatPrimitive name None intrinsicType None None None.

Definition setDescription (tid : nat) (description : option string) : M unit :=
  modifyType tid (fun t =>
    mkTypeNode (t_kind t) (t_category t) (t_name t) description (t_intrinsicType t)
               (t_baseType t) (t_properties t) (t_members t)).

Definition setBaseType (tid : nat) (baseType : option string) : M unit :=
  modifyType tid (fun t =>
    mkTypeNode (t_kind t) (t_category t) (t_name t) (t_description t) (t_intrinsicType t)
               baseType (t_properties t) (t_members t)).

Definition setProperties (tid : nat) (g : list Property -> list Property) : M unit :=
  modifyType tid (fun t =>
    mkTypeNode (t_kind t) (t_category t) (t_name t) (t_description t) (t_intrinsicType t)
               (t_baseType t) (option_map g (t_properties t)) (t_members t)).

Definition profileBase : string := "http://hl7.org/fhir/StructureDefinition/".

Definition getResourceNameFromProfile (profile : string) : M (option string) :=
  match Js.indexOf profileBase profile with
  | None => addError ("Unrecognized profile uri: '" +:+ profile +:+ "'.") >> ret None
  | Some _ => ret (Some (Js.substringFrom (String.length profileBase) profile))
  end.

Definition intrinsicTypes : list (string * string) :=
  [("instant", "string"); ("time", "string"); ("date", "string"); ("dateTime", "string");
   ("decimal", "number"); ("boolean", "boolean"); ("integer", "number");
   ("base64Binary", "string"); ("string", "string"); ("uri", "string");
   ("unsignedInt", "number"); ("positiveInt", "number"); ("code", "string");
   ("id", "string"); ("oid", "string"); ("markdown", "string")].

(** The [switch] of [getIntrinsicType], as a lookup in the table of its cases. *)
Definition getIntrinsicType (primitiveType : option string) : option string :=
  match primitiveType with
  | Some p => option_map snd (List.find (fun c => String.eqb (fst c) p) intrinsicTypes)
  | None => None
  end.

Definition isPrimitive (file : SpecificationFile) : bool :=
  match f_content file with
  | Some content =>
      match ct_differential content with
      | Some elements =>
          existsb (fun element =>
            match el_short element with
            | Some short => (negb (String.eqb short "") && Js.includes "Primitive" short)%bool
            | None => false
            end) elements
      | None => false
      end
  | None => false
  end.

Definition processPrimitive (key : string) : M unit :=
  let* file := getFile key in
  match f_content file with
  | None => typeError
  | Some content =>
      match ct_differential content with
      | None => typeError
      | Some elements =>
          let description :=
            fold_left (fun d element =>
              if optEqb String.eqb (Some (el_path element)) (ct_id content)
              then el_definition element else d) elements None in
          let intrinsicType := getIntrinsicType (ct_id content) in
          (if Js.truthy intrinsicType then ret tt
           else addError ("Unknown primitive type '" +:+ Js.showUndefined (ct_id content)
                          +:+ "'.")) >>
          let* tid := allocType (createPrimitiveType (ct_id content) intrinsicType) in
          setFileType key tid >>
          setDescription tid description
      end
  end.

Definition getProperty (props : list Property) (name : option string) : option Property :=
  List.find (fun prop => optEqb String.eqb (Some (p_name prop)) name) props.

Definition combinePropertyNameWithType (propertyName : string) (typeName : option string)
    : string :=
  Js.replace "[x]" (pascalCase (default "" typeName)) propertyName.

Definition getPropertyName (path : string) : option string :=
  if String.eqb path "" then None else Js.lastPart (Js.split "." path).

Definition getTypeByName (name : option string) : M (option TypeRef) :=
  match nonEmpty name with
  | None => ret None
  | Some n =>
      let* registered := gets (readIndex n) in
      match registered with
      | Some type => ret (Some type)
      | None =>
          let* referencedFile := gets (readFiles n) in
          match referencedFile with
          | Some (Document key) =>
              referenceFile key >>
              let* file := getFile key in
              ret (option_map Node (f_type file))
          | Some (Inherited inherited) => referenceInherited inherited >> ret None
          | None => ret None
          end
      end
  end.

(** [while (baseType) { ... baseType = getTypeByName(baseType.baseType) }] *)
Fixpoint hasBaseInterfaceLoop (budget : nat) (baseType : option TypeRef) (name : string)
    : M bool :=
  match baseType with
  | None => ret false
  | Some type =>
      match budget with
      | O => outOfFuel
      | S budget' =>
          match type with
          | Node tid =>
              let* t := getType tid in
              if optEqb String.eqb (t_name t) (Some name) then ret true
              else
                let* next := getTypeByName (t_baseType t) in
                hasBaseInterfaceLoop budget' next name
          | Foreign inheritedName =>
              if optEqb String.eqb inheritedName (Some name) then ret true
              else
                let* next := getTypeByName None in
                hasBaseInterfaceLoop budget' next name
          end
      end
  end.

Definition hasBaseInterface (interfaceType : nat) (name : string) : M bool :=
  hasBaseInterfaceLoop fuel (Some (Node interfaceType)) name.

(** [while (currentType.kind === TypeKind.ArrayType) currentType = elementType]. *)
Fixpoint stripArrays (t : PType) : M PType :=
  match t with
  | ArrayType (Some e) => stripArrays e
  | ArrayType None => typeError
  | _ => ret t
  end.

Definition getReferencedType (currentType : option PType) (category : option TypeCategory)
    : M (option TypeVal) :=
  match currentType with
  | None => ret None
  | Some t =>
      let* cur := stripArrays t in
      match cur with
      | TypeReference referencedName _ =>
          let* found := getTypeByName referencedName in
          match found with
          | None =>
              addError ("Could not find type with name '"
                        +:+ Js.showUndefined referencedName +:+ "'.") >>
              ret None
          | Some (Node tid) =>
              let* node := getType tid in
              match category with
              | Some c =>
                  if (negb (Nat.eqb (categoryCode c) 0)
                      && Nat.eqb (Nat.land (categoryCode (t_category node)) (categoryCode c)) 0)%bool
                  then ret None
                  else ret (Some (Named tid))
              | None => ret (Some (Named tid))
              end
          | Some (Foreign inheritedName) =>
              match category with
              | Some c =>
                  if negb (Nat.eqb (categoryCode c) 0) then ret None
                  else ret (Some (ForeignType inheritedName))
              | None => ret (Some (ForeignType inheritedName))
              end
          end
      | other => ret (Some (Inline other))
      end
  end.

Definition isObjectKind (k : TypeKind) : bool :=
  negb (Nat.eqb (Nat.land (kindCode k) objectTypesMask) 0).

Fixpoint getContainingTypeForPath (parentType : nat) (path : list string) : M (option nat) :=
  match path with
  | [_] => ret (Some parentType)
  | _ =>
      let propertyName := head path in
      let* parent := getType parentType in
      match t_properties parent with
      | None => typeError
      | Some props =>
          match getProperty props propertyName with
          | None =>
              addError ("Could not find property '" +:+ Js.showUndefined propertyName
                        +:+ "' on type '" +:+ Js.showUndefined (t_name parent) +:+ "'.") >>
              ret None
          | Some property =>
              let* currentType := getReferencedType (Some (p_type property)) None in
              match currentType with
              | None => ret None
              | Some (Named tid) =>
                  let* node := getType tid in
                  if isObjectKind (t_kind node) then
                    match path with
                    | _ :: rest => getContainingTypeForPath tid rest
                    | [] => ret None
                    end
                  else
                    addError ("Expected property '" +:+ Js.showUndefined propertyName
                              +:+ "' to reference an object type.") >>
                    ret None
              | Some (Inline _) | Some (ForeignType _) =>
                  addError ("Expected property '" +:+ Js.showUndefined propertyName
                            +:+ "' to reference an object type.") >>
                  ret None
              end
          end
      end
  end.

Definition getContainingTypeForElement (resourceType : nat) (element : ElementDefinition)
    : M (option nat) :=
  if String.eqb (el_path element) "" then ret None
  else
    match Js.split "." (el_path element) with
    | resourceName :: parts =>
        if String.eqb resourceName "" then ret None
        else
          let* isBase := hasBaseInterface resourceType resourceName in
          if isBase then getContainingTypeForPath resourceType parts
          else
            let* t := getType resourceType in
            addError ("Expected '" +:+ resourceName +:+ "' to be a '"
                      +:+ Js.showUndefined (t_name t) +:+ "'.") >>
            ret None
    | [] => ret None
    end.

(** [findTypeOfFirstProperty(type, name, checked)]; the [checked] array is
    shared by the whole search, so it is returned with the result. The loop
    over [type.properties] re-reads the array at every index. *)
Fixpoint findTypeOfFirstProperty (budget : nat) (type : nat) (name : option string)
    (checked : list nat) {struct budget} : M (option PType * list nat) :=
  match budget with
  | O => outOfFuel
  | S budget' =>
      let* node := getType type in
      match t_properties node with
      | None => ret (None, checked)
      | Some _ =>
          if existsb (Nat.eqb type) checked then ret (None, checked)
          else findInProperties budget' type name 0 (checked ++ [type])
      end
  end
with findInProperties (budget : nat) (type : nat) (name : option string) (i : nat)
    (checked : list nat) {struct budget} : M (option PType * list nat) :=
  match budget with
  | O => outOfFuel
  | S budget' =>
      let* node := getType type in
      match t_properties node with
      | None => typeError
      | Some props =>
          match props !! i with
          | None => ret (None, checked)
          | Some property =>
              if optEqb String.eqb (Some (p_name property)) name
              then ret (Some (p_type property), checked)
              else
                let* propertyType :=
                  getReferencedType (Some (p_type property)) (Some CatSubType) in
                match propertyType with
                | Some (Named tid) =>
                    let* sub := getType tid in
                    if isObjectKind (t_kind sub) then
                      let* r := findTypeOfFirstProperty budget' tid name checked in
                      match fst r with
                      | Some found => ret (Some found, snd r)
                      | None => findInProperties budget' type name (S i) (snd r)
                      end
                    else findInProperties budget' type name (S i) checked
                | _ => findInProperties budget' type name (S i) checked
                end
          end
      end
  end.

Definition getFileForType (name : string) : M bool :=
  let* elementTypeFile := gets (readFiles name) in
  match elementTypeFile with
  | None => addError ("Unknown type '" +:+ name +:+ "'.") >> ret false
  | Some file => referenceValue file >> ret true
  end.

(** The binding that a [profile] of a type option puts on its reference. *)
Definition profileBinding (profile : option string) : M (option string) :=
  match nonEmpty profile with
  | Some p =>
      let* resourceName := getResourceNameFromProfile p in
      match nonEmpty resourceName with
      | Some rn =>
          (if String.eqb rn "any" then ret tt
           else
             let* resourceFile := gets (readFiles rn) in
             match resourceFile with
             | None => addError ("Unknown profile '" +:+ rn +:+ "'.")
             | Some file => referenceValue file
             end) >>
          ret (Some rn)
      | None => ret None
      end
  | None => ret None
  end.

(** The loop of [getTypeReferences]. [remaining] is what the [for ... of]
    iterator still has to visit of the array it was created on; [typeElements]
    is the variable of that name, which a wildcard re-assigns to a longer
    copy that the iterator does not see. *)
Fixpoint typeReferencesLoop (remaining typeElements : list ElementType)
    (result : list PType) : M (option (list PType)) :=
  match remaining with
  | [] => ret (Some result)
  | typeElement :: rest =>
      match nonEmpty (et_code typeElement) with
      | None => addError "Missing type name." >> ret None
      | Some typeName =>
          if String.eqb typeName "*" then
            typeReferencesLoop rest (typeElements ++ openTypeElement) result
          else
            let* valid :=
              if String.eqb typeName "xhtml" then ret (Some "string")
              else
                let* found := getFileForType typeName in
                ret (if found then Some typeName else None) in
            match valid with
            | None => ret None
            | Some typeName' =>
                let* binding := profileBinding (et_profile typeElement) in
                typeReferencesLoop rest typeElements
                  (result ++ [TypeReference (Some typeName') binding])
            end
      end
  end.

Definition getTypeReferences (types : option (list ElementType)) : M (option (list PType)) :=
  match types with
  | None => ret None
  | Some ts => typeReferencesLoop ts ts []
  end.

Definition isExampleBinding (binding : Binding) : bool :=
  optEqb String.eqb (bnd_strength binding) (Some "example").

Definition isApparentExampleValueSet (content : Content) : bool :=
  optEqb String.eqb (ct_copyright content) (Some "This is an example set").

Definition setSymbol (key : string) (symbol : string) : M unit :=
  modifyFile key (withSymbol symbol).

Definition getBindingReference (element : ElementDefinition) : M (option string) :=
  match el_binding element with
  | None => addError (el_path element) >> ret None
  | Some binding =>
      match nonEmpty (bnd_valueSetReference binding) with
      | None => ret None
      | Some reference =>
          let* found := gets (getValueSetFile reference) in
          match found with
          | None =>
              addError ("Unknown binding reference '" +:+ reference +:+ "'.") >> ret None
          | Some (Inherited _) => typeError
          | Some (Document key) =>
              let* bindingTypeFile := getFile key in
              match f_content bindingTypeFile with
              | None => typeError
              | Some content =>
                  if isApparentExampleValueSet content then ret None
                  else
                    (if Js.truthy (f_symbol bindingTypeFile) then ret tt
                     else setSymbol key (pascalCase (el_path element))) >>
                    referenceFile key >>
                    let* bindingTypeFile' := getFile key in
                    match f_type bindingTypeFile' with
                    | None => typeError
                    | Some tid => let* t := getType tid in ret (t_name t)
                    end
              end
          end
      end
  end.

Definition createSubType (element : ElementDefinition) (baseType : string) : M PType :=
  let subTypeName := pascalCase (el_path element) in
  let* tid :=
    allocType (mkTypeNode KInterfaceType CatSubType (Some subTypeName) (el_short element)
                          None (Some baseType) (Some []) None) in
  addTypeToResults tid >>
  ret (createTypeReference (Some subTypeName)).

Definition startsWithHash (s : string) : bool :=
  match s with
  | String a _ => Ascii.eqb a "#"
  | EmptyString => false
  end.

Definition getPropertyTypeForElement (rootType : nat) (element : ElementDefinition)
    : M (option PType) :=
  let* elementType :=
    match nonEmpty (el_contentReference element) with
    | Some contentReference =>
        if negb (startsWithHash contentReference) then
          addError ("Expected content reference '" +:+ contentReference
                    +:+ "' to start with #.") >>
          ret None
        else
          let* found :=
            findTypeOfFirstProperty fuel rootType
              (getPropertyName contentReference) [] in
          let* resolved := getReferencedType (fst found) None in
          match resolved with
          | None =>
              addError ("Could not resolve content reference '" +:+ contentReference
                        +:+ "'.") >>
              ret None
          | Some (Named tid) =>
              let* t := getType tid in
              (match t_kind t with
               | KInterfaceType => ret tt
               | _ => addError "Expected content reference to resolve to an interface type."
               end) >>
              ret (Some (Some (createTypeReference (t_name t))))
          | Some (Inline p) =>
              addError "Expected content reference to resolve to an interface type." >>
              ret (Some (Some (createTypeReference (ptypeName p))))
          | Some (ForeignType inheritedName) =>
              addError "Expected content reference to resolve to an interface type." >>
              ret (Some (Some (createTypeReference inheritedName)))
          end
    | None =>
        let* typeReferences := getTypeReferences (el_type element) in
        let* elementType :=
          match typeReferences with
          | None | Some [] =>
              addError ("Expected type for " +:+ el_path element +:+ ".") >> ret None
          | Some [typeReference] =>
              if optEqb String.eqb (ptypeName typeReference) (Some "Element")
              then let* r := createSubType element "Element" in ret (Some r)
              else if optEqb String.eqb (ptypeName typeReference) (Some "BackboneElement")
              then let* r := createSubType element "BackboneElement" in ret (Some r)
              else ret (Some typeReference)
          | Some refs => ret (Some (createUnionType refs))
          end in
        let* bound :=
          match el_binding element with
          | Some binding =>
              if isExampleBinding binding then ret elementType
              else
                let* bindingReference := getBindingReference element in
                match nonEmpty bindingReference with
                | None => ret elementType
                | Some b =>
                    match elementType with
                    | None => typeError
                    | Some (TypeReference n _) => ret (Some (TypeReference n (Some b)))
                    | Some _ => addError "Expected type reference" >> ret elementType
                    end
                end
          | None => ret elementType
          end in
        ret (Some bound)
    end in
  match elementType with
  | None => ret None
  | Some elementType =>
      if optEqb String.eqb (el_max element) (Some "1") then ret elementType
      else ret (Some (createArrayType elementType))
  end.

(** [addProperty] of [processTypeDefinition], with the [element] and the
    [containingType] of the running iteration; the result is the index of the
    new property in [containingType.properties]. *)
Definition addProperty (containingType : nat) (element : ElementDefinition)
    (name : string) (propertyType : PType) (optional : option bool) : M nat :=
  let* t := getType containingType in
  match t_properties t with
  | None => typeError
  | Some props =>
      let property :=
        mkProperty name (el_short element) propertyType
          (match optional with
           | None => optEqb Nat.eqb (el_min element) (Some 0)
           | Some b => b
           end) in
      setProperties containingType (fun ps => ps ++ [property]) >>
      ret (length props)
  end.

(** The two assignments to [lastProperty.type]. *)
Definition extendUnion (typeReference : PType) (property : Property) : Property :=
  mkProperty (p_name property) (p_description property)
    (match p_type property with
     | UnionType types => UnionType (types ++ [typeReference])
     | other => createUnionType [other; typeReference]
     end)
    (p_optional property).

(** The loop over the type options of a [[x]] element. [lastProperty] is the
    index of the property object in [containingType.properties]. *)
Fixpoint polymorphicLoop (containingType : nat) (element : ElementDefinition)
    (propertyName : string) (typeReferences : list PType)
    (lastProperty : option nat) (lastTypeReferenceName : option string) : M unit :=
  match typeReferences with
  | [] => ret tt
  | typeReference :: rest =>
      if optEqb String.eqb lastTypeReferenceName (ptypeName typeReference) then
        match lastProperty with
        | None => typeError
        | Some idx =>
            setProperties containingType (alter (extendUnion typeReference) idx) >>
            polymorphicLoop containingType element propertyName rest
              lastProperty lastTypeReferenceName
        end
      else
        let* idx :=
          addProperty containingType element
            (combinePropertyNameWithType propertyName (ptypeName typeReference))
            typeReference (Some true) in
        polymorphicLoop containingType element propertyName rest
          (Some idx) (ptypeName typeReference)
  end.

Definition isPolymorphicName (propertyName : string) : bool :=
  (Nat.ltb 3 (String.length propertyName)
   && optEqb Nat.eqb (Js.indexOf "[x]" propertyName) (Some (String.length propertyName - 3)))%bool.

(** The loop over [content.differential.element]; [false] is an early
    [return] of [processTypeDefinition]. *)
Fixpoint elementLoop (type : nat) (elements : list ElementDefinition) : M bool :=
  match elements with
  | [] => ret true
  | element :: rest =>
      match Js.indexOf "." (el_path element) with
      | None => setDescription type (el_short element) >> elementLoop type rest
      | Some _ =>
          match nonEmpty (getPropertyName (el_path element)) with
          | None => referenceError
          | Some propertyName =>
              let* containingType :=
                getContainingTypeForElement type element in
              match containingType with
              | None =>
                  addError ("Error getting containing type for property '"
                            +:+ propertyName +:+ "': ") >>
                  ret false
              | Some containing =>
                  if isPolymorphicName propertyName then
                    let* typeReferences := getTypeReferences (el_type element) in
                    match typeReferences with
                    | None =>
                        addError ("No types specified for '" +:+ propertyName +:+ "'.") >>
                        ret false
                    | Some refs =>
                        polymorphicLoop containing element propertyName refs None (Some "") >>
                        elementLoop type rest
                    end
                  else if optEqb String.eqb (el_max element) (Some "0") then
                    elementLoop type rest
                  else
                    let* propertyType := getPropertyTypeForElement type element in
                    match propertyType with
                    | None =>
                        addError ("Error getting type for property '" +:+ propertyName
                                  +:+ "'.") >>
                        ret false
                    | Some pt =>
                        addProperty containing element propertyName pt None >>
                        elementLoop type rest
                    end
              end
          end
      end
  end.

Definition backfill (type : nat) (typeName propertyName : string) (property : Property)
    : M unit :=
  let* t := getType type in
  if optEqb String.eqb (t_name t) (Some typeName) then
    match t_properties t with
    | None => typeError
    | Some props =>
        match getProperty props (Some propertyName) with
        | Some _ => ret tt
        | None => setProperties type (fun ps => property :: ps)
        end
    end
  else ret tt.

Definition processTypeDefinition (key : string) : M unit :=
  let* file := getFile key in
  match f_content file with
  | None => typeError
  | Some content =>
      match nonEmpty (ct_id content) with
      | None => ret tt
      | Some id =>
          let* type :=
            allocType (createInterfaceType id
              (if isResourceDefinition file then CatResource else CatDataType)) in
          setFileType key type >>
          let* known :=
            match ct_baseDefinition content with
            | Some baseDefinition =>
                let* baseType := getResourceNameFromProfile baseDefinition in
                setBaseType type baseType >>
                match nonEmpty baseType with
                | Some base =>
                    let* baseTypeFile := gets (readFiles base) in
                    match baseTypeFile with
                    | None => addError ("Unknown base type '" +:+ base +:+ "'.") >> ret false
                    | Some file => referenceValue file >> ret true
                    end
                | None => ret true
                end
            | None => ret true
            end in
          if known then
            match ct_differential content with
            | None => typeError
            | Some elements =>
                let* finished := elementLoop type elements in
                if finished then
                  backfill type "Resource" "resourceType"
                    (mkProperty "resourceType" (Some "The type of the resource.")
                                (createTypeReference (Some "code")) true) >>
                  backfill type "Element" "fhir_comments"
                    (mkProperty "fhir_comments" (Some "Content that would be comments in an XML.")
                                (createArrayType (Some (createTypeReference (Some "string"))))
                                true)
                else ret tt
            end
          else ret tt
      end
  end.

Definition processResource (key : string) : M unit := processTypeDefinition key.

Definition processType (key : string) : M unit :=
  let* file := getFile key in
  if isPrimitive file then processPrimitive key else processTypeDefinition key.

Definition processStructureDefinition (key : string) : M unit :=
  let* file := getFile key in
  match f_content file with
  | None => typeError
  | Some content =>
      let kind := ct_kind content in
      if Js.isStr kind "resource" then processResource key
      else if (Js.isStr kind "constraint" || Js.isStr kind "datatype" || Js.isStr kind "type"
               || Js.isStr kind "complex-type" || Js.isStr kind "primitive-type")%bool
      then processType key
      else addError ("Unknown content kind '" +:+ Js.showUndefined kind +:+ "'.")
  end.

(** *** The driver *)

(** The [switch] of [processFile]. *)
Definition processByResourceType (content : Content) (key : string) : M unit :=
  let resourceType := ct_resourceType content in
  if Js.isStr resourceType "ValueSet" then processValueSet key
  else if Js.isStr resourceType "StructureDefinition" then processStructureDefinition key
  else if Js.isStr resourceType "CodeSystem" then processCodeSystem key
  else addError ("Unknown resource type '" +:+ Js.showUndefined resourceType +:+ "'.").

Definition processFileBody (key : string) : M unit :=
  let* file := getFile key in
  match f_content file with
  | None => ret tt
  | Some content =>
      if (f_processed file || f_queued file)%bool then ret tt
      else
        modifyFile key markQueued >>
        modify (setBodyLog (fun l => l ++ [key])) >>
        let* oldFile := gets currentFile in
        modify (setCurrentFile (Some key)) >>
        processByResourceType content key >>
        modifyFile key markProcessed >>
        modify (setCurrentFile oldFile)
  end.

End Open.

Fixpoint processFile (fuel : nat) (key : string) : M unit :=
  match fuel with
  | O => outOfFuel
  | S fuel' => processFileBody (processFile fuel') fuel' key
  end.

(** The loop of [processFiles] over the keys of the document map. The call
    [files.hasOwnProperty(id)] finds the function of the prototype, unless
    the map has a document under that very name, which cannot be called. *)
Definition seedLoop (fuel : nat) (keys : list string) : M unit :=
  forEach keys (fun id =>
    let* fs := gets files in
    match lookupFile "hasOwnProperty" fs with
    | Some _ => typeError
    | None =>
        let* file := getFile id in
        if isResourceDefinition file then
          let* constrained := isConstrainedType file in
          if constrained then ret tt
          else referenceFile (processFile fuel) id
        else ret tt
    end).

(** The locals of a call of [processFiles]: an empty name index, empty result
    lists and no current document. The documents, and the objects that an
    earlier call hung on them, are those of the caller, and so is the realm. *)
Definition enterProcessFiles (s : State) : State :=
  mkState (files s) (typeHeap s) (memberHeap s) (arrayHeap s) ∅ [] [] None [] (flagged s).

Definition processFilesOn (fuel : nat) (s : State) : State * Outcome unit :=
  seedLoop fuel (map fst (files s)) (enterProcessFiles s).

Definition freshDocuments (fs : FileMap) : State :=
  mkState fs [] [] [] ∅ [] [] None [] [].

(** [processFiles(files)] on documents that no call has touched yet. *)
Definition processFiles (fuel : nat) (fs : FileMap) : State * Outcome unit :=
  processFilesOn fuel (freshDocuments fs).

End Processor.

(** ** Definitions that the statements below use *)

(** The URL tolerance of the value-set lookup, in the words of the
    specification: one historical URL is rewritten to its canonical
    counterpart, and a failed lookup is retried with a ["vs"] segment before
    the last segment. *)
Definition canonicalUrl (url : string) : string :=
  if String.eqb url "http://build.fhir.org/valueset-request-intent.html"
  then "http://hl7.org/fhir/ValueSet/request-intent" else url.

Definition withVsSegment (url : string) : string :=
  Js.join "/" (Js.spliceBeforeLast "vs" (Js.split "/" url)).

(** The fixed symbol-to-word map of the specification. *)
Definition operatorWords : list (string * string) :=
  [("=", "Equals"); ("<", "LessThan"); ("<=", "LessThanOrEqual");
   (">", "GreaterThan"); (">=", "GreaterThanOrEqual")].

Definition isWildcard (t : ElementType) : bool := Js.isStr (et_code t) "*".

(** The names of the open type set, in the order of the specification. *)
Definition openTypeNames : list string :=
  ["integer"; "decimal"; "dateTime"; "date"; "instant"; "time"; "string"; "uri";
   "boolean"; "code"; "base64Binary"; "Coding"; "CodeableConcept"; "Attachment";
   "Identifier"; "Quantity"; "Range"; "Period"; "Ratio"; "HumanName"; "Address";
   "ContactPoint"; "Timing"; "Signature"; "Reference"].

(** The visit state of a document, read off its two flags. *)
Inductive VisitState := Unvisited | Queued | Processed.

Definition visitState (f : SpecificationFile) : VisitState :=
  if f_processed f then Processed
  else if f_queued f then Queued
  else Unvisited.

Definition visitRank (v : VisitState) : nat :=
  match v with Unvisited => 0 | Queued => 1 | Processed => 2 end.

(** What a step of the resolver may do to a document: its identity and its
    content stay, its flags are only ever set. *)
Definition fileExtends (f f' : SpecificationFile) : Prop :=
  f_id f' = f_id f /\ f_filename f' = f_filename f /\ f_content f' = f_content f
  /\ (f_queued f = true -> f_queued f' = true)
  /\ (f_processed f = true -> f_processed f' = true)
  /\ (f_referenced f = true -> f_referenced f' = true).

(** The ghost log lists each entered document once, and a listed document
    is queued. *)
Definition logInvariant (s : State) : Prop :=
  NoDup (bodyLog s)
  /\ forall k, k ∈ bodyLog s ->
       exists f, lookupFile k (files s) = Some f /\ f_queued f = true.

(** What a step of the resolver may do to the state. *)
Record Extends (s s' : State) : Prop := mkExtends {
  ext_keys : map fst (files s') = map fst (files s);
  ext_files : forall k f, lookupFile k (files s) = Some f ->
      exists f', lookupFile k (files s') = Some f' /\ fileExtends f f';
  ext_index : forall n t, typesByName s !! n = Some t -> typesByName s' !! n = Some t;
  ext_names : forall i node, typeHeap s !! i = Some node ->
      exists node', typeHeap s' !! i = Some node' /\ t_name node' = t_name node;
  ext_types : exists l, resultTypes s' = resultTypes s ++ l;
  ext_errors : exists l, resultErrors s' = resultErrors s ++ l;
  ext_logged : exists l, bodyLog s' = bodyLog s ++ l;
  ext_log : logInvariant s -> logInvariant s' }.

(** A computation respects the discipline of the resolver when every run of
    it extends the state, and a run that completes leaves the current
    document as it found it. *)
Definition Respects {A} (m : M A) : Prop :=
  forall s,
    Extends s (fst (m s))
    /\ forall a, snd (m s) = Done a -> currentFile (fst (m s)) = currentFile s.

(** The state in which the [switch] of [processFile] runs. *)
Definition enterBody (key : string) (s : State) : State :=
  setCurrentFile (Some key)
    (setBodyLog (fun l => l ++ [key]) (setFiles (updateFile key markQueued) s)).

(** The state in which [processFile] returns after the [switch]. *)
Definition leaveBody (key : string) (oldFile : option string) (s : State) : State :=
  setCurrentFile oldFile (setFiles (updateFile key markProcessed) s).

(** The prefix that [addError] puts before a message. *)
Definition errorPrefix (s : State) : string :=
  match currentFile s with
  | Some key =>
      match lookupFile key (files s) with
      | Some f => f_filename f +:+ ": "
      | None => ""
      end
  | None => ""
  end.

(** The documents that the seed loop passes to [referenceFile]. *)
Definition isSeed (f : SpecificationFile) : bool :=
  (isResourceDefinition f
   && negb match f_content f with
           | Some content => Js.isStr (ct_derivation content) "constraint"
           | None => false
           end)%bool.








(** What [getTypeReferences] produces: references with a non-empty name. *)
Definition isNamedReference (t : PType) : bool :=
  match t with
  | TypeReference (Some n) _ => negb (String.eqb n "")
  | _ => false
  end.

(** The state after [type.properties] of a node was set to [ps]. *)
Definition putProperties (tid : nat) (ps : list Property) (s : State) : State :=
  setTypeHeap (alter (fun t =>
    mkTypeNode (t_kind t) (t_category t) (t_name t) (t_description t) (t_intrinsicType t)
               (t_baseType t) (Some ps) (t_members t)) tid) s.





(** ** Definitions for the further properties *)

(** ** The reader ([src/reader.ts])

    [readSpecification] walks the files that [glob.sync] lists and registers
    the documents it can use under their ids. The file system and
    [JSON.parse] are its inputs here: every listed file comes with what
    reading and parsing it gives. The map is kept in insertion order; it is
    a plain object, so it also answers to the names of [Object.prototype]. *)

Module Reader.

(** What [JSON.parse(fs.readFileSync(filename, "utf8"))] does: it returns the
    parsed value ([None] for a falsy one), or throws an error with a message. *)
Inductive ReadResult :=
| Parsed (content : option Content)
| Failed (message : string).

(** What [glob.sync] does: it returns the file names, or throws. *)
Inductive Listing :=
| Listed (entries : list (string * ReadResult))
| GlobFailed (message : string).

(** [CreateFileMapResults]. *)
Record Result := mkResult {
  r_files : FileMap;
  r_errors : list string }.

(** [addError], with the value of [currentFile] at the call. *)
Definition addError (currentFile : option string) (msg : string) (r : Result) : Result :=
  mkResult (r_files r)
           (r_errors r ++ [match nonEmpty currentFile with
                           | Some filename => filename +:+ ": " +:+ msg
                           | None => msg
                           end]).

Definition getContentId (content : Content) : option string :=
  if (Js.isStr (ct_resourceType content) "ValueSet"
      || Js.isStr (ct_resourceType content) "CodeSystem")%bool
  then ct_url content
  else ct_id content.

(** [processFile(filename, content)]; [currentFile] is [filename] at each of
    its calls. *)
Definition processFile (filename : string) (content : option Content) (r : Result) : Result :=
  match content with
  | None => r
  | Some c =>
      let resourceType := ct_resourceType c in
      if (negb (Js.isStr resourceType "ValueSet")
          && negb (Js.isStr resourceType "StructureDefinition")
          && negb (Js.isStr resourceType "CodeSystem"))%bool then r
      else if (Js.isStr resourceType "StructureDefinition"
               && negb (Js.includes ".profile" filename))%bool then r
      else
        match nonEmpty (getContentId c) with
        | None => r
        | Some id =>
            match lookupFile id (r_files r) with
            | Some existing =>
                addError (Some filename)
                  ("Duplicate id '" +:+ id +:+ "' already defined in file '"
                   +:+ f_filename existing +:+ "'.") r
            | None =>
                if Prototype.isStandard id then
                  addError (Some filename)
                    ("Duplicate id '" +:+ id +:+ "' already defined in file '"
                     +:+ Js.showUndefined None +:+ "'.") r
                else
                  mkResult (r_files r
                            ++ [(id, mkFile id filename false false false None (Some c) None)])
                           (r_errors r)
            end
        end
  end.

(** [readFile(filename)] followed by [processFile]: a file that cannot be
    read or parsed leaves an error, and [processFile] gets [null]. *)
Definition readAndProcess (filename : string) (read : ReadResult) (r : Result) : Result :=
  match read with
  | Parsed content => processFile filename content r
  | Failed message => processFile filename None (addError (Some filename) message r)
  end.

Definition isSkipped (filename : string) : bool :=
  (Js.includes ".canonical.json" filename || Js.includes ".diff.json" filename)%bool.

(** The body of the loop over the listed files. *)
Definition visit (r : Result) (entry : string * ReadResult) : Result :=
  if isSkipped (fst entry) then r else readAndProcess (fst entry) (snd entry) r.

Definition readSpecification (basePath : string) (listing : Listing) : Result :=
  match listing with
  | Listed entries => fold_left visit entries (mkResult [] [])
  | GlobFailed message =>
      addError None ("Error reading directory '" +:+ basePath +:+ "': " +:+ message +:+ ".")
               (mkResult [] [])
  end.

(** The document that a listed file stands for, when the reader can use it:
    it is not skipped, it parses to a value set, a code system or a structure
    definition in a [.profile] file, and it has an id. *)
Definition candidate (entry : string * ReadResult) : option (string * SpecificationFile) :=
  if isSkipped (fst entry) then None
  else
    match snd entry with
    | Parsed (Some c) =>
        if (Js.isStr (ct_resourceType c) "ValueSet"
            || Js.isStr (ct_resourceType c) "CodeSystem"
            || (Js.isStr (ct_resourceType c) "StructureDefinition"
                && Js.includes ".profile" (fst entry)))%bool
        then option_map (fun id => (id, mkFile id (fst entry) false false false None (Some c) None))
                        (nonEmpty (getContentId c))
        else None
    | _ => None
    end.

Definition hasId (id : string) (entry : string * ReadResult) : bool :=
  match candidate entry with
  | Some (id', _) => String.eqb id' id
  | None => false
  end.

Definition isUsable (entry : string * ReadResult) : bool :=
  match candidate entry with Some _ => true | None => false end.

(** The files that could not be read or parsed, among those not skipped. *)
Definition isUnreadable (entry : string * ReadResult) : bool :=
  (negb (isSkipped (fst entry))
   && match snd entry with Failed _ => true | Parsed _ => false end)%bool.

End Reader.

(** The error that [processFile] records for a document that none of its
    processors handles: a resource type that is not one of the three, or a
    structure definition of an unknown kind. *)
Definition unhandledMessage (content : Content) : option string :=
  let resourceType := ct_resourceType content in
  let kind := ct_kind content in
  if (Js.isStr resourceType "ValueSet" || Js.isStr resourceType "CodeSystem")%bool then None
  else if Js.isStr resourceType "StructureDefinition" then
    if (Js.isStr kind "resource" || Js.isStr kind "constraint" || Js.isStr kind "datatype"
        || Js.isStr kind "type" || Js.isStr kind "complex-type"
        || Js.isStr kind "primitive-type")%bool
    then None
    else Some ("Unknown content kind '" +:+ Js.showUndefined kind +:+ "'.")
  else Some ("Unknown resource type '" +:+ Js.showUndefined resourceType +:+ "'.").

(** A computation moves the state along a relation when every run of it,
    whatever its outcome, ends in a state that the relation links to the
    state it started in. *)
Definition Steps (R : State -> State -> Prop) {A} (m : M A) : Prop :=
  forall s, R s (fst (m s)).

(** The first node of the output list that has a given name. *)
Definition hasName (h : list TypeNode) (name : string) (tid : nat) : bool :=
  match h !! tid with
  | Some node => optEqb String.eqb (t_name node) (Some name)
  | None => false
  end.

Definition firstOutput (h : list TypeNode) (output : list nat) (name : string) : option nat :=
  List.find (hasName h name) output.

(** The name index is the first-wins index of the output list: an entry of
    it maps a name to the first node of the output list that has this name,
    and every name of a node of the output list has an entry, unless
    [Object.prototype] answers to it; it has no entry for the empty name nor
    for a name that the prototype answers to from the start; and the output
    list names nodes of the heap. *)
Definition registryInvariant (s : State) : Prop :=
  (forall tid, tid ∈ resultTypes s -> is_Some (typeHeap s !! tid))
  /\ typesByName s !! "" = None
  /\ (forall name tid, typesByName s !! name = Some tid ->
        firstOutput (typeHeap s) (resultTypes s) name = Some tid)
  /\ (forall name, name <> "" -> inherits s name = false ->
        typesByName s !! name = firstOutput (typeHeap s) (resultTypes s) name)
  /\ (forall name, Prototype.isStandard name = true -> typesByName s !! name = None).

Definition keepsRegistry (s s' : State) : Prop :=
  registryInvariant s -> registryInvariant s'.

(** A member whose name starts with a digit. *)
Definition isDigitLed (member : EnumMember) : bool :=
  match m_name member with
  | Some name => Js.startsWithNumber name
  | None => false
  end.

(** No member of the heap has a name that starts with a digit. *)
Definition wellNamed (s : State) : Prop :=
  Forall (fun member => isDigitLed member = false) (memberHeap s).

Definition keepsNames (s s' : State) : Prop := wellNamed s -> wellNamed s'.

(** The member that [processConcepts] makes of a concept, up to its name. *)
Definition memberOfConcept (caseSensitive : option bool) (system : option string)
    (concept : Concept) (member : EnumMember) : Prop :=
  m_value member = c_code concept
  /\ m_description member = getEnumMemberDescription concept
  /\ m_display member = nonEmpty (andThen (c_display concept) Js.trim)
  /\ m_system member = system
  /\ m_caseSensitive member = caseSensitive.

(** What the processing of concepts leaves alone. *)
Definition sameDocumentsAndTypes (s s' : State) : Prop :=
  files s' = files s /\ typeHeap s' = typeHeap s /\ typesByName s' = typesByName s
  /\ resultTypes s' = resultTypes s /\ currentFile s' = currentFile s
  /\ bodyLog s' = bodyLog s.

(** The description that [processPrimitive] gives the type: the definition of
    the last element whose path is the id of the document. *)
Definition primitiveDescription (id : option string) (elements : list ElementDefinition)
    : option string :=
  match List.find (fun element => optEqb String.eqb (Some (el_path element)) id)
                  (rev elements) with
  | Some element => el_definition element
  | None => None
  end.

(** The type name that a type option resolves to. *)
Definition resolvedTypeName (t : ElementType) : option string :=
  match nonEmpty (et_code t) with
  | Some code => if String.eqb code "xhtml" then Some "string" else Some code
  | None => None
  end.

(** A set of type nodes that the walk of [hasBaseInterface] does not leave:
    no node of it has the name that is looked for, and the base type of each
    resolves to a node of it again, without a change of the state. *)
Definition baseCycle (pf : string -> M unit) (s : State) (name : string)
    (cycle : list nat) : Prop :=
  forall tid, tid ∈ cycle ->
    exists node next,
      typeHeap s !! tid = Some node /\ t_name node <> Some name
      /\ getTypeByName pf (t_baseType node) s = (s, Done (Some (Node next)))
      /\ next ∈ cycle.

Definition sameArrays (s s' : State) : Prop := arrayHeap s' = arrayHeap s.

(** The flags on the inherited values are only ever set. *)
Definition realmGrows (s s' : State) : Prop :=
  exists names, flagged s' = flagged s ++ names.

(** Once the flag is on [Object.prototype] itself, every document of the
    map reads it as its own. *)
Definition markedInvariant (s : State) : Prop :=
  isPolluted s = true ->
  forall k f, lookupFile k (files s) = Some f -> f_referenced f = true.

Definition keepsMarked (s s' : State) : Prop := markedInvariant s -> markedInvariant s'.

(** An element without its binding. *)
Definition withoutBinding (element : ElementDefinition) : ElementDefinition :=
  mkElement (el_path element) (el_short element) (el_definition element) (el_min element)
            (el_max element) (el_contentReference element) (el_type element) None.

(** A type option that [getTypeReferences] can resolve on a map with the
    keys [keys]: the wildcard, [xhtml], the name of a document, or a name
    that the map inherits. *)
Definition resolvableOn (keys : list string) (s : State) (t : ElementType) : Prop :=
  isWildcard t = true \/ Js.isStr (et_code t) "xhtml" = true
  \/ exists name, et_code t = Some name /\ (name ∈ keys \/ inherits s name = true).

(** ** Documents and states of the concrete runs *)

Module Examples.

Definition structureDefinition (id kind : string) (base : option string)
    (elements : list ElementDefinition) : Content :=
  mkContent (Some "StructureDefinition") (Some id) (Some kind) None base (Some elements)
            None None None None None None None.

Definition valueSet (url name : string) (includes : list ComposeInclude) : Content :=
  mkContent (Some "ValueSet") None None None None None (Some name) None (Some url) None None
            (Some (mkCompose (Some includes))) None.

Definition document (id filename : string) (content : Content) : SpecificationFile :=
  mkFile id filename false false false None (Some content) None.

Definition rootElement (path short : string) : ElementDefinition :=
  mkElement path (Some short) None None None None None None.

Definition propertyElement (path short : string) (types : list string) : ElementDefinition :=
  mkElement path (Some short) None (Some 0) (Some "1") None
            (Some (map (fun c => mkElementType (Some c) None) types)) None.

Definition typeDocument (id : string) : string * SpecificationFile :=
  (id, document id (id +:+ ".profile.json")
         (structureDefinition id "datatype" None [rootElement id id])).

Definition profile (name : string) : string :=
  "http://hl7.org/fhir/StructureDefinition/" +:+ name.

(** A resource whose base type is missing, followed by an unrelated one. *)
Definition patient : SpecificationFile :=
  document "Patient" "patient.profile.json"
    (structureDefinition "Patient" "resource" (Some (profile "DomainResource"))
       [rootElement "Patient" "A patient"]).

Definition orphanDocuments : FileMap :=
  [("Patient", patient);
   ("Device", document "Device" "device.profile.json"
      (structureDefinition "Device" "resource" None [rootElement "Device" "A device"]))].

(** A resource whose base type has a name that the map inherits. *)
Definition inheritedBaseDocuments : FileMap :=
  [("Patient",
    document "Patient" "patient.profile.json"
      (structureDefinition "Patient" "resource" (Some (profile "toString"))
         [rootElement "Patient" "A patient"]))].

(** A resource whose base type is named [__proto__], followed by an
    unrelated one. *)
Definition pollutedDocuments : FileMap :=
  [("Patient",
    document "Patient" "patient.profile.json"
      (structureDefinition "Patient" "resource" (Some (profile "__proto__"))
         [rootElement "Patient" "A patient"]));
   ("Device", document "Device" "device.profile.json"
      (structureDefinition "Device" "resource" None [rootElement "Device" "A device"]))].

(** Two resources whose base types form a cycle. *)
Definition cycleA : SpecificationFile :=
  document "A" "a.profile.json"
    (structureDefinition "A" "resource" (Some (profile "B")) [rootElement "A" "An a"]).

Definition cycleDocuments : FileMap :=
  [("A", cycleA);
   ("B", document "B" "b.profile.json"
      (structureDefinition "B" "resource" (Some (profile "A")) [rootElement "B" "A b"]))].






(** Two members with the same name and code from different systems, the
    first of them in the member list of an enum type. *)
Definition activeMember (system : string) : EnumMember :=
  mkEnumMember (Some "Active") None "active" (Some "Active") (Some system) (Some true).




(** A resource with a polymorphic element. *)
Definition valueElement (types : list string) : ElementDefinition :=
  propertyElement "Observation.value[x]" "Actual result" types.

Definition observationDocuments (types : list string) : FileMap :=
  [("Observation",
    document "Observation" "observation.profile.json"
      (structureDefinition "Observation" "resource" None
         [rootElement "Observation" "Measurements"; valueElement types]));
   typeDocument "Quantity";
   typeDocument "string"].


(** The state in which [processTypeDefinition] reaches the polymorphic
    element of the observation. *)
Definition observationState (types : list string) : State :=
  let t := enterBody "Observation"
             (setFiles (updateFile "Observation" markReferenced)
                       (freshDocuments (observationDocuments types))) in
  setTypeHeap (alter (fun n => mkTypeNode (t_kind n) (t_category n) (t_name n)
                                  (Some "Measurements") None None (t_properties n) None) 0)
    (setFiles (updateFile "Observation" (withType 0))
       (setTypeHeap (fun h => h ++ [createInterfaceType "Observation" CatResource]) t)).


(** The documents of the open type set. *)
Definition openTypeDocuments : FileMap := map typeDocument openTypeNames.






(** A resource with a backbone element, and a resource that has the name of
    the sub-type of that element. *)
Definition fooBar : SpecificationFile :=
  document "FooBar" "foobar.profile.json"
    (structureDefinition "FooBar" "resource" None [rootElement "FooBar" "A foobar"]).

Definition subTypeDocuments : FileMap :=
  [("Foo", document "Foo" "foo.profile.json"
      (structureDefinition "Foo" "resource" None
         [rootElement "Foo" "A foo"; propertyElement "Foo.bar" "A bar" ["BackboneElement"]]));
   ("FooBar", fooBar);
   typeDocument "BackboneElement"].

(** A value set that is only found with the ["vs"] segment. *)
Definition vsDocuments : FileMap :=
  [("http://hl7.org/fhir/ValueSet/vs/intent",
    document "http://hl7.org/fhir/ValueSet/vs/intent" "intent.json"
      (valueSet "http://hl7.org/fhir/ValueSet/vs/intent" "Intent" []))].

End Examples.

(** ** More documents and states of concrete runs *)

Module MoreExamples.

Import Examples.

Definition patientContent : Content :=
  structureDefinition "Patient" "resource" None [rootElement "Patient" "A patient"].

Definition statusContent : Content := valueSet "http://example.org/vs" "Status" [].

(** What a directory gives the reader: a profile, its canonical form, a
    value set twice, a file that does not parse and a structure definition
    that is not in a profile file. *)
Definition listing : list (string * Reader.ReadResult) :=
  [("spec/patient.profile.json", Reader.Parsed (Some patientContent));
   ("spec/patient.profile.canonical.json", Reader.Parsed (Some patientContent));
   ("spec/status.json", Reader.Parsed (Some statusContent));
   ("spec/status-copy.json", Reader.Parsed (Some statusContent));
   ("spec/broken.json", Reader.Failed "Unexpected end of JSON input");
   ("spec/patient.json", Reader.Parsed (Some patientContent))].

(** A document of a resource type that the resolver does not handle. *)
Definition questionnaire : SpecificationFile :=
  document "Questionnaire" "questionnaire.json"
    (mkContent (Some "Questionnaire") (Some "Questionnaire") None None None None None None
               None None None None None).

(** A code system with two concepts of the same name. *)
Definition statusCodes : Content :=
  mkContent (Some "CodeSystem") None None None None None (Some "Status") None
            (Some "http://example.org/status") (Some true)
            (Some [mkConcept "active" (Some "Active") None None;
                   mkConcept "ACTIVE" (Some "Active") None None])
            None None.

Definition codeSystemDocuments : FileMap :=
  [("http://example.org/status",
    document "http://example.org/status" "status.json" statusCodes)].

(** A primitive type that the resolver knows, and one that it does not. *)
Definition primitive (id : string) : SpecificationFile :=
  document id (id +:+ ".profile.json")
    (structureDefinition id "primitive-type" None
       [mkElement id (Some ("Primitive Type " +:+ id)) (Some ("The type " +:+ id))
                  None None None None None]).

(** Two registered types whose base types form a cycle. *)
Definition cycleNode (name base : string) : TypeNode :=
  mkTypeNode KInterfaceType CatResource (Some name) None None (Some base) (Some []) None.

Definition cycleState : State :=
  mkState [] [cycleNode "A" "B"; cycleNode "B" "A"] [] [] {[ "A" := 0; "B" := 1 ]} [0; 1]
          [] None [] [].

(** A map with a value set under the key [hasOwnProperty]. *)
Definition ownKeyDocuments : FileMap :=
  [("hasOwnProperty",
    document "hasOwnProperty" "own.json" (valueSet "hasOwnProperty" "Own" []))].

(** An element with a single type option and no [max]. *)
Definition noteElement : ElementDefinition :=
  mkElement "Observation.note" (Some "Comments") None (Some 0) None None
            (Some [mkElementType (Some "string") None]) None.

(** The member list of an enum type and the members of an include. *)
Definition combineState : State :=
  mkState [] [] [activeMember "http://example.org/A"; activeMember "http://example.org/B";
                 activeMember "http://example.org/A"]
          [[0]; [1; 2]] ∅ [] [] None [] [].

(** An element whose binding has the strength [example]. *)
Definition categoryElement : ElementDefinition :=
  mkElement "Observation.category" (Some "Category") None (Some 0) (Some "1") None
            (Some [mkElementType (Some "string") None])
            (Some (mkBinding (Some "example") (Some "http://example.org/vs"))).

(** A resource type without properties, and the property that a backfill
    gives it. *)
Definition resourceState : State :=
  mkState [] [mkTypeNode KInterfaceType CatResource (Some "Resource") None None None
                         (Some []) None]
          [] [] {[ "Resource" := 0 ]} [0] [] None [] [].

Definition resourceTypeProperty : Property :=
  mkProperty "resourceType" None (TypeReference (Some "string") None) false.

End MoreExamples.

(** * Properties *)

(** ** Strings *)

Lemma append_cons (x : ascii) (a b : string) : String x a +:+ b = String x (a +:+ b).
Proof. reflexivity. Qed.

Lemma append_empty_l (a : string) : "" +:+ a = a.
Proof. reflexivity. Qed.

Lemma append_assoc (a b c : string) : (a +:+ b) +:+ c = a +:+ b +:+ c.
Proof.
  induction a as [|x a IH]; [reflexivity|].
  rewrite !append_cons. f_equal. exact IH.
Qed.

Lemma append_empty_r (a : string) : a +:+ "" = a.
Proof.
  induction a as [|x a IH]; [reflexivity|].
  rewrite append_cons. f_equal. exact IH.
Qed.

Lemma split_nonempty c s : Js.split c s <> [].
Proof.
  destruct s as [|a s]; simpl; [discriminate|].
  destruct (Ascii.eqb a c); [discriminate|].
  destruct (Js.split c s); discriminate.
Qed.

Lemma indexOfFrom_unfold sub s i :
  Js.indexOfFrom sub s i =
    if String.prefix sub s then Some i
    else match s with
         | EmptyString => None
         | String _ s' => Js.indexOfFrom sub s' (S i)
         end.
Proof. destruct s; reflexivity. Qed.

Lemma indexOfFrom_shift sub s i :
  Js.indexOfFrom sub s (S i) = option_map S (Js.indexOfFrom sub s i).
Proof.
  revert i. induction s as [|a s IH]; intros i;
    rewrite (indexOfFrom_unfold sub _ (S i)), (indexOfFrom_unfold sub _ i);
    destruct (String.prefix sub _); try reflexivity.
  apply IH.
Qed.

(** A string without the separator is a single part. *)
Lemma split_without_separator (c : ascii) (s : string) :
  Js.indexOf (String c "") s = None -> Js.split c s = [s].
Proof.
  unfold Js.indexOf. induction s as [|a s IH]; [reflexivity|].
  rewrite indexOfFrom_unfold. simpl.
  destruct (Ascii.ascii_dec c a) as [->|Hne].
  - destruct s; discriminate.
  - assert (Ascii.eqb a c = false) as ->.
    { apply Ascii.eqb_neq. congruence. }
    rewrite indexOfFrom_shift. intros H.
    destruct (Js.indexOfFrom (String c "") s 0); [discriminate|].
    now rewrite IH.
Qed.

Lemma split_append_last (c : ascii) (pre last : string) :
  Js.split c last = [last] ->
  Js.split c (pre +:+ String c last) = Js.split c pre ++ [last].
Proof.
  intros Hlast. induction pre as [|a pre IH].
  - rewrite append_empty_l. simpl.
    rewrite (proj2 (Ascii.eqb_eq c c) eq_refl), Hlast. reflexivity.
  - rewrite append_cons. simpl.
    destruct (Ascii.eqb a c); rewrite IH; [reflexivity|].
    pose proof (split_nonempty c pre) as Hne.
    destruct (Js.split c pre); [contradiction | reflexivity].
Qed.

Lemma spliceBeforeLast_snoc (x y : string) (l : list string) :
  Js.spliceBeforeLast x (l ++ [y]) = l ++ [x; y].
Proof.
  induction l as [|z l IH]; simpl; [reflexivity|].
  rewrite IH. destruct l; reflexivity.
Qed.

Lemma join_cons sep x l :
  l <> [] -> Js.join sep (x :: l) = x +:+ sep +:+ Js.join sep l.
Proof. destruct l; [contradiction | reflexivity]. Qed.

Lemma join_app sep (l1 l2 : list string) :
  l1 <> [] -> l2 <> [] ->
  Js.join sep (l1 ++ l2) = Js.join sep l1 +:+ sep +:+ Js.join sep l2.
Proof.
  intros H1 H2. induction l1 as [|x l1 IH]; [contradiction|].
  destruct l1 as [|y l1].
  - simpl app. now rewrite join_cons.
  - change ((x :: y :: l1) ++ l2) with (x :: ((y :: l1) ++ l2)).
    rewrite join_cons by discriminate. rewrite IH by discriminate.
    rewrite (join_cons sep x (y :: l1)) by discriminate.
    now rewrite !append_assoc.
Qed.

Lemma join_split (c : ascii) (s : string) : Js.join (String c "") (Js.split c s) = s.
Proof.
  induction s as [|a s IH]; simpl; [reflexivity|].
  pose proof (split_nonempty c s) as Hne.
  destruct (Ascii.eqb a c) eqn:E.
  - rewrite join_cons by assumption. rewrite IH.
    apply Ascii.eqb_eq in E. now subst.
  - destruct (Js.split c s) as [|h t]; [contradiction|].
    destruct t as [|h' t].
    + simpl in *. now rewrite IH.
    + rewrite join_cons by discriminate. rewrite join_cons in IH by discriminate.
      rewrite append_cons. f_equal. exact IH.
Qed.

(** ** C9: the value-set lookup *)

Lemma withVsSegment_last (pre last : string) :
  Js.indexOf "/" last = None ->
  withVsSegment (pre +:+ "/" +:+ last) = pre +:+ "/vs/" +:+ last.
Proof.
  intros H. unfold withVsSegment.
  change (pre +:+ "/" +:+ last) with (pre +:+ String "/" last).
  rewrite split_append_last by (now apply split_without_separator).
  rewrite spliceBeforeLast_snoc.
  rewrite join_app by (first [apply split_nonempty | discriminate]).
  change "/" with (String "/"%char "") at 1.
  rewrite join_split. reflexivity.
Qed.

Lemma withVsSegment_single (url : string) :
  Js.indexOf "/" url = None -> withVsSegment url = "vs/" +:+ url.
Proof.
  intros H. unfold withVsSegment.
  rewrite (split_without_separator "/" url H). reflexivity.
Qed.

Lemma includes_separator (c : ascii) (pre post : string) :
  Js.indexOf (String c "") (pre +:+ String c post) <> None.
Proof.
  unfold Js.indexOf. generalize 0.
  induction pre as [|a pre IH]; intros n.
  - rewrite append_empty_l, indexOfFrom_unfold. simpl.
    destruct (Ascii.ascii_dec c c); [|contradiction].
    destruct post; discriminate.
  - rewrite append_cons, indexOfFrom_unfold.
    destruct (String.prefix (String c "") (String a (pre +:+ String c post)));
      [discriminate | apply IH].
Qed.

Lemma withVsSegment_has_slash (url : string) :
  Js.indexOf "/" (withVsSegment url) <> None.
Proof.
  unfold withVsSegment.
  assert (H : exists x y l, Js.spliceBeforeLast "vs" (Js.split "/" url) = x :: y :: l).
  { pose proof (split_nonempty "/" url) as Hne.
    induction (Js.split "/" url) as [|p ps IH]; [contradiction|].
    destruct ps as [|q ps].
    - exists "vs", p, []. reflexivity.
    - destruct IH as (x & y & l & E); [discriminate|].
      exists p, x, (y :: l). cbn [Js.spliceBeforeLast]. cbn [Js.spliceBeforeLast] in E.
      now rewrite E. }
  destruct H as (x & y & l & ->).
  rewrite join_cons by discriminate.
  apply (includes_separator "/" x (Js.join "/" (y :: l))).
Qed.

Lemma inherits_no_slash (s : State) (name : string) :
  inherits s name = true -> Js.indexOf "/" name = None.
Proof.
  unfold inherits, Prototype.isStandard, Prototype.isFunction. cbn [existsb Prototype.functions fst].
  intros H.
  repeat match type of H with
         | (_ || _)%bool = true => apply orb_true_iff in H as [H|H]
         | (_ && _)%bool = true => apply andb_true_iff in H as [_ H]
         | String.eqb _ _ = true => apply String.eqb_eq in H; subst name; reflexivity
         | false = true => discriminate H
         end.
Qed.

Lemma readFiles_withVsSegment (s : State) (url : string) :
  readFiles (withVsSegment url) s
  = option_map (fun _ => Document (withVsSegment url)) (lookupFile (withVsSegment url) (files s)).
Proof.
  unfold readFiles. destruct (lookupFile (withVsSegment url) (files s)); [reflexivity|].
  destruct (inherits s (withVsSegment url)) eqn:E; [|reflexivity].
  now destruct (withVsSegment_has_slash url (inherits_no_slash s _ E)).
Qed.

(** C9. Every value-set or code-system lookup first rewrites the one
    historical URL to its canonical counterpart, returns what the read of the
    map under that URL gives when it gives something (a document, or a value
    that the map inherits under that name), and otherwise returns the outcome
    of one retry under the URL with a ["vs"] segment inserted before its last
    segment: [pre/last] is retried as [pre/vs/last], and a URL without a
    slash as [vs/url]; the retry finds a document or nothing. *)
Theorem getValueSetFile_tolerance (s : State) (url : string) :
  canonicalUrl "http://build.fhir.org/valueset-request-intent.html"
    = "http://hl7.org/fhir/ValueSet/request-intent"
  /\ getValueSetFile url s =
       match readFiles (canonicalUrl url) s with
       | Some file => Some file
       | None =>
           match lookupFile (withVsSegment (canonicalUrl url)) (files s) with
           | Some _ => Some (Document (withVsSegment (canonicalUrl url)))
           | None => None
           end
       end
  /\ (forall pre last,
        canonicalUrl url = pre +:+ "/" +:+ last -> Js.indexOf "/" last = None ->
        withVsSegment (canonicalUrl url) = pre +:+ "/vs/" +:+ last)
  /\ (Js.indexOf "/" (canonicalUrl url) = None ->
      withVsSegment (canonicalUrl url) = "vs/" +:+ canonicalUrl url).
Proof.
  split; [reflexivity|]. split; [|split].
  - unfold getValueSetFile. fold (canonicalUrl url). fold (withVsSegment (canonicalUrl url)).
    rewrite readFiles_withVsSegment.
    destruct (readFiles (canonicalUrl url) s); [reflexivity|].
    now destruct (lookupFile (withVsSegment (canonicalUrl url)) (files s)).
  - intros pre last -> H. now apply withVsSegment_last.
  - apply withVsSegment_single.
Qed.

(** ** The monad *)

Lemma bind_ext {A B} (m : M A) (k k' : A -> M B) (s : State) :
  (forall a s1, k a s1 = k' a s1) -> bind m k s = bind m k' s.
Proof.
  intros H. unfold bind. destruct (m s) as [s1 [a|e|]]; [apply H | reflexivity..].
Qed.

Lemma bind_done {A B} (m : M A) (k : A -> M B) (s s1 : State) (a : A) :
  m s = (s1, Done a) -> bind m k s = k a s1.
Proof. intros H. unfold bind. now rewrite H. Qed.

(** ** C6: the names of the comparison operators *)

Section NameAllocator.

Variable pascalCase : string -> string.

(** C6. A concept whose code is one of the five comparison-operator codes
    gets the mapped word as its generated member name, whatever its display,
    definition or extensions are and without an error being recorded; the
    formatter leaves the word as it is because [pascalCase] does. *)
Theorem mapped_operator_name (system : option string) (concept : Concept) (word : string) :
  In (c_code concept, word) operatorWords ->
  pascalCase word = word ->
  forall s, getEnumMemberName pascalCase system concept s = (s, Done (Some word)).
Proof.
  intros Hin Hpc s. unfold getEnumMemberName, formatName.
  simpl in Hin.
  repeat (destruct Hin as [Hin|Hin];
          [injection Hin as Hc Hw; subst word; rewrite <- Hc; simpl;
           rewrite Hpc; reflexivity|]).
  contradiction.
Qed.

End NameAllocator.

(** ** C7: wildcard type options *)

Section TypeReferences.

Variable processFile : string -> M unit.

Lemma typeReferencesLoop_copy_unused (remaining te te' : list ElementType)
    (result : list PType) (s : State) :
  typeReferencesLoop processFile remaining te result s
  = typeReferencesLoop processFile remaining te' result s.
Proof.
  revert te te' result s.
  induction remaining as [|t rest IH]; intros te te' result s; simpl; [reflexivity|].
  destruct (nonEmpty (et_code t)) as [typeName|]; [|reflexivity].
  destruct (String.eqb typeName "*"); [apply IH|].
  apply bind_ext. intros [typeName'|] s1; [|reflexivity].
  apply bind_ext. intros binding s2. apply IH.
Qed.

Lemma isWildcard_code (t : ElementType) :
  isWildcard t = true -> nonEmpty (et_code t) = Some "*".
Proof.
  unfold isWildcard, Js.isStr. destruct (et_code t) as [c|]; [|discriminate].
  intros H. apply String.eqb_eq in H. subst. reflexivity.
Qed.

Lemma isWildcard_not (t : ElementType) (typeName : string) :
  isWildcard t = false -> nonEmpty (et_code t) = Some typeName ->
  String.eqb typeName "*" = false.
Proof.
  unfold isWildcard, Js.isStr, nonEmpty. destruct (et_code t) as [c|]; [|discriminate].
  destruct (String.eqb c ""); [discriminate|]. intros H [= <-]. exact H.
Qed.

Lemma typeReferencesLoop_skips_wildcards (remaining te te' : list ElementType)
    (result : list PType) (s : State) :
  typeReferencesLoop processFile remaining te result s
  = typeReferencesLoop processFile
      (List.filter (fun t => negb (isWildcard t)) remaining) te' result s.
Proof.
  revert te te' result s.
  induction remaining as [|t rest IH]; intros te te' result s; [reflexivity|].
  cbn [List.filter]. destruct (isWildcard t) eqn:W; cbn [negb].
  - cbn [typeReferencesLoop]. rewrite (isWildcard_code t W). simpl. apply IH.
  - cbn [typeReferencesLoop].
    destruct (nonEmpty (et_code t)) as [typeName|] eqn:E; [|reflexivity].
    rewrite (isWildcard_not t typeName W E).
    apply bind_ext. intros [typeName'|] s1; [|reflexivity].
    apply bind_ext. intros binding s2. apply IH.
Qed.

(** C7 (what the code does). A wildcard option is dropped: the list of
    options with a wildcard in it resolves exactly as the list without it,
    to the same references, errors and state. The open-type list, which the
    loop concatenates to its variable [typeElements], is never resolved,
    because the iterator of the loop stays on the array it was created on. *)
Theorem wildcard_is_dropped (pre post : list ElementType) (wildcard : ElementType)
    (s : State) :
  isWildcard wildcard = true ->
  getTypeReferences processFile (Some (pre ++ wildcard :: post)) s
  = getTypeReferences processFile (Some (pre ++ post)) s.
Proof.
  intros W. unfold getTypeReferences.
  rewrite (typeReferencesLoop_skips_wildcards (pre ++ wildcard :: post) _ []).
  rewrite (typeReferencesLoop_skips_wildcards (pre ++ post) _ []).
  rewrite !List.filter_app. cbn [List.filter]. rewrite W. reflexivity.
Qed.

End TypeReferences.

(** ** The state discipline of the resolver *)

Lemma lookupFile_updateFile (key k : string) g (fs : FileMap) :
  lookupFile k (updateFile key g fs)
  = if String.eqb key k then option_map g (lookupFile k fs) else lookupFile k fs.
Proof.
  induction fs as [|[k0 f0] fs IH]; simpl.
  - now destruct (String.eqb key k).
  - destruct (String.eqb k0 key) eqn:E0; simpl.
    + apply String.eqb_eq in E0. subst k0.
      destruct (String.eqb key k); reflexivity.
    + destruct (String.eqb k0 k) eqn:E1.
      * apply String.eqb_eq in E1. subst k0.
        rewrite String.eqb_sym, E0. reflexivity.
      * exact IH.
Qed.

Lemma keys_updateFile (key : string) g (fs : FileMap) :
  map fst (updateFile key g fs) = map fst fs.
Proof.
  induction fs as [|[k0 f0] fs IH]; simpl; [reflexivity|].
  destruct (String.eqb k0 key); simpl; [reflexivity | now rewrite IH].
Qed.

Lemma lookupFile_keys (k : string) (fs : FileMap) :
  is_Some (lookupFile k fs) <-> k ∈ map fst fs.
Proof.
  induction fs as [|[k0 f0] fs IH]; simpl.
  - split; [intros [? [=]] | intros H; inversion H].
  - destruct (String.eqb k0 k) eqn:E.
    + apply String.eqb_eq in E. subst. split; [intros _; left | eauto].
    + apply String.eqb_neq in E. rewrite IH. split.
      * intros H. now right.
      * intros H. inversion H; subst; [contradiction | assumption].
Qed.

Lemma fileExtends_refl f : fileExtends f f.
Proof. unfold fileExtends. tauto. Qed.

Lemma fileExtends_trans f1 f2 f3 :
  fileExtends f1 f2 -> fileExtends f2 f3 -> fileExtends f1 f3.
Proof. unfold fileExtends. intros (?&?&?&?&?&?) (?&?&?&?&?&?). repeat split; try congruence; auto. Qed.

Lemma Extends_refl s : Extends s s.
Proof.
  constructor; eauto using fileExtends_refl; try (exists []; now rewrite app_nil_r).
Qed.

Lemma Extends_trans s1 s2 s3 : Extends s1 s2 -> Extends s2 s3 -> Extends s1 s3.
Proof.
  intros [K1 F1 I1 N1 [t1 T1] [e1 E1] [g1 G1] L1] [K2 F2 I2 N2 [t2 T2] [e2 E2] [g2 G2] L2].
  constructor.
  - congruence.
  - intros k f H. destruct (F1 k f H) as (f' & H' & X1).
    destruct (F2 k f' H') as (f'' & H'' & X2).
    eauto using fileExtends_trans.
  - auto.
  - intros i node H. destruct (N1 i node H) as (n' & H' & X1).
    destruct (N2 i n' H') as (n'' & H'' & X2). exists n''. split; congruence.
  - exists (t1 ++ t2). rewrite T2, T1. now rewrite app_assoc.
  - exists (e1 ++ e2). rewrite E2, E1. now rewrite app_assoc.
  - exists (g1 ++ g2). rewrite G2, G1. now rewrite app_assoc.
  - auto.
Qed.

(** A step that leaves the documents and the log alone. *)
Lemma Extends_same_documents s s' :
  files s' = files s -> bodyLog s' = bodyLog s ->
  (forall n t, typesByName s !! n = Some t -> typesByName s' !! n = Some t) ->
  (forall i node, typeHeap s !! i = Some node ->
     exists node', typeHeap s' !! i = Some node' /\ t_name node' = t_name node) ->
  (exists l, resultTypes s' = resultTypes s ++ l) ->
  (exists l, resultErrors s' = resultErrors s ++ l) ->
  Extends s s'.
Proof.
  intros Hf Hl Hi Hn Ht He. constructor; auto.
  - now rewrite Hf.
  - intros k f H. rewrite Hf. eauto using fileExtends_refl.
  - exists []. now rewrite app_nil_r.
  - unfold logInvariant. now rewrite Hf, Hl.
Qed.

Lemma Extends_updateFile s key g :
  (forall f, fileExtends f (g f)) -> Extends s (setFiles (updateFile key g) s).
Proof.
  intros Hg. constructor; simpl; eauto; try (exists []; now rewrite app_nil_r).
  - apply keys_updateFile.
  - intros k f H. rewrite lookupFile_updateFile.
    destruct (String.eqb key k); rewrite H; simpl; eauto using fileExtends_refl.
  - unfold logInvariant. simpl. intros [Hnd Hq]. split; [assumption|].
    intros k Hk. destruct (Hq k Hk) as (f & Hf & Hqf).
    rewrite lookupFile_updateFile.
    destruct (String.eqb key k); rewrite Hf; simpl; eauto.
    exists (g f). split; [reflexivity|]. now apply (Hg f).
Qed.

Lemma Respects_ret {A} (a : A) : Respects (ret a).
Proof. intros s. split; [apply Extends_refl | reflexivity]. Qed.

Lemma Respects_raise {A} e : Respects (@raise A e).
Proof. intros s. split; [apply Extends_refl | reflexivity]. Qed.

Lemma Respects_outOfFuel {A} : Respects (@outOfFuel A).
Proof. intros s. split; [apply Extends_refl | reflexivity]. Qed.

Lemma Respects_gets {A} (g : State -> A) : Respects (gets g).
Proof. intros s. split; [apply Extends_refl | reflexivity]. Qed.

Lemma Respects_bind {A B} (m : M A) (k : A -> M B) :
  Respects m -> (forall a, Respects (k a)) -> Respects (bind m k).
Proof.
  intros Hm Hk s. unfold bind. destruct (Hm s) as [E1 C1].
  destruct (m s) as [s1 [a|e|]]; simpl in *; [|split; [assumption|discriminate]..].
  destruct (Hk a s1) as [E2 C2]. split.
  - eapply Extends_trans; eassumption.
  - intros b Hb. rewrite (C2 b Hb). now apply (C1 a).
Qed.

Lemma Respects_forEach {A} (l : list A) (body : A -> M unit) :
  (forall x, Respects (body x)) -> Respects (forEach l body).
Proof.
  intros Hb. induction l as [|x l IH]; simpl;
    [apply Respects_ret | apply Respects_bind; auto].
Qed.

(** A step that reads the state, fails or not, and changes nothing. *)
Lemma Respects_reader {A} (m : M A) :
  (forall s, fst (m s) = s) -> Respects m.
Proof. intros H s. rewrite H. split; [apply Extends_refl | reflexivity]. Qed.

Lemma Respects_getFile key : Respects (getFile key).
Proof. apply Respects_reader. intros s. unfold getFile. now destruct (lookupFile key (files s)). Qed.

Lemma Respects_getType tid : Respects (getType tid).
Proof. apply Respects_reader. intros s. unfold getType. now destruct (typeHeap s !! tid). Qed.

Lemma Respects_getMember mid : Respects (getMember mid).
Proof. apply Respects_reader. intros s. unfold getMember. now destruct (memberHeap s !! mid). Qed.

Lemma Respects_getArray aid : Respects (getArray aid).
Proof. apply Respects_reader. intros s. unfold getArray. now destruct (arrayHeap s !! aid). Qed.

Lemma Respects_modifyFile key g :
  (forall f, fileExtends f (g f)) -> Respects (modifyFile key g).
Proof. intros Hg s. split; [now apply Extends_updateFile | reflexivity]. Qed.

Lemma Respects_same_documents (g : State -> State) :
  (forall s, files (g s) = files s /\ bodyLog (g s) = bodyLog s
             /\ typesByName (g s) = typesByName s
             /\ resultTypes (g s) = resultTypes s
             /\ resultErrors (g s) = resultErrors s
             /\ currentFile (g s) = currentFile s
             /\ forall i node, typeHeap s !! i = Some node ->
                  exists node', typeHeap (g s) !! i = Some node'
                                /\ t_name node' = t_name node) ->
  Respects (modify g).
Proof.
  intros H s. destruct (H s) as (Hf & Hl & Hi & Ht & He & Hc & Hn).
  split; [|intros; exact Hc].
  apply Extends_same_documents; simpl; auto.
  - intros n t. now rewrite Hi.
  - exists []. now rewrite Ht, app_nil_r.
  - exists []. now rewrite He, app_nil_r.
Qed.

Lemma Respects_modifyType tid g :
  (forall t, t_name (g t) = t_name t) -> Respects (modifyType tid g).
Proof.
  intros Hg. apply Respects_same_documents. intros s. simpl. repeat split; try reflexivity.
  intros i node H. destruct (decide (tid = i)) as [->|Hne].
  - exists (g node). rewrite list_lookup_alter_eq, H. split; [reflexivity | apply Hg].
  - exists node. rewrite list_lookup_alter_ne by assumption. split; [assumption | reflexivity].
Qed.

Lemma Respects_allocType t : Respects (allocType t).
Proof.
  intros s. unfold allocType. simpl. split; [|reflexivity].
  apply Extends_same_documents; simpl; eauto; try (exists []; now rewrite app_nil_r).
  intros i node H. exists node. split; [|reflexivity]. now apply lookup_app_l_Some.
Qed.

Lemma Respects_heap_only (g : State -> State) :
  (forall s, g s = setMemberHeap (fun _ => memberHeap (g s))
                     (setArrayHeap (fun _ => arrayHeap (g s)) s)) ->
  Respects (modify g).
Proof.
  intros H. apply Respects_same_documents. intros s. rewrite H. simpl.
  repeat split; eauto.
Qed.

Lemma Respects_allocMember m : Respects (allocMember m).
Proof.
  intros s. unfold allocMember. simpl. split; [|reflexivity].
  apply Extends_same_documents; simpl; eauto; exists []; now rewrite app_nil_r.
Qed.

Lemma Respects_allocArray a : Respects (allocArray a).
Proof.
  intros s. unfold allocArray. simpl. split; [|reflexivity].
  apply Extends_same_documents; simpl; eauto; exists []; now rewrite app_nil_r.
Qed.

Lemma Respects_setMemberName mid n : Respects (setMemberName mid n).
Proof. apply Respects_heap_only. reflexivity. Qed.

Lemma Respects_pushArray aid mid : Respects (pushArray aid mid).
Proof. apply Respects_heap_only. reflexivity. Qed.

Lemma Respects_typeError {A} : Respects (@typeError A).
Proof. apply Respects_raise. Qed.

Lemma Respects_referenceError {A} : Respects (@referenceError A).
Proof. apply Respects_raise. Qed.

Lemma Respects_addError msg : Respects (addError msg).
Proof.
  intros s. unfold addError. simpl. split; [|reflexivity].
  apply Extends_same_documents; simpl; eauto. exists []. now rewrite app_nil_r.
Qed.

Lemma readIndex_None name s : readIndex name s = None -> typesByName s !! name = None.
Proof. unfold readIndex. now destruct (typesByName s !! name). Qed.

Lemma Respects_register name tid :
  Respects (let* registered := gets (readIndex name) in
            match registered with
            | Some _ => addError ("Duplicate type name '" +:+ name +:+ "'.")
            | None => modify (setTypesByName (insert name tid))
            end).
Proof.
  intros s. unfold bind, gets.
  destruct (readIndex name s) as [t0|] eqn:E; [apply Respects_addError|].
  apply readIndex_None in E.
  simpl. split; [|reflexivity].
  apply Extends_same_documents; simpl; eauto; try (exists []; now rewrite app_nil_r).
  intros n t H. destruct (decide (name = n)) as [->|Hne]; [congruence|].
  now rewrite lookup_insert_ne.
Qed.

Lemma Respects_setFlagged g : Respects (modify (setFlagged g)).
Proof.
  intros s. simpl. split; [|reflexivity].
  apply Extends_same_documents; simpl; eauto; exists []; now rewrite app_nil_r.
Qed.

Lemma Respects_pushResultType tid :
  Respects (modify (setResultTypes (fun ts => ts ++ [tid]))).
Proof.
  intros s. simpl. split; [|reflexivity].
  apply Extends_same_documents; simpl; eauto. exists []. now rewrite app_nil_r.
Qed.

Create HintDb respects.

#[local] Hint Resolve Respects_ret Respects_raise Respects_outOfFuel Respects_gets
  Respects_getFile Respects_getType Respects_getMember Respects_getArray
  Respects_allocType Respects_allocMember Respects_allocArray
  Respects_setMemberName Respects_pushArray Respects_typeError Respects_referenceError
  Respects_addError Respects_register Respects_pushResultType Respects_setFlagged
  : respects.

Ltac respects_step :=
  first
    [ solve [auto with respects]
    | lazymatch goal with
      | |- Respects (bind _ _) => apply Respects_bind; [|intros ?]
      | |- Respects (forEach _ _) => apply Respects_forEach; intros ?
      | |- Respects (match ?x with _ => _ end) => destruct x
      | |- Respects (let _ := _ in _) => cbv zeta
      end ].

Ltac respects := repeat respects_step.

Lemma Respects_addTypeToResults tid : Respects (addTypeToResults tid).
Proof. unfold addTypeToResults. respects. Qed.

#[local] Hint Resolve Respects_addTypeToResults : respects.

Lemma fileExtends_markQueued f : fileExtends f (markQueued f).
Proof. unfold fileExtends. simpl. tauto. Qed.

Lemma fileExtends_markProcessed f : fileExtends f (markProcessed f).
Proof. unfold fileExtends. simpl. tauto. Qed.

Lemma fileExtends_markReferenced f : fileExtends f (markReferenced f).
Proof. unfold fileExtends. simpl. tauto. Qed.

Lemma fileExtends_withType tid f : fileExtends f (withType tid f).
Proof. unfold fileExtends. simpl. tauto. Qed.

Lemma fileExtends_withSymbol symbol f : fileExtends f (withSymbol symbol f).
Proof. unfold fileExtends. simpl. tauto. Qed.

Lemma Respects_setFileType key tid : Respects (setFileType key tid).
Proof. apply Respects_modifyFile, fileExtends_withType. Qed.

Lemma Respects_setSymbol key symbol : Respects (setSymbol key symbol).
Proof. apply Respects_modifyFile, fileExtends_withSymbol. Qed.

Lemma Respects_markReferenced key : Respects (modifyFile key markReferenced).
Proof. apply Respects_modifyFile, fileExtends_markReferenced. Qed.

Lemma Respects_setDescription tid d : Respects (setDescription tid d).
Proof. apply Respects_modifyType. reflexivity. Qed.

Lemma Respects_setBaseType tid b : Respects (setBaseType tid b).
Proof. apply Respects_modifyType. reflexivity. Qed.

Lemma Respects_setProperties tid g : Respects (setProperties tid g).
Proof. apply Respects_modifyType. reflexivity. Qed.

#[local] Hint Resolve Respects_setFileType Respects_setSymbol Respects_markReferenced
  Respects_setDescription
  Respects_setBaseType Respects_setProperties : respects.

Lemma Respects_referenceInherited name : Respects (referenceInherited name).
Proof. unfold referenceInherited. respects. Qed.

#[local] Hint Resolve Respects_referenceInherited : respects.

Section Discipline.

Variable pascalCase : string -> string.

Lemma Respects_getMembers mids : Respects (getMembers mids).
Proof. induction mids; simpl; respects. Qed.

Lemma Respects_findDuplicate name mids : Respects (findDuplicate name mids).
Proof. induction mids; simpl; respects. Qed.

#[local] Hint Resolve Respects_getMembers Respects_findDuplicate : respects.

Lemma Respects_getDuplicate m a : Respects (getDuplicate m a).
Proof. unfold getDuplicate. respects. Qed.

#[local] Hint Resolve Respects_getDuplicate : respects.

Lemma Respects_suffixLoop budget o num m a : Respects (suffixLoop budget o num m a).
Proof. revert num. induction budget; intros num; simpl; respects. Qed.

#[local] Hint Resolve Respects_suffixLoop : respects.

Lemma Respects_suffixFallback o m a : Respects (suffixFallback o m a).
Proof. unfold suffixFallback. respects. Qed.

#[local] Hint Resolve Respects_suffixFallback : respects.

Lemma Respects_adjustMemberName m a : Respects (adjustMemberName pascalCase m a).
Proof. unfold adjustMemberName. respects. Qed.

Lemma Respects_getEnumMemberName system concept :
  Respects (getEnumMemberName pascalCase system concept).
Proof. unfold getEnumMemberName. respects. Qed.

#[local] Hint Resolve Respects_adjustMemberName Respects_getEnumMemberName : respects.

Lemma Respects_processConcepts concepts caseSensitive system :
  Respects (processConcepts pascalCase concepts caseSensitive system).
Proof. unfold processConcepts. respects. Qed.

#[local] Hint Resolve Respects_processConcepts : respects.

Lemma Respects_processCodeSystem key : Respects (processCodeSystem pascalCase key).
Proof. unfold processCodeSystem. respects. Qed.

Lemma Respects_membersOf tid : Respects (membersOf tid).
Proof. unfold membersOf. respects. Qed.

Lemma Respects_getResourceNameFromProfile p : Respects (getResourceNameFromProfile p).
Proof. unfold getResourceNameFromProfile. respects. Qed.

Lemma Respects_processPrimitive key : Respects (processPrimitive key).
Proof. unfold processPrimitive. respects. Qed.

Lemma Respects_stripArrays t : Respects (stripArrays t).
Proof.
  revert t. fix IH 1. intros [n b|[e|]|ts]; simpl; [respects| |respects..].
  apply IH.
Qed.

Lemma Respects_addProperty c e n t o : Respects (addProperty c e n t o).
Proof. unfold addProperty. respects. Qed.

Lemma Respects_backfill t n p prop : Respects (backfill t n p prop).
Proof. unfold backfill. respects. Qed.

#[local] Hint Resolve Respects_processCodeSystem Respects_membersOf
  Respects_getResourceNameFromProfile Respects_processPrimitive Respects_stripArrays
  Respects_addProperty Respects_backfill : respects.

Lemma Respects_polymorphicLoop c e pn refs lp ln :
  Respects (polymorphicLoop pascalCase c e pn refs lp ln).
Proof. revert lp ln. induction refs; intros lp ln; simpl; respects. Qed.

#[local] Hint Resolve Respects_polymorphicLoop : respects.

Section OpenDiscipline.

Variable processFile : string -> M unit.
Variable fuel : nat.
Hypothesis processFile_respects : forall key, Respects (processFile key).

Lemma Respects_referenceFile key : Respects (referenceFile processFile key).
Proof. unfold referenceFile. respects. Qed.

#[local] Hint Resolve Respects_referenceFile : respects.

Lemma Respects_referenceValue file : Respects (referenceValue processFile file).
Proof. unfold referenceValue. respects. Qed.

#[local] Hint Resolve Respects_referenceValue : respects.

Lemma Respects_substituteCodes url members :
  Respects (substituteCodesFromOriginalSystem processFile url members).
Proof. unfold substituteCodesFromOriginalSystem. respects. Qed.

Lemma Respects_processFilter url filter members :
  Respects (processFilter processFile url filter members).
Proof. unfold processFilter. respects. Qed.

Lemma Respects_processImport url : Respects (processImport processFile url).
Proof. unfold processImport. respects. Qed.

Lemma Respects_combineMembers tm members : Respects (combineMembers pascalCase tm members).
Proof. unfold combineMembers. respects. Qed.

#[local] Hint Resolve Respects_substituteCodes Respects_processFilter
  Respects_processImport Respects_combineMembers : respects.

Lemma Respects_processInclude tm include :
  Respects (processInclude pascalCase processFile tm include).
Proof. unfold processInclude, processValueSetComposeInclude. respects. Qed.

#[local] Hint Resolve Respects_processInclude : respects.

Lemma Respects_processValueSet key : Respects (processValueSet pascalCase processFile key).
Proof. unfold processValueSet. respects. Qed.

Lemma Respects_getTypeByName name : Respects (getTypeByName processFile name).
Proof. unfold getTypeByName. respects. Qed.

#[local] Hint Resolve Respects_processValueSet Respects_getTypeByName : respects.

Lemma Respects_hasBaseInterfaceLoop budget baseType name :
  Respects (hasBaseInterfaceLoop processFile budget baseType name).
Proof.
  revert baseType. induction budget; intros [[tid|inherited]|]; simpl; respects.
Qed.

#[local] Hint Resolve Respects_hasBaseInterfaceLoop : respects.

Lemma Respects_getReferencedType t category :
  Respects (getReferencedType processFile t category).
Proof. unfold getReferencedType. respects. Qed.

#[local] Hint Resolve Respects_getReferencedType : respects.

Lemma Respects_getContainingTypeForPath parent path :
  Respects (getContainingTypeForPath processFile parent path).
Proof.
  revert parent. induction path as [|p path IH]; intros parent.
  - simpl. respects.
  - destruct path as [|q path]; [simpl; respects|].
    change (Respects (
      let propertyName := head (p :: q :: path) in
      let* parentNode := getType parent in
      match t_properties parentNode with
      | None => typeError
      | Some props =>
          match getProperty props propertyName with
          | None =>
              addError ("Could not find property '" +:+ Js.showUndefined propertyName
                        +:+ "' on type '" +:+ Js.showUndefined (t_name parentNode) +:+ "'.") >>
              ret None
          | Some property =>
              let* currentType := getReferencedType processFile (Some (p_type property)) None in
              match currentType with
              | None => ret None
              | Some (Named tid) =>
                  let* node := getType tid in
                  if isObjectKind (t_kind node) then
                    getContainingTypeForPath processFile tid (q :: path)
                  else
                    addError ("Expected property '" +:+ Js.showUndefined propertyName
                              +:+ "' to reference an object type.") >>
                    ret None
              | Some (Inline _) | Some (ForeignType _) =>
                  addError ("Expected property '" +:+ Js.showUndefined propertyName
                            +:+ "' to reference an object type.") >>
                  ret None
              end
          end
      end)).
    respects.
Qed.

#[local] Hint Resolve Respects_getContainingTypeForPath : respects.

Lemma Respects_getContainingTypeForElement type element :
  Respects (getContainingTypeForElement processFile fuel type element).
Proof. unfold getContainingTypeForElement, hasBaseInterface. respects. Qed.

Lemma Respects_findTypeOfFirstProperty budget :
  (forall type name checked,
     Respects (findTypeOfFirstProperty processFile budget type name checked))
  /\ (forall type name i checked,
        Respects (findInProperties processFile budget type name i checked)).
Proof.
  induction budget as [|budget [IH1 IH2]]; split; intros; simpl; respects.
Qed.

Lemma Respects_getFileForType name : Respects (getFileForType processFile name).
Proof. unfold getFileForType. respects. Qed.

Lemma Respects_profileBinding profile : Respects (profileBinding processFile profile).
Proof. unfold profileBinding. respects. Qed.

#[local] Hint Resolve Respects_getContainingTypeForElement Respects_getFileForType
  Respects_profileBinding : respects.

Lemma Respects_typeReferencesLoop remaining te result :
  Respects (typeReferencesLoop processFile remaining te result).
Proof.
  revert te result. induction remaining; intros te result; simpl; respects.
Qed.

#[local] Hint Resolve Respects_typeReferencesLoop : respects.

Lemma Respects_getTypeReferences types : Respects (getTypeReferences processFile types).
Proof. unfold getTypeReferences. respects. Qed.

Lemma Respects_getBindingReference element :
  Respects (getBindingReference pascalCase processFile element).
Proof. unfold getBindingReference. respects. Qed.

Lemma Respects_createSubType element base : Respects (createSubType pascalCase element base).
Proof. unfold createSubType. respects. Qed.

#[local] Hint Resolve Respects_getTypeReferences Respects_getBindingReference
  Respects_createSubType : respects.

Lemma Respects_getPropertyTypeForElement root element :
  Respects (getPropertyTypeForElement pascalCase processFile fuel root element).
Proof.
  unfold getPropertyTypeForElement.
  pose proof (proj1 (Respects_findTypeOfFirstProperty fuel)).
  respects.
Qed.

#[local] Hint Resolve Respects_getPropertyTypeForElement : respects.

Lemma Respects_elementLoop type elements :
  Respects (elementLoop pascalCase processFile fuel type elements).
Proof. induction elements; simpl; respects. Qed.

#[local] Hint Resolve Respects_elementLoop : respects.

Lemma Respects_processTypeDefinition key :
  Respects (processTypeDefinition pascalCase processFile fuel key).
Proof. unfold processTypeDefinition. respects. Qed.

#[local] Hint Resolve Respects_processTypeDefinition : respects.

Lemma Respects_processStructureDefinition key :
  Respects (processStructureDefinition pascalCase processFile fuel key).
Proof. unfold processStructureDefinition, processResource, processType. respects. Qed.

Lemma Respects_processByResourceType content key :
  Respects (processByResourceType pascalCase processFile fuel content key).
Proof.
  unfold processByResourceType.
  pose proof Respects_processStructureDefinition. respects.
Qed.

(** [processFile] on a document that is queued, processed or without
    content. *)
Lemma processFileBody_guard key s file :
  lookupFile key (files s) = Some file ->
  f_queued file = true \/ f_processed file = true \/ f_content file = None ->
  processFileBody pascalCase processFile fuel key s = (s, Done tt).
Proof.
  intros Hfile H. unfold processFileBody, bind, getFile. rewrite Hfile.
  destruct (f_content file); [|reflexivity].
  destruct (f_processed file); [reflexivity|].
  destruct (f_queued file); [reflexivity|].
  destruct H as [H|[H|H]]; discriminate.
Qed.

(** [processFile] on an unvisited document with content. *)
Lemma processFileBody_enter key s file content :
  lookupFile key (files s) = Some file ->
  f_content file = Some content ->
  f_processed file = false -> f_queued file = false ->
  processFileBody pascalCase processFile fuel key s
  = match processByResourceType pascalCase processFile fuel content key (enterBody key s) with
    | (s3, Done _) => (leaveBody key (currentFile s) s3, Done tt)
    | (s3, Raise e) => (s3, Raise e)
    | (s3, OutOfFuel) => (s3, OutOfFuel)
    end.
Proof.
  intros Hfile Hc Hp Hq.
  unfold processFileBody, bind, getFile, modifyFile, modify, gets.
  rewrite Hfile, Hc, Hp, Hq. cbn [orb]. unfold enterBody, leaveBody.
  destruct (processByResourceType _ _ _ _ _ _) as [s3 [[]|e|]]; reflexivity.
Qed.

(** Entering the body: the document was not queued, so it is not in the
    log yet. *)
Lemma Extends_enterBody s key file :
  lookupFile key (files s) = Some file -> f_queued file = false ->
  Extends s (enterBody key s).
Proof.
  intros Hfile Hq.
  pose proof (Extends_updateFile s key _ fileExtends_markQueued) as [K F I N T E G L].
  unfold enterBody. constructor; simpl in *; auto.
  - exists [key]. reflexivity.
  - unfold logInvariant. simpl. intros [Hnd Hlog]. split.
    + apply NoDup_app. split; [assumption|]. split; [|apply NoDup_singleton].
      intros k Hk Hk'. apply list_elem_of_singleton in Hk'. subst k.
      destruct (Hlog key Hk) as (f & Hf & Hqf). congruence.
    + intros k Hk. rewrite lookupFile_updateFile.
      apply elem_of_app in Hk as [Hk|Hk].
      * destruct (Hlog k Hk) as (f & Hf & Hqf).
        destruct (String.eqb key k); rewrite Hf; simpl; eauto.
      * apply list_elem_of_singleton in Hk. subst k.
        rewrite String.eqb_refl, Hfile. simpl. eauto.
Qed.

Lemma Extends_setCurrentFile s c : Extends s (setCurrentFile c s).
Proof.
  apply Extends_same_documents; simpl; eauto; exists []; now rewrite app_nil_r.
Qed.

Lemma Extends_leaveBody s key oldFile : Extends s (leaveBody key oldFile s).
Proof.
  unfold leaveBody. eapply Extends_trans; [|apply Extends_setCurrentFile].
  apply Extends_updateFile, fileExtends_markProcessed.
Qed.

Lemma Respects_processFileBody key :
  Respects (processFileBody pascalCase processFile fuel key).
Proof.
  intros s.
  destruct (lookupFile key (files s)) as [file|] eqn:Hfile.
  2:{ unfold processFileBody, bind, getFile. rewrite Hfile.
      split; [apply Extends_refl | reflexivity]. }
  destruct (f_content file) as [content|] eqn:Hc.
  2:{ rewrite (processFileBody_guard key s file) by auto.
      split; [apply Extends_refl | reflexivity]. }
  destruct (f_processed file) eqn:Hp.
  { rewrite (processFileBody_guard key s file) by auto.
    split; [apply Extends_refl | reflexivity]. }
  destruct (f_queued file) eqn:Hq.
  { rewrite (processFileBody_guard key s file) by auto.
    split; [apply Extends_refl | reflexivity]. }
  rewrite (processFileBody_enter key s file content) by assumption.
  pose proof (Extends_enterBody s key file Hfile Hq) as E1.
  destruct (Respects_processByResourceType content key (enterBody key s)) as [E3 _].
  destruct (processByResourceType _ _ _ _ _ _) as [s3 [[]|e|]]; simpl in *.
  - split; [|reflexivity].
    eauto using Extends_trans, Extends_leaveBody.
  - split; [|discriminate]. eauto using Extends_trans.
  - split; [|discriminate]. eauto using Extends_trans.
Qed.

End OpenDiscipline.

Lemma Respects_processFile fuel key : Respects (processFile pascalCase fuel key).
Proof.
  revert key. induction fuel as [|fuel IH]; intros key; simpl.
  - apply Respects_outOfFuel.
  - now apply Respects_processFileBody.
Qed.

#[local] Hint Resolve Respects_processFile : respects.

Lemma Respects_isConstrainedType file : Respects (isConstrainedType file).
Proof. unfold isConstrainedType. respects. Qed.

#[local] Hint Resolve Respects_isConstrainedType : respects.

Lemma Respects_seedLoop fuel keys : Respects (seedLoop pascalCase fuel keys).
Proof.
  unfold seedLoop. pose proof (Respects_referenceFile (processFile pascalCase fuel)).
  respects.
Qed.

End Discipline.

(** ** The driver *)

Section Driver.

Variable pascalCase : string -> string.

Lemma visit_forward f f' :
  fileExtends f f' -> visitRank (visitState f) <= visitRank (visitState f').
Proof.
  unfold fileExtends, visitState. intros (_ & _ & _ & Hq & Hp & _).
  destruct (f_processed f).
  - rewrite Hp by reflexivity. simpl. lia.
  - destruct (f_queued f).
    + rewrite Hq by reflexivity. destruct (f_processed f'); simpl; lia.
    + simpl. lia.
Qed.

Lemma Extends_visit s s' k f :
  Extends s s' -> lookupFile k (files s) = Some f ->
  exists f', lookupFile k (files s') = Some f'
             /\ visitRank (visitState f) <= visitRank (visitState f').
Proof.
  intros E H. destruct (ext_files _ _ E k f H) as (f' & H' & X).
  eauto using visit_forward.
Qed.

Lemma logInvariant_enterProcessFiles s : logInvariant (enterProcessFiles s).
Proof. split; simpl; [apply NoDup_nil_2 | intros k H; inversion H]. Qed.

Lemma processFilesOn_extends fuel s :
  Extends (enterProcessFiles s) (fst (processFilesOn pascalCase fuel s)).
Proof. apply (Respects_seedLoop pascalCase fuel _ (enterProcessFiles s)). Qed.

Lemma processFile_unvisited_done fuel key s s' file :
  lookupFile key (files s) = Some file ->
  visitState file = Unvisited -> f_content file <> None ->
  processFile pascalCase (S fuel) key s = (s', Done tt) ->
  exists f', lookupFile key (files s') = Some f' /\ visitState f' = Processed.
Proof.
  intros Hfile Hv Hc Hrun.
  destruct (f_content file) as [content|] eqn:Hcontent; [|contradiction].
  unfold visitState in Hv.
  destruct (f_processed file) eqn:Hp; [discriminate|].
  destruct (f_queued file) eqn:Hq; [discriminate|].
  simpl in Hrun.
  rewrite (processFileBody_enter pascalCase _ fuel key s file content) in Hrun by assumption.
  pose proof (Respects_processByResourceType pascalCase (processFile pascalCase fuel) fuel
                (Respects_processFile pascalCase fuel) content key (enterBody key s)) as [E _].
  destruct (processByResourceType _ _ _ _ _ _) as [s3 [[]|e|]]; try discriminate.
  injection Hrun as <-. simpl in E.
  assert (exists f1, lookupFile key (files (enterBody key s)) = Some f1) as [f1 H1].
  { simpl. rewrite lookupFile_updateFile, String.eqb_refl, Hfile. simpl. eauto. }
  destruct (ext_files _ _ E key f1 H1) as (f3 & H3 & _).
  exists (markProcessed f3). split.
  - simpl. rewrite lookupFile_updateFile, String.eqb_refl, H3. reflexivity.
  - reflexivity.
Qed.

(** C2. The visit state of every document only moves forward under any call
    of [processFile] and under a whole run of [processFiles]; the switch of
    [processFile] runs on a document in state [Queued], and a call that
    completes on an unvisited document with content leaves it [Processed];
    the body of [processFile] is entered at most once per document, also
    when documents refer to each other in a cycle; and a call on a document
    that is queued, processed or without content returns at once and leaves
    the state as it is. *)
Theorem visit_discipline (fuel : nat) (s : State) (key : string)
    (file : SpecificationFile) :
  lookupFile key (files s) = Some file ->
  (forall k f, lookupFile k (files s) = Some f ->
     exists f', lookupFile k (files (fst (processFile pascalCase fuel key s))) = Some f'
                /\ visitRank (visitState f) <= visitRank (visitState f'))
  /\ (forall k f, lookupFile k (files s) = Some f ->
        exists f', lookupFile k (files (fst (processFilesOn pascalCase fuel s))) = Some f'
                   /\ visitRank (visitState f) <= visitRank (visitState f'))
  /\ (visitState file = Unvisited ->
      lookupFile key (files (enterBody key s)) = Some (markQueued file)
      /\ visitState (markQueued file) = Queued)
  /\ (visitState file = Unvisited -> f_content file <> None ->
      forall s', processFile pascalCase (S fuel) key s = (s', Done tt) ->
      exists f', lookupFile key (files s') = Some f' /\ visitState f' = Processed)
  /\ NoDup (bodyLog (fst (processFilesOn pascalCase fuel s)))
  /\ (logInvariant s -> NoDup (bodyLog (fst (processFile pascalCase fuel key s))))
  /\ (f_queued file = true \/ f_processed file = true \/ f_content file = None ->
      processFile pascalCase (S fuel) key s = (s, Done tt)).
Proof.
  intros Hfile.
  pose proof (proj1 (Respects_processFile pascalCase fuel key s)) as E.
  pose proof (processFilesOn_extends fuel s) as E'.
  repeat split.
  - intros k f H. eapply Extends_visit; eassumption.
  - intros k f H. eapply Extends_visit; [exact E' | exact H].
  - simpl. rewrite lookupFile_updateFile, String.eqb_refl, Hfile. reflexivity.
  - unfold visitState in *. simpl. destruct (f_processed file); [discriminate|reflexivity].
  - intros Hv Hc s' Hrun. eapply processFile_unvisited_done; eassumption.
  - apply (ext_log _ _ E'), logInvariant_enterProcessFiles.
  - intros L. apply (ext_log _ _ E L).
  - intros H. simpl. eapply processFileBody_guard; eassumption.
Qed.

Lemma addError_run msg s :
  addError msg s = (setResultErrors (fun es => es ++ [errorPrefix s +:+ msg]) s, Done tt).
Proof.
  unfold addError, errorPrefix. destruct (currentFile s) as [key|]; [|reflexivity].
  destruct (lookupFile key (files s)); [|reflexivity].
  now rewrite append_assoc.
Qed.

Lemma readIndex_own name tid s :
  typesByName s !! name = Some tid -> readIndex name s = Some (Node tid).
Proof. intros H. unfold readIndex. now rewrite H. Qed.



Lemma readFiles_own name file s :
  lookupFile name (files s) = Some file -> readFiles name s = Some (Document name).
Proof. intros H. unfold readFiles. now rewrite H. Qed.

Lemma readFiles_inherited name s :
  lookupFile name (files s) = None -> inherits s name = true ->
  readFiles name s = Some (Inherited name).
Proof. intros H I. unfold readFiles. now rewrite H, I. Qed.

Lemma readFiles_missing name s :
  lookupFile name (files s) = None -> inherits s name = false -> readFiles name s = None.
Proof. intros H I. unfold readFiles. now rewrite H, I. Qed.

(** A name that the index answers to, as a node or as an inherited value. *)
Lemma addTypeToResults_taken tid node name type s :
  typeHeap s !! tid = Some node -> t_name node = Some name -> name <> "" ->
  readIndex name s = Some type ->
  addTypeToResults tid s
  = (setResultTypes (fun ts => ts ++ [tid])
       (setResultErrors
          (fun es => es ++ [errorPrefix s +:+ "Duplicate type name '" +:+ name +:+ "'."]) s),
     Done tt).
Proof.
  intros Hn Hname Hne Hi. unfold addTypeToResults, bind, getType, gets. rewrite Hn, Hname.
  apply String.eqb_neq in Hne. rewrite Hne, Hi. rewrite addError_run. reflexivity.
Qed.

Lemma addTypeToResults_collision tid node name other s :
  typeHeap s !! tid = Some node -> t_name node = Some name -> name <> "" ->
  typesByName s !! name = Some other ->
  addTypeToResults tid s
  = (setResultTypes (fun ts => ts ++ [tid])
       (setResultErrors
          (fun es => es ++ [errorPrefix s +:+ "Duplicate type name '" +:+ name +:+ "'."]) s),
     Done tt).
Proof.
  intros Hn Hname Hne Hi.
  eapply addTypeToResults_taken; eauto using readIndex_own.
Qed.



Lemma referenceFile_referenced pf key s file :
  lookupFile key (files s) = Some file -> f_referenced file = true ->
  referenceFile pf key s = (s, Done tt).
Proof.
  intros Hfile Hr. unfold referenceFile, bind, getFile. now rewrite Hfile, Hr.
Qed.

Lemma referenceFile_run pf key s file :
  lookupFile key (files s) = Some file -> f_referenced file = false ->
  referenceFile pf key s
  = match pf key (setFiles (updateFile key markReferenced) s) with
    | (s1, Done _) =>
        match lookupFile key (files s1) with
        | Some file' =>
            match f_type file' with
            | Some tid => addTypeToResults tid s1
            | None => (s1, Done tt)
            end
        | None => (s1, Raise "no such document")
        end
    | (s1, Raise e) => (s1, Raise e)
    | (s1, OutOfFuel) => (s1, OutOfFuel)
    end.
Proof.
  intros Hfile Hr. unfold referenceFile, bind, getFile, modifyFile, modify.
  rewrite Hfile, Hr.
  destruct (pf key _) as [s1 [[]|e|]]; try reflexivity.
  destruct (lookupFile key (files s1)) as [file'|]; [|reflexivity].
  destruct (f_type file'); reflexivity.
Qed.

(** A completed [referenceFile] leaves the document referenced. *)
Lemma referenceFile_marks pf key s s' :
  (forall k, Respects (pf k)) ->
  referenceFile pf key s = (s', Done tt) ->
  exists f', lookupFile key (files s') = Some f' /\ f_referenced f' = true.
Proof.
  intros Hpf Hrun.
  destruct (lookupFile key (files s)) as [file|] eqn:Hfile.
  2:{ unfold referenceFile, bind, getFile in Hrun. rewrite Hfile in Hrun. discriminate. }
  destruct (f_referenced file) eqn:Hr.
  - rewrite (referenceFile_referenced pf key s file Hfile Hr) in Hrun.
    injection Hrun as <-. eauto.
  - pose proof (proj1 (Respects_referenceFile pf Hpf key s)) as E.
    rewrite Hrun in E. simpl in E.
    pose proof (Extends_updateFile s key _ fileExtends_markReferenced) as E0.
    rewrite (referenceFile_run pf key s file Hfile Hr) in Hrun.
    pose proof (proj1 (Hpf key (setFiles (updateFile key markReferenced) s))) as E1.
    destruct (pf key _) as [s1 [[]|e|]]; try discriminate. simpl in E1.
    assert (exists f1, lookupFile key (files s1) = Some f1 /\ f_referenced f1 = true)
      as (f1 & H1 & R1).
    { destruct (ext_files _ _ E1 key (markReferenced file)) as (f1 & H1 & X).
      - simpl. rewrite lookupFile_updateFile, String.eqb_refl, Hfile. reflexivity.
      - exists f1. split; [assumption|]. now apply X. }
    rewrite H1 in Hrun.
    destruct (f_type f1) as [tid|].
    + pose proof (proj1 (Respects_addTypeToResults tid s1)) as E2.
      rewrite Hrun in E2. simpl in E2.
      destruct (ext_files _ _ E2 key f1 H1) as (f2 & H2 & X).
      exists f2. split; [assumption|]. now apply X.
    + injection Hrun as <-. eauto.
Qed.

Lemma isSeed_extends f f' : fileExtends f f' -> isSeed f' = isSeed f.
Proof.
  intros (_ & _ & Hc & _). unfold isSeed, isResourceDefinition. now rewrite Hc.
Qed.

Lemma seedLoop_own_hasOwnProperty fuel k keys s file :
  lookupFile "hasOwnProperty" (files s) = Some file ->
  seedLoop pascalCase fuel (k :: keys) s = (s, Raise "TypeError").
Proof.
  intros H. unfold seedLoop. cbn [forEach]. unfold bind at 1. unfold bind at 1.
  unfold gets. now rewrite H.
Qed.

Lemma seedLoop_cons fuel k keys s :
  lookupFile "hasOwnProperty" (files s) = None ->
  seedLoop pascalCase fuel (k :: keys) s
  = match lookupFile k (files s) with
    | Some file =>
        if isSeed file then
          match referenceFile (processFile pascalCase fuel) k s with
          | (s1, Done _) => seedLoop pascalCase fuel keys s1
          | (s1, Raise e) => (s1, Raise e)
          | (s1, OutOfFuel) => (s1, OutOfFuel)
          end
        else seedLoop pascalCase fuel keys s
    | None => (s, Raise "no such document")
    end.
Proof.
  intros Hown.
  unfold seedLoop. cbn [forEach]. unfold bind at 1. unfold bind at 1. unfold gets at 1.
  rewrite Hown. unfold bind at 1. unfold getFile at 1.
  destruct (lookupFile k (files s)) as [file|]; [|reflexivity].
  unfold isSeed, isResourceDefinition, isConstrainedType.
  destruct (f_content file) as [content|]; [|reflexivity].
  destruct (Js.isStr (ct_resourceType content) "StructureDefinition"); [|reflexivity].
  destruct (Js.isStr (ct_kind content) "resource"); [|reflexivity].
  cbn [andb]. unfold bind, ret.
  destruct (Js.isStr (ct_derivation content) "constraint"); reflexivity.
Qed.

Lemma seedLoop_done_guard fuel k keys s s1 :
  seedLoop pascalCase fuel (k :: keys) s = (s1, Done tt) ->
  lookupFile "hasOwnProperty" (files s) = None.
Proof.
  intros Hrun. destruct (lookupFile "hasOwnProperty" (files s)) as [file|] eqn:E;
    [|reflexivity].
  rewrite (seedLoop_own_hasOwnProperty fuel k keys s file E) in Hrun. discriminate.
Qed.

Lemma seedLoop_marks fuel keys s s1 :
  seedLoop pascalCase fuel keys s = (s1, Done tt) ->
  forall k f1, k ∈ keys -> lookupFile k (files s1) = Some f1 -> isSeed f1 = true ->
               f_referenced f1 = true.
Proof.
  revert s. induction keys as [|k0 keys IH]; intros s Hrun k f1 Hk H1 Hseed.
  - inversion Hk.
  - rewrite (seedLoop_cons _ _ _ _ (seedLoop_done_guard _ _ _ _ _ Hrun)) in Hrun.
    destruct (lookupFile k0 (files s)) as [file|] eqn:Hfile; [|discriminate].
    apply elem_of_cons in Hk as [->|Hk].
    + destruct (isSeed file) eqn:Sfile.
      * destruct (referenceFile _ k0 s) as [s' [[]|e|]] eqn:Href; try discriminate.
        destruct (referenceFile_marks _ k0 s s' (Respects_processFile pascalCase fuel) Href)
          as (f' & H' & R').
        pose proof (proj1 (Respects_seedLoop pascalCase fuel keys s')) as E.
        rewrite Hrun in E. simpl in E.
        destruct (ext_files _ _ E k0 f' H') as (f1' & H1' & X).
        assert (f1' = f1) as -> by congruence. now apply X.
      * pose proof (proj1 (Respects_seedLoop pascalCase fuel keys s)) as E.
        rewrite Hrun in E. simpl in E.
        destruct (ext_files _ _ E k0 file Hfile) as (f1' & H1' & X).
        assert (f1' = f1) as -> by congruence.
        rewrite (isSeed_extends _ _ X) in Hseed. congruence.
    + destruct (isSeed file).
      * destruct (referenceFile _ k0 s) as [s' [[]|e|]] eqn:Href; try discriminate.
        eapply IH; eassumption.
      * eapply IH; eassumption.
Qed.

Lemma seedLoop_all_referenced fuel keys s :
  (keys <> [] -> lookupFile "hasOwnProperty" (files s) = None) ->
  (forall k, k ∈ keys -> exists f, lookupFile k (files s) = Some f
                                    /\ (isSeed f = true -> f_referenced f = true)) ->
  seedLoop pascalCase fuel keys s = (s, Done tt).
Proof.
  intros Hown. induction keys as [|k keys IH]; intros H; [reflexivity|].
  assert (Hown' : lookupFile "hasOwnProperty" (files s) = None) by (apply Hown; discriminate).
  assert (IH' := IH (fun _ => Hown')). clear IH.
  rewrite seedLoop_cons by assumption.
  destruct (H k) as (f & Hf & Hr); [left|]. rewrite Hf.
  destruct (isSeed f).
  - rewrite (referenceFile_referenced _ k s f Hf (Hr eq_refl)).
    apply IH'. intros k' Hk'. apply H. now right.
  - apply IH'. intros k' Hk'. apply H. now right.
Qed.

(** C8 (as amended). The visit flags of a run stay on the documents of the
    map, so a second call on the same map, after a first call that completed,
    passes every seed document by: it returns an empty type list and an empty
    error list and changes no document. *)
Theorem second_run_is_empty (fuel fuel' : nat) (s s1 : State) :
  processFilesOn pascalCase fuel s = (s1, Done tt) ->
  processFilesOn pascalCase fuel' s1 = (enterProcessFiles s1, Done tt)
  /\ resultTypes (fst (processFilesOn pascalCase fuel' s1)) = []
  /\ resultErrors (fst (processFilesOn pascalCase fuel' s1)) = []
  /\ files (fst (processFilesOn pascalCase fuel' s1)) = files s1.
Proof.
  intros Hrun.
  assert (Hsecond : processFilesOn pascalCase fuel' s1 = (enterProcessFiles s1, Done tt)).
  { unfold processFilesOn in *.
    pose proof (proj1 (Respects_seedLoop pascalCase fuel (map fst (files s))
                         (enterProcessFiles s))) as E.
    rewrite Hrun in E. simpl in E.
    pose proof (ext_keys _ _ E) as K. simpl in K.
    assert (Hown1 : map fst (files s1) <> [] ->
                    lookupFile "hasOwnProperty" (files s1) = None).
    { intros Hne. rewrite K in Hne.
      destruct (lookupFile "hasOwnProperty" (files s1)) as [f|] eqn:E1; [|reflexivity].
      assert (is_Some (lookupFile "hasOwnProperty" (files s))) as [f0 Hf0].
      { apply lookupFile_keys. rewrite <- K. apply lookupFile_keys. eauto. }
      remember (map fst (files s)) as keys eqn:Hkeys.
      destruct keys as [|k0 keys0]; [contradiction|].
      apply seedLoop_done_guard in Hrun. simpl in Hrun. congruence. }
    apply seedLoop_all_referenced; [exact Hown1|]. intros k Hk. simpl in *.
    destruct (proj2 (lookupFile_keys k (files s1)) Hk) as [f Hf].
    exists f. split; [assumption|]. intros Hseed.
    eapply (seedLoop_marks fuel _ _ _ Hrun k f); [|assumption|assumption].
    rewrite <- K. assumption. }
  rewrite Hsecond. simpl. auto.
Qed.

(** C10. An error that is recorded while no document is current is appended
    as it is. [processFile] leaves the current-document cursor as it found it
    when it completes, and the seed loop calls [referenceFile] with no
    current document; so when the node of a seed document collides with a
    registered name, the "Duplicate type name" error is appended without a
    filename prefix, and the node is appended to the output list. *)
Theorem seed_duplicate_error_has_no_prefix (fuel : nat) (key : string) (s s1 : State)
    (file file1 : SpecificationFile) (tid other : nat) (node : TypeNode) (name : string) :
  currentFile s = None ->
  lookupFile key (files s) = Some file -> f_referenced file = false ->
  processFile pascalCase fuel key (setFiles (updateFile key markReferenced) s)
    = (s1, Done tt) ->
  lookupFile key (files s1) = Some file1 -> f_type file1 = Some tid ->
  typeHeap s1 !! tid = Some node -> t_name node = Some name -> name <> "" ->
  typesByName s1 !! name = Some other ->
  (forall msg s0, currentFile s0 = None ->
     resultErrors (fst (addError msg s0)) = resultErrors s0 ++ [msg])
  /\ (forall keys s0 s', currentFile s0 = None ->
        seedLoop pascalCase fuel keys s0 = (s', Done tt) -> currentFile s' = None)
  /\ currentFile s1 = None
  /\ snd (referenceFile (processFile pascalCase fuel) key s) = Done tt
  /\ resultErrors (fst (referenceFile (processFile pascalCase fuel) key s))
     = resultErrors s1 ++ ["Duplicate type name '" +:+ name +:+ "'."]
  /\ resultTypes (fst (referenceFile (processFile pascalCase fuel) key s))
     = resultTypes s1 ++ [tid].
Proof.
  intros Hcur Hfile Href Hrun Hfile1 Htype Hnode Hname Hne Hidx.
  assert (Hcur1 : currentFile s1 = None).
  { pose proof (proj2 (Respects_processFile pascalCase fuel key
                         (setFiles (updateFile key markReferenced) s)) tt) as C.
    rewrite Hrun in C. simpl in C. rewrite C by reflexivity. exact Hcur. }
  split; [|split; [|split; [exact Hcur1|]]].
  - intros msg s0 H0. rewrite addError_run. unfold errorPrefix. now rewrite H0.
  - intros keys s0 s' H0 Hloop.
    pose proof (proj2 (Respects_seedLoop pascalCase fuel keys s0) tt) as C.
    rewrite Hloop in C. simpl in C. rewrite C by reflexivity. exact H0.
  - rewrite (referenceFile_run _ key s file Hfile Href), Hrun, Hfile1, Htype.
    rewrite (addTypeToResults_collision tid node name other s1) by assumption.
    unfold errorPrefix. rewrite Hcur1. simpl. auto.
Qed.

(** *** A document whose base type is missing *)


Lemma lookupFile_updateFile_eq key g (fs : FileMap) f :
  lookupFile key fs = Some f -> lookupFile key (updateFile key g fs) = Some (g f).
Proof. intros H. now rewrite lookupFile_updateFile, String.eqb_refl, H. Qed.


Lemma alter_snoc {A} (g : A -> A) (l : list A) (x : A) :
  alter g (length l) (l ++ [x]) = l ++ [g x].
Proof. rewrite alter_app_r_alt by lia. now rewrite Nat.sub_diag. Qed.





End Driver.

(** ** C4: polymorphic elements *)

Section Polymorphic.

Variable pascalCase : string -> string.

Lemma optEqb_string_eq (a b : option string) :
  optEqb String.eqb a b = true <-> a = b.
Proof.
  destruct a as [x|], b as [y|]; simpl; split; try congruence; try discriminate.
  - intros H. apply String.eqb_eq in H. now subst.
  - intros [= ->]. apply String.eqb_refl.
Qed.

Lemma setProperties_run tid g s node ps :
  typeHeap s !! tid = Some node -> t_properties node = Some ps ->
  setProperties tid g s = (putProperties tid (g ps) s, Done tt).
Proof.
  intros Hn Hp. unfold setProperties, modifyType, modify, putProperties, setTypeHeap.
  f_equal. f_equal.
  apply list_alter_ext; [|reflexivity]. intros x Hx.
  assert (x = node) as -> by congruence. now rewrite Hp.
Qed.

Lemma putProperties_lookup tid ps s node :
  typeHeap s !! tid = Some node ->
  exists node', typeHeap (putProperties tid ps s) !! tid = Some node'
                /\ t_properties node' = Some ps.
Proof.
  intros Hn. unfold putProperties. simpl.
  rewrite list_lookup_alter_eq, Hn. simpl. eauto.
Qed.







Lemma alter_fixed {A} (f : A -> A) (l : list A) (i : nat) (x : A) :
  l !! i = Some x -> f x = x -> alter f i l = l.
Proof.
  intros Hx Hf. rewrite <- (list_alter_id (fun y => y) l i) at 2 by reflexivity.
  apply list_alter_ext; [|reflexivity]. intros y Hy. congruence.
Qed.




Lemma nonEmpty_Some o x : nonEmpty o = Some x -> o = Some x /\ String.eqb x "" = false.
Proof.
  unfold nonEmpty. destruct o as [y|]; [|discriminate].
  destruct (String.eqb y "") eqn:E; [discriminate|]. now intros [= <-].
Qed.

Lemma typeReferencesLoop_named pf remaining :
  forall te result s s' refs,
    Forall (fun t => isNamedReference t = true) result ->
    typeReferencesLoop pf remaining te result s = (s', Done (Some refs)) ->
    Forall (fun t => isNamedReference t = true) refs.
Proof.
  induction remaining as [|t rest IH]; intros te result s s' refs Hres Hrun.
  - simpl in Hrun. injection Hrun as _ <-. assumption.
  - cbn [typeReferencesLoop] in Hrun.
    destruct (nonEmpty (et_code t)) as [typeName|] eqn:E.
    2:{ unfold bind in Hrun. destruct (addError _ s) as [? [|?|]]; discriminate. }
    apply nonEmpty_Some in E as [_ Hne].
    destruct (String.eqb typeName "*"); [eapply IH; eassumption|].
    unfold bind at 1 in Hrun.
    destruct (String.eqb typeName "xhtml").
    + unfold ret at 1 in Hrun. unfold bind at 1 in Hrun.
      destruct (profileBinding pf (et_profile t) s) as [s1 [binding|e|]]; try discriminate.
      eapply IH; [|exact Hrun].
      apply Forall_app. split; [assumption|]. now apply Forall_singleton.
    + unfold bind at 1 in Hrun.
      destruct (getFileForType pf typeName s) as [s1 [[]|e|]]; try discriminate.
      unfold ret at 1 in Hrun. unfold bind at 1 in Hrun.
      destruct (profileBinding pf (et_profile t) s1) as [s2 [binding|e|]]; try discriminate.
      eapply IH; [|exact Hrun].
      apply Forall_app. split; [assumption|]. apply Forall_singleton.
      simpl. now rewrite Hne.
Qed.

Lemma typeReferencesLoop_names pf remaining :
  forall te result s s' refs,
    typeReferencesLoop pf remaining te result s = (s', Done (Some refs)) ->
    map ptypeName refs
    = map ptypeName result
      ++ map resolvedTypeName (List.filter (fun t => negb (isWildcard t)) remaining).
Proof.
  induction remaining as [|t rest IH]; intros te result s s' refs Hrun.
  - simpl in Hrun. injection Hrun as _ <-. simpl. now rewrite app_nil_r.
  - cbn [typeReferencesLoop] in Hrun. cbn [List.filter].
    destruct (nonEmpty (et_code t)) as [typeName|] eqn:E.
    2:{ unfold bind in Hrun. destruct (addError _ s) as [? [|?|]]; discriminate. }
    destruct (String.eqb typeName "*") eqn:W.
    { assert (Hw : isWildcard t = true).
      { unfold isWildcard, Js.isStr. apply nonEmpty_Some in E as [-> _]. exact W. }
      rewrite Hw. cbn [negb]. eapply IH; eassumption. }
    assert (Hw : isWildcard t = false).
    { unfold isWildcard, Js.isStr. apply nonEmpty_Some in E as [-> _]. exact W. }
    rewrite Hw. cbn [negb map]. unfold resolvedTypeName at 1. rewrite E.
    unfold bind at 1 in Hrun.
    destruct (String.eqb typeName "xhtml").
    + unfold ret at 1 in Hrun. unfold bind at 1 in Hrun.
      destruct (profileBinding pf (et_profile t) s) as [s1 [binding|e|]]; try discriminate.
      rewrite (IH _ _ _ _ _ Hrun), map_app, <- app_assoc. reflexivity.
    + unfold bind at 1 in Hrun.
      destruct (getFileForType pf typeName s) as [s1 [[]|e|]]; try discriminate.
      unfold ret at 1 in Hrun. unfold bind at 1 in Hrun.
      destruct (profileBinding pf (et_profile t) s1) as [s2 [binding|e|]]; try discriminate.
      rewrite (IH _ _ _ _ _ Hrun), map_app, <- app_assoc. reflexivity.
Qed.

Lemma getTypeReferences_named pf types s s' refs :
  getTypeReferences pf types s = (s', Done (Some refs)) ->
  Forall (fun t => isNamedReference t = true) refs.
Proof.
  unfold getTypeReferences. destruct types as [ts|]; [|discriminate].
  apply typeReferencesLoop_named. constructor.
Qed.


End Polymorphic.

(** ** C3: collisions of enum member names *)

Section Collisions.

Variable pascalCase : string -> string.

























End Collisions.

(** ** Concrete runs *)

Section Runs.

Import Examples.

(** C9 at a URL that is only found with the ["vs"] segment, and at a URL
    that the map answers to without a document: the direct read gives the
    inherited value, and there is no retry. *)
Lemma getValueSetFile_tolerance_witness :
  canonicalUrl "http://hl7.org/fhir/ValueSet/intent"
    = "http://hl7.org/fhir/ValueSet" +:+ "/" +:+ "intent"
  /\ Js.indexOf "/" "intent" = None
  /\ getValueSetFile "http://hl7.org/fhir/ValueSet/intent" (freshDocuments vsDocuments)
     = Some (Document "http://hl7.org/fhir/ValueSet/vs/intent")
  /\ getValueSetFile "constructor" (freshDocuments vsDocuments)
     = Some (Inherited "constructor").
Proof.
  split; [reflexivity|]. split; [reflexivity|]. split.
  - destruct (getValueSetFile_tolerance (freshDocuments vsDocuments)
                "http://hl7.org/fhir/ValueSet/intent")
      as (_ & Hrun & Hlast & _).
    rewrite Hrun.
    rewrite (Hlast "http://hl7.org/fhir/ValueSet" "intent" eq_refl eq_refl).
    reflexivity.
  - destruct (getValueSetFile_tolerance (freshDocuments vsDocuments) "constructor")
      as (_ & Hrun & _).
    rewrite Hrun. reflexivity.
Defined.

(** C6 at a concept with code ["<="] and an unrelated display. *)
Lemma mapped_operator_name_witness :
  In ("<=", "LessThanOrEqual") operatorWords
  /\ ChangeCase.pascalCase "LessThanOrEqual" = "LessThanOrEqual"
  /\ forall s,
       getEnumMemberName ChangeCase.pascalCase (Some "http://example.org/A")
         (mkConcept "<=" (Some "At most") (Some "Not greater than the given value") None) s
       = (s, Done (Some "LessThanOrEqual")).
Proof.
  assert (Hin : In ("<=", "LessThanOrEqual") operatorWords) by (simpl; tauto).
  assert (Hpc : ChangeCase.pascalCase "LessThanOrEqual" = "LessThanOrEqual") by reflexivity.
  split; [exact Hin|]. split; [exact Hpc|].
  exact (mapped_operator_name ChangeCase.pascalCase (Some "http://example.org/A")
           (mkConcept "<=" (Some "At most") (Some "Not greater than the given value") None)
           "LessThanOrEqual" Hin Hpc).
Defined.

(** C7 at the options [Quantity], wildcard, [string]. *)
Lemma wildcard_is_dropped_witness :
  let s := freshDocuments openTypeDocuments in
  let pf := processFile ChangeCase.pascalCase 3 in
  let quantity := mkElementType (Some "Quantity") None in
  let text := mkElementType (Some "string") None in
  let wildcard := mkElementType (Some "*") None in
  isWildcard wildcard = true
  /\ getTypeReferences pf (Some [quantity; wildcard; text]) s
     = getTypeReferences pf (Some [quantity; text]) s.
Proof.
  intros s pf quantity text wildcard.
  assert (W : isWildcard wildcard = true) by reflexivity.
  split; [exact W|].
  exact (wildcard_is_dropped pf [quantity] [text] wildcard s W).
Defined.

(** C7: what the source means and what it does. With every document of the
    open type set in the map, the options [Quantity], wildcard, [string]
    resolve to the two references of [Quantity] and [string], and the
    wildcard alone to no reference, while the open type options written out
    resolve to the twenty-five references. *)
Lemma wildcard_yields_no_reference :
  let s := freshDocuments openTypeDocuments in
  let pf := processFile ChangeCase.pascalCase 3 in
  let named := fun n => TypeReference (Some n) None in
  snd (getTypeReferences pf (Some [mkElementType (Some "Quantity") None;
                                   mkElementType (Some "*") None;
                                   mkElementType (Some "string") None]) s)
  = Done (Some [named "Quantity"; named "string"])
  /\ snd (getTypeReferences pf (Some [mkElementType (Some "*") None]) s) = Done (Some [])
  /\ snd (getTypeReferences pf (Some openTypeElement) s)
     = Done (Some (map named openTypeNames))
  /\ snd (getTypeReferences pf (Some [mkElementType (Some "*") None]) s)
     <> Done (Some (map named openTypeNames))
  /\ snd (getTypeReferences pf (Some [mkElementType (Some "Quantity") None;
                                      mkElementType (Some "*") None;
                                      mkElementType (Some "string") None]) s)
     <> Done (Some ([named "Quantity"] ++ map named openTypeNames ++ [named "string"])).
Proof.
  split; [vm_compute; reflexivity|]. split; [reflexivity|].
  split; [vm_compute; reflexivity|]. split; [discriminate|].
  vm_compute. discriminate.
Qed.




(** C8 at the two resources with the missing base type: the first run
    completes, the second run on its documents returns nothing. *)
Lemma second_run_is_empty_witness :
  let s := freshDocuments orphanDocuments in
  let s1 := fst (processFilesOn ChangeCase.pascalCase 3 s) in
  processFilesOn ChangeCase.pascalCase 3 s = (s1, Done tt)
  /\ resultTypes (fst (processFilesOn ChangeCase.pascalCase 3 s1)) = []
  /\ resultErrors (fst (processFilesOn ChangeCase.pascalCase 3 s1)) = [].
Proof.
  intros s s1.
  assert (Hrun : processFilesOn ChangeCase.pascalCase 3 s = (s1, Done tt)) by (vm_compute; reflexivity).
  split; [exact Hrun|].
  destruct (second_run_is_empty ChangeCase.pascalCase 3 3 s s1 Hrun) as (_ & Ht & He & _).
  split; assumption.
Defined.

(** C8 as stated fails: the second call on the same document map returns
    other lists than the first. *)
Lemma second_run_differs :
  let first := processFilesOn ChangeCase.pascalCase 3 (freshDocuments orphanDocuments) in
  let second := processFilesOn ChangeCase.pascalCase 3 (fst first) in
  snd first = Done tt /\ snd second = Done tt
  /\ resultTypes (fst first) = [0; 1] /\ resultTypes (fst second) = []
  /\ resultErrors (fst first) = ["patient.profile.json: Unknown base type 'DomainResource'."]
  /\ resultErrors (fst second) = []
  /\ (resultTypes (fst first), resultErrors (fst first))
     <> (resultTypes (fst second), resultErrors (fst second)).
Proof. vm_compute. repeat split; discriminate. Qed.

(** C2 at the two resources whose base types form a cycle: the run
    completes, each body was entered once and both documents are processed. *)
Lemma visit_discipline_witness :
  let s := freshDocuments cycleDocuments in
  lookupFile "A" (files s) = Some cycleA
  /\ NoDup (bodyLog (fst (processFilesOn ChangeCase.pascalCase 3 s)))
  /\ snd (processFilesOn ChangeCase.pascalCase 3 s) = Done tt
  /\ bodyLog (fst (processFilesOn ChangeCase.pascalCase 3 s)) = ["A"; "B"]
  /\ map (fun kf => visitState (snd kf)) (files (fst (processFilesOn ChangeCase.pascalCase 3 s)))
     = [Processed; Processed].
Proof.
  intros s.
  assert (Hfile : lookupFile "A" (files s) = Some cycleA) by reflexivity.
  destruct (visit_discipline ChangeCase.pascalCase 3 s "A" cycleA Hfile)
    as (_ & _ & _ & _ & Honce & _).
  split; [exact Hfile|]. split; [exact Honce|].
  vm_compute. repeat split; reflexivity.
Defined.


(** The map answers to the base-type name [toString] although it has no
    such key: no error is recorded, the elements are walked, and the flag
    goes to the function that the map inherits. *)
Lemma inherited_base_type_is_found :
  let r := processFiles ChangeCase.pascalCase 2 inheritedBaseDocuments in
  lookupFile "toString" inheritedBaseDocuments = None
  /\ snd r = Done tt
  /\ resultErrors (fst r) = []
  /\ map (fun tid => typeHeap (fst r) !! tid) (resultTypes (fst r))
     = [Some (mkTypeNode KInterfaceType CatResource (Some "Patient") (Some "A patient")
                         None (Some "toString") (Some []) None)]
  /\ flagged (fst r) = ["toString"].
Proof. vm_compute. repeat split; reflexivity. Qed.

(** The base-type name [__proto__] is answered by [Object.prototype]
    itself: [referenceFile] sets the flag on it, every document reads the
    flag from then on, and the seed loop skips the resource that follows. *)
Lemma flag_on_the_prototype_skips_the_rest :
  let r := processFiles ChangeCase.pascalCase 2 pollutedDocuments in
  snd r = Done tt
  /\ resultErrors (fst r) = []
  /\ map (fun tid => typeHeap (fst r) !! tid) (resultTypes (fst r))
     = [Some (mkTypeNode KInterfaceType CatResource (Some "Patient") (Some "A patient")
                         None (Some "__proto__") (Some []) None)]
  /\ flagged (fst r) = ["__proto__"]
  /\ map (fun p => (fst p, f_referenced (snd p), f_processed (snd p))) (files (fst r))
     = [("Patient", true, true); ("Device", true, false)].
Proof. vm_compute. repeat split; reflexivity. Qed.


(** C10 at a seed document that has the name of a sub-type registered
    before: its "Duplicate type name" error carries no filename. *)
Lemma seed_duplicate_error_has_no_prefix_witness :
  let s := fst (referenceFile (processFile ChangeCase.pascalCase 4) "Foo"
                  (freshDocuments subTypeDocuments)) in
  let r := referenceFile (processFile ChangeCase.pascalCase 4) "FooBar" s in
  currentFile s = None
  /\ lookupFile "FooBar" (files s) = Some fooBar
  /\ typesByName s !! "FooBar" = Some 2
  /\ snd r = Done tt
  /\ resultErrors (fst r) = ["Duplicate type name 'FooBar'."]
  /\ resultTypes (fst r) = [1; 2; 0; 3].
Proof.
  intros s r.
  set (s1 := fst (processFile ChangeCase.pascalCase 4 "FooBar"
                    (setFiles (updateFile "FooBar" markReferenced) s))).
  set (file1 := markProcessed (withType 3 (markQueued (markReferenced fooBar)))).
  set (node := mkTypeNode KInterfaceType CatResource (Some "FooBar") (Some "A foobar")
                          None None (Some []) None).
  assert (Hcur : currentFile s = None) by reflexivity.
  assert (Hfile : lookupFile "FooBar" (files s) = Some fooBar) by reflexivity.
  assert (Hidx : typesByName s !! "FooBar" = Some 2) by reflexivity.
  assert (Hrun : processFile ChangeCase.pascalCase 4 "FooBar"
                   (setFiles (updateFile "FooBar" markReferenced) s) = (s1, Done tt))
    by (vm_compute; reflexivity).
  assert (Hfile1 : lookupFile "FooBar" (files s1) = Some file1) by reflexivity.
  assert (Hnode : typeHeap s1 !! 3 = Some node) by reflexivity.
  assert (Hidx1 : typesByName s1 !! "FooBar" = Some 2) by reflexivity.
  assert (Hne : "FooBar" <> "") by discriminate.
  destruct (seed_duplicate_error_has_no_prefix ChangeCase.pascalCase 4 "FooBar" s s1 fooBar file1 3 2
              node "FooBar" Hcur Hfile eq_refl Hrun Hfile1 eq_refl Hnode eq_refl Hne Hidx1)
    as (_ & _ & _ & Hdone & Herrors & Htypes).
  split; [exact Hcur|]. split; [exact Hfile|]. split; [exact Hidx|].
  split; [exact Hdone|]. unfold r.
  split; [rewrite Herrors | rewrite Htypes]; reflexivity.
Defined.




End Runs.

(** * Further properties *)

(** ** The reader *)

Lemma lookupFile_app (k : string) (fs gs : FileMap) :
  lookupFile k (fs ++ gs)
  = match lookupFile k fs with Some f => Some f | None => lookupFile k gs end.
Proof.
  induction fs as [|[k0 f0] fs IH]; simpl; [reflexivity|].
  destruct (String.eqb k0 k); [reflexivity | exact IH].
Qed.

Section ReaderFacts.
Import Reader.

(** One step of the loop, in terms of the candidate of the entry. *)
Lemma visit_candidate (r : Result) (entry : string * ReadResult) :
  r_files (visit r entry)
  = match candidate entry with
    | Some (id, f) =>
        match lookupFile id (r_files r) with
        | Some _ => r_files r
        | None => if Prototype.isStandard id then r_files r else r_files r ++ [(id, f)]
        end
    | None => r_files r
    end.
Proof.
  unfold visit, candidate, readAndProcess, processFile, addError.
  destruct entry as [filename read]. cbn [fst snd].
  destruct (isSkipped filename); [reflexivity|].
  destruct read as [[c|]|message]; try reflexivity.
  unfold getContentId, Js.isStr. destruct (ct_resourceType c) as [rt|]; [|reflexivity].
  destruct (String.eqb_spec rt "ValueSet") as [->|V].
  { cbn [String.eqb Ascii.eqb Bool.eqb negb andb orb].
    destruct (nonEmpty (ct_url c)) as [id|]; [|reflexivity].
    cbn [option_map]. destruct (lookupFile id (r_files r)); [reflexivity|].
    destruct (Prototype.isStandard id); reflexivity. }
  destruct (String.eqb_spec rt "CodeSystem") as [->|C].
  { cbn [String.eqb Ascii.eqb Bool.eqb negb andb orb].
    destruct (nonEmpty (ct_url c)) as [id|]; [|reflexivity].
    cbn [option_map]. destruct (lookupFile id (r_files r)); [reflexivity|].
    destruct (Prototype.isStandard id); reflexivity. }
  destruct (String.eqb_spec rt "StructureDefinition") as [->|S]; [|reflexivity].
  cbn [String.eqb Ascii.eqb Bool.eqb negb andb orb].
  destruct (Js.includes ".profile" filename); [|reflexivity].
  cbn [negb andb orb]. destruct (nonEmpty (ct_id c)) as [id|]; [|reflexivity].
  cbn [option_map]. destruct (lookupFile id (r_files r)); [reflexivity|].
  destruct (Prototype.isStandard id); reflexivity.
Qed.

Lemma candidate_id entry id f : candidate entry = Some (id, f) -> f_id f = id.
Proof.
  unfold candidate. destruct (isSkipped _); [discriminate|].
  destruct (snd entry) as [[c|]|]; try discriminate.
  destruct (_ || _ || _)%bool; [|discriminate].
  destruct (nonEmpty (getContentId c)); simpl; [|discriminate].
  intros [= <- <-]. reflexivity.
Qed.

Lemma lookup_visit (r : Result) (entry : string * ReadResult) (id : string) :
  lookupFile id (r_files (visit r entry))
  = match lookupFile id (r_files r) with
    | Some f => Some f
    | None =>
        if (hasId id entry && negb (Prototype.isStandard id))%bool
        then option_map snd (candidate entry) else None
    end.
Proof.
  rewrite visit_candidate. unfold hasId.
  destruct (candidate entry) as [[id' f]|] eqn:E.
  - destruct (lookupFile id' (r_files r)) as [g|] eqn:L.
    + destruct (lookupFile id (r_files r)) eqn:L'; [reflexivity|].
      destruct (String.eqb id' id) eqn:Q; [|reflexivity].
      apply String.eqb_eq in Q. congruence.
    + destruct (Prototype.isStandard id') eqn:P.
      * destruct (lookupFile id (r_files r)) eqn:L'; [reflexivity|].
        destruct (String.eqb id' id) eqn:Q; [|reflexivity].
        apply String.eqb_eq in Q. subst id'. now rewrite P.
      * rewrite lookupFile_app. simpl.
        destruct (lookupFile id (r_files r)); [reflexivity|].
        destruct (String.eqb id' id) eqn:Q; [|reflexivity].
        apply String.eqb_eq in Q. subst id'. now rewrite P.
  - now destruct (lookupFile id (r_files r)).
Qed.

Lemma lookup_fold (entries : list (string * ReadResult)) (r : Result) (id : string) :
  lookupFile id (r_files (fold_left visit entries r))
  = match lookupFile id (r_files r) with
    | Some f => Some f
    | None =>
        if Prototype.isStandard id then None
        else option_map snd (List.find (hasId id) entries ≫= candidate)
    end.
Proof.
  revert r. induction entries as [|e entries IH]; intros r; simpl.
  - destruct (lookupFile id (r_files r)); [reflexivity|].
    now destruct (Prototype.isStandard id).
  - rewrite IH, lookup_visit.
    destruct (lookupFile id (r_files r)); [reflexivity|].
    destruct (Prototype.isStandard id); [now rewrite andb_false_r|].
    rewrite andb_true_r.
    destruct (hasId id e) eqn:H; simpl; [|reflexivity].
    unfold hasId in H. destruct (candidate e) as [[id' f]|]; [|discriminate]. reflexivity.
Qed.



Lemma candidate_Some entry id f :
  candidate entry = Some (id, f) ->
  exists content,
    snd entry = Parsed (Some content)
    /\ f = mkFile id (fst entry) false false false None (Some content) None
    /\ isSkipped (fst entry) = false
    /\ nonEmpty (getContentId content) = Some id
    /\ (Js.isStr (ct_resourceType content) "ValueSet" = true
        \/ Js.isStr (ct_resourceType content) "CodeSystem" = true
        \/ (Js.isStr (ct_resourceType content) "StructureDefinition" = true
            /\ Js.includes ".profile" (fst entry) = true)).
Proof.
  unfold candidate. destruct (isSkipped (fst entry)) eqn:K; [discriminate|].
  destruct (snd entry) as [[c|]|]; try discriminate.
  destruct (_ || _ || _)%bool eqn:T; [|discriminate].
  destruct (nonEmpty (getContentId c)) as [id'|] eqn:I; simpl; [|discriminate].
  intros [= <- <-]. exists c.
  split; [reflexivity|]. split; [reflexivity|]. split; [reflexivity|].
  split; [exact I|].
  apply orb_prop in T as [T|T].
  - apply orb_prop in T as [T|T]; auto.
  - apply andb_prop in T. auto.
Qed.

Lemma visit_count (r : Result) (entry : string * ReadResult) :
  length (r_files (visit r entry)) + length (r_errors (visit r entry))
  = length (r_files r) + length (r_errors r)
    + (if isUnreadable entry then 1 else 0)
    + (if isUsable entry then 1 else 0).
Proof.
  unfold isUsable, visit, candidate, isUnreadable, readAndProcess, processFile, addError.
  destruct entry as [filename read]. cbn [fst snd].
  destruct (isSkipped filename); cbn [negb andb]; [lia|].
  destruct read as [[c|]|message]; cbn [r_files r_errors]; try lia.
  2:{ rewrite length_app. simpl. lia. }
  unfold getContentId, Js.isStr. destruct (ct_resourceType c) as [rt|]; [|cbn; lia].
  assert (Hadd : forall id (g : SpecificationFile) (msg : SpecificationFile -> string)
                        (inherited : string),
            let r' := match lookupFile id (r_files r) with
                      | Some existing =>
                          mkResult (r_files r) (r_errors r ++ [msg existing])
                      | None =>
                          if Prototype.isStandard id
                          then mkResult (r_files r) (r_errors r ++ [inherited])
                          else mkResult (r_files r ++ [(id, g)]) (r_errors r)
                      end in
            length (r_files r') + length (r_errors r')
            = length (r_files r) + length (r_errors r) + 0 + 1).
  { intros id g msg inherited.
    destruct (lookupFile id (r_files r)); [|destruct (Prototype.isStandard id)];
      simpl; rewrite length_app; simpl; lia. }
  destruct (String.eqb_spec rt "ValueSet") as [->|V].
  { cbn [String.eqb Ascii.eqb Bool.eqb negb andb orb].
    destruct (nonEmpty (ct_url c)) as [id|]; cbn [option_map]; [|lia].
    apply (Hadd id _ (fun existing => _)). }
  destruct (String.eqb_spec rt "CodeSystem") as [->|C].
  { cbn [String.eqb Ascii.eqb Bool.eqb negb andb orb].
    destruct (nonEmpty (ct_url c)) as [id|]; cbn [option_map]; [|lia].
    apply (Hadd id _ (fun existing => _)). }
  destruct (String.eqb_spec rt "StructureDefinition") as [->|S]; [|cbn; lia].
  cbn [String.eqb Ascii.eqb Bool.eqb negb andb orb].
  destruct (Js.includes ".profile" filename); cbn [negb andb orb]; [|lia].
  destruct (nonEmpty (ct_id c)) as [id|]; cbn [option_map]; [|lia].
  apply (Hadd id _ (fun existing => _)).
Qed.

Lemma fold_count (entries : list (string * ReadResult)) (r : Result) :
  length (r_files (fold_left visit entries r)) + length (r_errors (fold_left visit entries r))
  = length (r_files r) + length (r_errors r)
    + length (List.filter isUnreadable entries)
    + length (List.filter isUsable entries).
Proof.
  revert r. induction entries as [|e entries IH]; intros r; simpl; [lia|].
  rewrite IH, visit_count.
  destruct (isUnreadable e); destruct (isUsable e); simpl; lia.
Qed.

(** X2. No usable file is dropped in silence: every listed file that the
    reader can use is either registered or reported as a duplicate, and every
    file that cannot be read or parsed is reported; nothing else is
    registered or reported. *)
Theorem reader_registers_or_reports (basePath : string)
    (entries : list (string * ReadResult)) :
  let r := readSpecification basePath (Listed entries) in
  length (r_files r) + length (r_errors r)
  = length (List.filter isUnreadable entries)
    + length (List.filter isUsable entries).
Proof. intros r. unfold r, readSpecification. rewrite fold_count. reflexivity. Qed.

Lemma find_Some_In {A} (p : A -> bool) (l : list A) (x : A) :
  List.find p l = Some x -> In x l /\ p x = true.
Proof. apply List.find_some. Qed.

(** X3. How the reader feeds the resolver. A document of the map that the
    reader returns is registered under its own id, comes from a listed file
    that was not skipped, carries the parsed content, has no flag, symbol or
    type set, and has one of the three resource types that the [switch] of
    the resolver's [processFile] handles: its default branch is not taken on
    such a document. *)
Theorem reader_documents_are_dispatched (pascalCase : string -> string)
    (pf : string -> M unit) (fuel : nat)
    (basePath : string) (listing : Listing) (id : string) (f : SpecificationFile) :
  lookupFile id (r_files (readSpecification basePath listing)) = Some f ->
  exists entries filename content,
    listing = Listed entries
    /\ In (filename, Parsed (Some content)) entries
    /\ isSkipped filename = false
    /\ f = mkFile id filename false false false None (Some content) None
    /\ visitState f = Unvisited
    /\ nonEmpty (getContentId content) = Some id
    /\ ((Js.isStr (ct_resourceType content) "ValueSet" = true
         /\ processByResourceType pascalCase pf fuel content id
            = processValueSet pascalCase pf id)
        \/ (Js.isStr (ct_resourceType content) "CodeSystem" = true
            /\ processByResourceType pascalCase pf fuel content id
               = processCodeSystem pascalCase id)
        \/ (Js.isStr (ct_resourceType content) "StructureDefinition" = true
            /\ Js.includes ".profile" filename = true
            /\ processByResourceType pascalCase pf fuel content id
               = processStructureDefinition pascalCase pf fuel id)).
Proof.
  destruct listing as [entries|message]; [|discriminate].
  unfold readSpecification. rewrite lookup_fold. cbn [r_files lookupFile].
  destruct (Prototype.isStandard id); [discriminate|].
  destruct (List.find (hasId id) entries) as [entry|] eqn:F; [|discriminate].
  apply find_Some_In in F as [Hin Hid]. cbn [mbind option_bind].
  unfold hasId in Hid. destruct (candidate entry) as [[id' g]|] eqn:E; [|discriminate].
  apply String.eqb_eq in Hid. subst id'. cbn. intros [= ->].
  destruct (candidate_Some _ _ _ E) as (content & Hread & Hf & Hskip & Hcid & Hrt).
  exists entries, (fst entry), content.
  split; [reflexivity|]. split.
  { rewrite <- Hread. now destruct entry. }
  split; [exact Hskip|]. split; [exact Hf|]. split; [now rewrite Hf|].
  split; [exact Hcid|].
  unfold processByResourceType. cbv zeta. unfold Js.isStr in *.
  destruct (ct_resourceType content) as [rt|].
  2:{ destruct Hrt as [H|[H|[H _]]]; discriminate. }
  destruct Hrt as [H|[H|[H P]]]; apply String.eqb_eq in H; subst rt.
  - left. split; reflexivity.
  - right. left. split; reflexivity.
  - right. right. split; [reflexivity|]. split; [exact P | reflexivity].
Qed.

End ReaderFacts.

(** ** Names *)

Section Names.

Variable pascalCase : string -> string.

Lemma formatName_not_digit_led (name : string) :
  Js.startsWithNumber (formatName pascalCase name) = false.
Proof.
  unfold formatName. destruct (Js.startsWithNumber (pascalCase name)) eqn:E; [reflexivity|exact E].
Qed.

Lemma optEqb_bool_eq (a b : option bool) : optEqb Bool.eqb a b = true <-> a = b.
Proof.
  destruct a as [[]|], b as [[]|]; simpl; split; intros H; congruence.
Qed.

(** X4. [areEnumMembersEqual] holds of two members exactly when they agree on
    every field, so the member that [adjustMemberName] drops carries nothing
    that the member it keeps does not. *)
Theorem areEnumMembersEqual_decides (member1 member2 : EnumMember) :
  areEnumMembersEqual member1 member2 = true <-> member1 = member2.
Proof.
  destruct member1 as [n1 d1 v1 p1 s1 c1], member2 as [n2 d2 v2 p2 s2 c2].
  unfold areEnumMembersEqual. cbn [m_name m_description m_value m_display m_system m_caseSensitive].
  rewrite !andb_true_iff, !optEqb_string_eq, optEqb_bool_eq, String.eqb_eq.
  split.
  - intros [[[[[-> ->] ->] ->] ->] ->]. reflexivity.
  - intros [= -> -> -> -> -> ->]. repeat split.
Qed.

Lemma truthy_nonEmpty o : Js.truthy o = true <-> exists x, o = Some x /\ x <> "".
Proof.
  unfold Js.truthy. destruct o as [x|].
  - destruct (String.eqb_spec x ""); simpl; split.
    + discriminate.
    + intros (y & [= <-] & H). contradiction.
    + eauto.
    + reflexivity.
  - split; [discriminate | intros (x & [=] & _)].
Qed.

Lemma shortEnough_nonEmpty o : shortEnough o = true -> exists x, o = Some x /\ x <> "".
Proof.
  unfold shortEnough. destruct o as [x|]; [|discriminate].
  intros H. apply andb_prop in H as [H _]. apply negb_true_iff, String.eqb_neq in H. eauto.
Qed.

Lemma andThen_nonEmpty o f x :
  andThen o f = Some x -> x <> "" -> exists y, o = Some y /\ y <> "".
Proof.
  unfold andThen. destruct o as [y|]; [|discriminate].
  destruct (String.eqb_spec y ""); [intros [= <-]; contradiction|]. eauto.
Qed.

Lemma replaceFrom_before pat rep s :
  forall before r, Js.replaceFrom pat rep before s = Some r -> exists t, r = before +:+ t.
Proof.
  induction s as [|a s IH]; intros before r; cbn [Js.replaceFrom].
  - destruct (String.prefix pat ""); [|discriminate]. intros [= <-]. eauto.
  - destruct (String.prefix pat (String a s)); [intros [= <-]; eauto|].
    intros H. destruct (IH _ _ H) as [t ->]. exists (String a t).
    now rewrite append_assoc.
Qed.

Lemma replace_star_nonEmpty (y : string) : y <> "" -> Js.replace "*" "Star" y <> "".
Proof.
  destruct y as [|a y]; [contradiction|]. intros _. unfold Js.replace.
  cbn [Js.replaceFrom String.prefix].
  destruct (ascii_dec "*" a) as [<-|Hne].
  - assert (P : String.prefix "" y = true) by (destruct y; reflexivity).
    rewrite P. rewrite append_empty_l. cbn [Js.expandReplacement Ascii.eqb Bool.eqb].
    rewrite !append_cons. discriminate.
  - rewrite append_empty_l.
    destruct (Js.replaceFrom "*" "Star" (String a "") y) as [r|] eqn:E; [|discriminate].
    destruct (replaceFrom_before _ _ _ _ _ E) as [t ->]. discriminate.
Qed.

(** The candidate that [getEnumMemberName] formats. *)
Lemma getEnumMemberName_cases (system : option string) (concept : Concept) (s : State) :
  (exists candidate, candidate <> ""
     /\ getEnumMemberName pascalCase system concept s
        = (s, Done (Some (formatName pascalCase candidate))))
  \/ (c_code concept = ""
      /\ getEnumMemberName pascalCase system concept s
         = (fst (addError "Unable to determine name for value set concept." s), Done None)).
Proof.
  unfold getEnumMemberName.
  set (name := match getMappedName system (c_code concept) with
               | Some mapped => Some mapped
               | None => _
               end).
  assert (Hcode : c_code concept <> "" -> Js.truthy name = true).
  { intros Hc. subst name.
    destruct (getMappedName system (c_code concept)) as [mapped|] eqn:Hm.
    - unfold getMappedName in Hm.
      repeat (destruct (String.eqb (c_code concept) _); [injection Hm as <-; reflexivity|]).
      discriminate.
    - cbv zeta.
      destruct (shortEnough (andThen (c_display concept) Js.trim)) eqn:Hd.
      + apply shortEnough_nonEmpty in Hd as (x & Hx & Hne).
        destruct (andThen_nonEmpty _ _ _ Hx Hne) as (y & Hy & Hyne).
        rewrite Hy. unfold andThen. pose proof Hyne as Hyne'.
        apply String.eqb_neq in Hyne'. rewrite Hyne'.
        unfold Js.truthy. apply negb_true_iff, String.eqb_neq.
        now apply replace_star_nonEmpty.
      + apply String.eqb_neq in Hc. rewrite Hc. cbn [negb andb].
        destruct (Js.startsWithNumber (c_code concept)); cbn [negb].
        * destruct (shortEnough (andThen (getEnumMemberDescription concept) Js.trim)) eqn:Hs.
          -- apply shortEnough_nonEmpty in Hs as (x & -> & Hne).
             unfold Js.truthy. now apply negb_true_iff, String.eqb_neq.
          -- unfold Js.truthy. now rewrite Hc.
        * unfold Js.truthy. now rewrite Hc. }
  clearbody name. destruct (Js.truthy name) eqn:T.
  - left. apply truthy_nonEmpty in T as (x & -> & Hx). exists x. split; [exact Hx | reflexivity].
  - right. split.
    + destruct (String.eqb_spec (c_code concept) "") as [Hc|Hc]; [exact Hc|].
      discriminate (Hcode Hc).
    + unfold bind, ret. now rewrite addError_run.
Qed.

(** X5. [getEnumMemberName] gives every concept that has a code a name, the
    formatted form of a candidate that is not empty, and records nothing; it
    returns no name only for a concept without a code, and then it has
    recorded the one error. A name that it returns does not start with a
    digit. *)
Theorem getEnumMemberName_total (system : option string) (concept : Concept) (s : State) :
  (c_code concept <> "" ->
   exists candidate, candidate <> ""
     /\ getEnumMemberName pascalCase system concept s
        = (s, Done (Some (formatName pascalCase candidate))))
  /\ (forall s' r, getEnumMemberName pascalCase system concept s = (s', r) ->
      (exists name, r = Done (Some name) /\ s' = s /\ Js.startsWithNumber name = false)
      \/ (r = Done None /\ c_code concept = ""
          /\ s' = fst (addError "Unable to determine name for value set concept." s))).
Proof.
  destruct (getEnumMemberName_cases system concept s)
    as [(candidate & Hne & ->)|(Hcode & ->)]; split.
  - intros _. eauto.
  - intros s' r [= <- <-]. left. eexists. split; [reflexivity|]. split; [reflexivity|].
    apply formatName_not_digit_led.
  - intros Hc. contradiction.
  - intros s' r [= <- <-]. right. auto.
Qed.

End Names.

(** ** Paths and profile URLs *)

Lemma prefix_append (p x : string) : String.prefix p (p +:+ x) = true.
Proof.
  induction p as [|a p IH]; [now destruct x|].
  rewrite append_cons. cbn [String.prefix].
  destruct (ascii_dec a a); [exact IH | contradiction].
Qed.

Lemma prefix_true (p s : string) :
  String.prefix p s = true -> s = p +:+ Js.substringFrom (String.length p) s.
Proof.
  revert s. induction p as [|a p IH]; intros s; [reflexivity|].
  destruct s as [|b s]; cbn [String.prefix]; [discriminate|].
  destruct (ascii_dec a b) as [->|]; [|discriminate].
  intros H. rewrite append_cons. cbn [String.length Js.substringFrom].
  now rewrite <- (IH s H).
Qed.

Lemma substringFrom_append (p x : string) : Js.substringFrom (String.length p) (p +:+ x) = x.
Proof.
  induction p as [|a p IH]; [now destruct x|].
  rewrite append_cons. exact IH.
Qed.

Lemma length_append (a b : string) :
  String.length (a +:+ b) = String.length a + String.length b.
Proof. induction a as [|c a IH]; [reflexivity|]. rewrite append_cons. simpl. now rewrite IH. Qed.

Lemma append_cancel_r (a b c : string) :
  a +:+ c = b +:+ c -> String.length a = String.length b -> a = b.
Proof.
  revert b. induction a as [|x a IH]; intros [|y b] H L; try discriminate L; [reflexivity|].
  rewrite !append_cons in H. injection H as -> H. f_equal. apply IH; [exact H|].
  simpl in L. lia.
Qed.

Lemma indexOf_prefix (p x : string) : Js.indexOf p (p +:+ x) = Some 0.
Proof. unfold Js.indexOf. rewrite indexOfFrom_unfold, prefix_append. reflexivity. Qed.

(** The first occurrence that [indexOf] finds cuts the string in three. *)
Lemma indexOfFrom_Some (sub s : string) (i j : nat) :
  Js.indexOfFrom sub s i = Some j ->
  exists pre post, s = pre +:+ sub +:+ post /\ j = i + String.length pre.
Proof.
  revert i j. induction s as [|a s IH]; intros i j; rewrite indexOfFrom_unfold.
  - destruct (String.prefix sub "") eqn:P; [|discriminate]. intros [= <-].
    exists "", (Js.substringFrom (String.length sub) ""). split; [|simpl; lia].
    rewrite append_empty_l. now apply prefix_true.
  - destruct (String.prefix sub (String a s)) eqn:P.
    + intros [= <-]. exists "", (Js.substringFrom (String.length sub) (String a s)).
      split; [|simpl; lia]. rewrite append_empty_l. now apply prefix_true.
    + intros H. destruct (IH _ _ H) as (pre & post & -> & ->).
      exists (String a pre), post. split; [now rewrite append_cons | simpl; lia].
Qed.

(** X6. [getResourceNameFromProfile] gives back the name that was put behind
    the base of the profile URLs, and records nothing; for a URL without the
    base it records one error and returns nothing. *)
Theorem getResourceNameFromProfile_round_trip (name profile : string) (s : State) :
  getResourceNameFromProfile (profileBase +:+ name) s = (s, Done (Some name))
  /\ (Js.indexOf profileBase profile = None ->
      getResourceNameFromProfile profile s
      = (setResultErrors
           (fun es => es ++ [errorPrefix s +:+ "Unrecognized profile uri: '" +:+ profile +:+ "'."])
           s,
         Done None)).
Proof.
  unfold getResourceNameFromProfile. split.
  - rewrite indexOf_prefix, substringFrom_append. reflexivity.
  - intros ->. unfold bind. rewrite addError_run. reflexivity.
Qed.

Lemma lastPart_snoc (l : list string) (x : string) : Js.lastPart (l ++ [x]) = Some x.
Proof. unfold Js.lastPart. rewrite map_app. simpl. apply last_last. Qed.

(** X7. [getPropertyName] gives the segment of the path behind its last dot,
    and the path itself when there is no dot in it; only the empty path has
    no property name. *)
Theorem getPropertyName_last_segment (pre last : string) :
  Js.indexOf "." last = None ->
  getPropertyName (pre +:+ "." +:+ last) = Some last
  /\ (last <> "" -> getPropertyName last = Some last)
  /\ getPropertyName "" = None.
Proof.
  intros Hlast. pose proof (split_without_separator "." last Hlast) as Hsplit.
  split; [|split; [|reflexivity]].
  - unfold getPropertyName.
    change ("." +:+ last) with (String "." last).
    replace (String.eqb (pre +:+ String "." last) "") with false.
    2:{ symmetry. apply String.eqb_neq. destruct pre; discriminate. }
    rewrite split_append_last by exact Hsplit. apply lastPart_snoc.
  - intros Hne. unfold getPropertyName. apply String.eqb_neq in Hne. rewrite Hne, Hsplit.
    reflexivity.
Qed.

Lemma indexOf_dollar_cons (a : ascii) (r : string) :
  Js.indexOf "$" (String a r) = None -> a <> "$"%char /\ Js.indexOf "$" r = None.
Proof.
  unfold Js.indexOf. rewrite indexOfFrom_unfold. cbn [String.prefix].
  destruct (ascii_dec "$" a) as [<-|Hne].
  - replace (String.prefix "" r) with true by (now destruct r). discriminate.
  - rewrite indexOfFrom_shift. destruct (Js.indexOfFrom "$" r 0); [discriminate|].
    intros _. split; congruence.
Qed.

(** A replacement text without a dollar sign stands for itself. *)
Lemma expandReplacement_plain (matched before after rep : string) :
  Js.indexOf "$" rep = None -> Js.expandReplacement matched before after rep = rep.
Proof.
  induction rep as [|a r IH]; [reflexivity|]. intros H.
  apply indexOf_dollar_cons in H as [Ha Hr]. cbn [Js.expandReplacement].
  destruct (Ascii.eqb_spec a "$"); [contradiction|]. now rewrite IH.
Qed.

Lemma replaceFrom_first (pat rep : string) :
  Js.indexOf "$" rep = None ->
  forall s before k,
    Js.indexOfFrom pat s 0 = Some k ->
    exists pre post,
      s = pre +:+ pat +:+ post /\ String.length pre = k
      /\ Js.replaceFrom pat rep before s = Some ((before +:+ pre) +:+ rep +:+ post).
Proof.
  intros Hrep. induction s as [|a s IH]; intros before k.
  - rewrite indexOfFrom_unfold. cbn [Js.replaceFrom].
    destruct (String.prefix pat "") eqn:P; [|discriminate]. intros [= <-].
    exists "", (Js.substringFrom (String.length pat) "").
    split; [rewrite append_empty_l; now apply prefix_true|]. split; [reflexivity|].
    now rewrite expandReplacement_plain, append_empty_r.
  - rewrite indexOfFrom_unfold. cbn [Js.replaceFrom].
    destruct (String.prefix pat (String a s)) eqn:P.
    + intros [= <-]. exists "", (Js.substringFrom (String.length pat) (String a s)).
      split; [rewrite append_empty_l; now apply prefix_true|]. split; [reflexivity|].
      now rewrite expandReplacement_plain, append_empty_r.
    + rewrite indexOfFrom_shift.
      destruct (Js.indexOfFrom pat s 0) as [k'|] eqn:E; [|discriminate]. intros [= <-].
      destruct (IH (before +:+ String a "") k' eq_refl) as (pre & post & -> & Hlen & Hrun).
      exists (String a pre), post. split; [now rewrite append_cons|].
      split; [simpl; now rewrite Hlen|].
      rewrite Hrun. f_equal. rewrite !append_assoc. reflexivity.
Qed.

Section PolymorphicNames.

Variable pascalCase : string -> string.

(** X8. A property name passes the test for a polymorphic element only when
    it is a base that is not empty followed by the marker [[x]], with no
    earlier [[x]] in it; and the name of the property for a type option is
    then the base followed by the pascal-cased type name (which, as text that
    replaces the marker, must hold no dollar sign). *)
Theorem polymorphic_name_is_base_and_marker (propertyName : string) :
  isPolymorphicName propertyName = true ->
  exists base,
    base <> "" /\ propertyName = base +:+ "[x]"
    /\ Js.indexOf "[x]" propertyName = Some (String.length base)
    /\ forall typeName,
         Js.indexOf "$" (pascalCase (default "" typeName)) = None ->
         combinePropertyNameWithType pascalCase propertyName typeName
         = base +:+ pascalCase (default "" typeName).
Proof.
  unfold isPolymorphicName. intros H. apply andb_prop in H as [Hlen Hidx].
  apply Nat.ltb_lt in Hlen.
  destruct (Js.indexOf "[x]" propertyName) as [k|] eqn:E; [|discriminate].
  cbn [optEqb] in Hidx. apply Nat.eqb_eq in Hidx. subst k.
  pose proof E as E'. unfold Js.indexOf in E'.
  destruct (indexOfFrom_Some _ _ _ _ E') as (pre & post & Hn & Hk).
  assert (Hpost : post = "").
  { apply (f_equal String.length) in Hn. rewrite !length_append in Hn. simpl in Hn.
    destruct post; [reflexivity|]. simpl in Hn. lia. }
  subst post. rewrite append_empty_r in Hn.
  exists pre. split.
  { intros ->. subst propertyName. simpl in Hlen. lia. }
  split; [exact Hn|]. split.
  { f_equal. lia. }
  intros typeName Hplain. unfold combinePropertyNameWithType, Js.replace.
  destruct (replaceFrom_first "[x]" _ Hplain propertyName "" _ E')
    as (pre' & post' & Hn' & Hlen' & ->).
  assert (Hpost' : post' = "").
  { apply (f_equal String.length) in Hn'. rewrite !length_append in Hn'. simpl in Hn'.
    destruct post'; [reflexivity|]. simpl in Hn'. lia. }
  subst post'. rewrite append_empty_r in Hn'. rewrite append_empty_l, append_empty_r.
  f_equal. rewrite Hn in Hn'. symmetry.
  apply (append_cancel_r _ _ _ Hn'). lia.
Qed.

End PolymorphicNames.

(** ** Documents that no processor handles, and documents that are no seeds *)

Section Unhandled.

Variable pascalCase : string -> string.

Lemma errorPrefix_enterBody key s file :
  lookupFile key (files s) = Some file ->
  errorPrefix (enterBody key s) = f_filename file +:+ ": ".
Proof.
  intros H. unfold errorPrefix, enterBody. simpl.
  rewrite (lookupFile_updateFile_eq _ _ _ _ H). reflexivity.
Qed.

Lemma processByResourceType_unhandled pf fuel key s file content msg :
  lookupFile key (files s) = Some file -> f_content file = Some content ->
  unhandledMessage content = Some msg ->
  processByResourceType pascalCase pf fuel content key s = addError msg s.
Proof.
  intros Hfile Hc. unfold unhandledMessage, processByResourceType. cbv zeta.
  destruct (Js.isStr (ct_resourceType content) "ValueSet"); [discriminate|].
  destruct (Js.isStr (ct_resourceType content) "CodeSystem") eqn:C; [discriminate|].
  cbn [orb].
  destruct (Js.isStr (ct_resourceType content) "StructureDefinition").
  - unfold processStructureDefinition, bind, getFile. rewrite Hfile, Hc. cbv zeta.
    destruct (Js.isStr (ct_kind content) "resource"); [discriminate|]. cbn [orb].
    destruct (_ || _)%bool; [discriminate|]. now intros [= <-].
  - now intros [= <-].
Qed.

(** X9. A document that no processor handles, because its resource type is
    not one of the three or because it is a structure definition of an
    unknown kind, is still visited: [processFile] records the one error under
    the filename of the document, marks the document queued and processed,
    gives it no type and leaves everything else as it was. *)
Theorem unhandled_document_is_reported (fuel : nat) (key : string) (s : State)
    (file : SpecificationFile) (content : Content) (msg : string) :
  lookupFile key (files s) = Some file -> visitState file = Unvisited ->
  f_content file = Some content -> unhandledMessage content = Some msg ->
  processFile pascalCase (S fuel) key s
  = (mkState (updateFile key markProcessed (updateFile key markQueued (files s)))
             (typeHeap s) (memberHeap s) (arrayHeap s) (typesByName s) (resultTypes s)
             (resultErrors s ++ [f_filename file +:+ ": " +:+ msg])
             (currentFile s) (bodyLog s ++ [key]) (flagged s),
     Done tt)
  /\ lookupFile key (files (fst (processFile pascalCase (S fuel) key s)))
     = Some (markProcessed (markQueued file)).
Proof.
  intros Hfile Hv Hc Hmsg. unfold visitState in Hv.
  destruct (f_processed file) eqn:Hp; [discriminate|].
  destruct (f_queued file) eqn:Hq; [discriminate|]. clear Hv.
  assert (Hrun : processFile pascalCase (S fuel) key s
                 = (mkState (updateFile key markProcessed (updateFile key markQueued (files s)))
                      (typeHeap s) (memberHeap s) (arrayHeap s) (typesByName s) (resultTypes s)
                      (resultErrors s ++ [f_filename file +:+ ": " +:+ msg])
                      (currentFile s) (bodyLog s ++ [key]) (flagged s),
                    Done tt)).
  { cbn [processFile].
    rewrite (processFileBody_enter pascalCase _ _ key s file content Hfile Hc Hp Hq).
    assert (Hfile' : lookupFile key (files (enterBody key s)) = Some (markQueued file)).
    { unfold enterBody. simpl. now apply lookupFile_updateFile_eq. }
    rewrite (processByResourceType_unhandled _ _ key _ (markQueued file) content msg Hfile' Hc Hmsg).
    rewrite addError_run, (errorPrefix_enterBody key s file Hfile), append_assoc.
    reflexivity. }
  split; [exact Hrun|]. rewrite Hrun. cbn [fst files].
  apply lookupFile_updateFile_eq. now apply lookupFile_updateFile_eq.
Qed.

(** X10. [processFiles] starts only from the resources that are not
    constrained types. On a map without such a document (value sets, code
    systems and data types alone, or no document at all) it returns no type
    and no error and visits nothing, provided that no document of the map
    has the key [hasOwnProperty]. On a map with a document under that key,
    whatever else it holds, the call [files.hasOwnProperty(id)] of the loop
    throws at the first key, before any document is visited. *)
Theorem no_seed_no_output (fuel : nat) (s : State) :
  (forall k f, lookupFile k (files s) = Some f -> isSeed f = false) ->
  (lookupFile "hasOwnProperty" (files s) = None ->
   processFilesOn pascalCase fuel s = (enterProcessFiles s, Done tt)
   /\ resultTypes (fst (processFilesOn pascalCase fuel s)) = []
   /\ resultErrors (fst (processFilesOn pascalCase fuel s)) = []
   /\ files (fst (processFilesOn pascalCase fuel s)) = files s)
  /\ (forall f, lookupFile "hasOwnProperty" (files s) = Some f ->
      processFilesOn pascalCase fuel s = (enterProcessFiles s, Raise "TypeError")).
Proof.
  intros Hseed. split.
  - intros Hown.
    assert (Hrun : processFilesOn pascalCase fuel s = (enterProcessFiles s, Done tt)).
    { unfold processFilesOn. apply seedLoop_all_referenced; [intros _; exact Hown|].
      intros k Hk. simpl.
      destruct (proj2 (lookupFile_keys k (files s)) Hk) as [f Hf].
      exists f. split; [exact Hf|]. intros E. rewrite (Hseed k f Hf) in E. discriminate. }
    rewrite Hrun. repeat split.
  - intros f Hf. unfold processFilesOn.
    destruct (map fst (files s)) as [|k keys] eqn:Hkeys.
    + assert (Hin : "hasOwnProperty" ∈ map fst (files s)) by (apply lookupFile_keys; eauto).
      rewrite Hkeys in Hin. inversion Hin.
    + now apply (seedLoop_own_hasOwnProperty pascalCase fuel k keys (enterProcessFiles s) f).
Qed.

(** X11. [processFiles] never edits, adds or removes a document: after a run,
    whatever its outcome, the map has the same keys in the same order, and
    every document has the id, the filename and the content it had; a flag
    that was set is still set. *)
Theorem documents_are_only_flagged (fuel : nat) (s : State) :
  let s' := fst (processFilesOn pascalCase fuel s) in
  map fst (files s') = map fst (files s)
  /\ forall k f, lookupFile k (files s) = Some f ->
       exists f', lookupFile k (files s') = Some f'
                  /\ f_id f' = f_id f /\ f_filename f' = f_filename f
                  /\ f_content f' = f_content f
                  /\ (f_queued f = true -> f_queued f' = true)
                  /\ (f_processed f = true -> f_processed f' = true)
                  /\ (f_referenced f = true -> f_referenced f' = true).
Proof.
  intros s'. pose proof (processFilesOn_extends pascalCase fuel s) as E. split.
  - apply (ext_keys _ _ E).
  - intros k f Hf. destruct (ext_files _ _ E k f Hf) as (f' & Hf' & X).
    exists f'. split; [exact Hf' | exact X].
Qed.

Lemma addTypeToResults_resultTypes tid s s' :
  addTypeToResults tid s = (s', Done tt) -> resultTypes s' = resultTypes s ++ [tid].
Proof.
  unfold addTypeToResults, bind, getType, gets, modify, ret.
  destruct (typeHeap s !! tid) as [node|]; [|discriminate].
  destruct (t_name node) as [name|]; [|now intros [= <-]].
  destruct (String.eqb name ""); [now intros [= <-]|].
  destruct (readIndex name s); [|now intros [= <-]].
  rewrite addError_run. now intros [= <-].
Qed.

(** X12. [referenceFile] emits a document once, and last. A call that
    completes on a document that was not referenced yet runs [processFile] on
    it and then appends the type of the document, if it got one, behind all
    that the processing has appended to the output; the document is
    referenced from then on, and any later call on it does nothing. *)
Theorem referenceFile_emits_once_and_last (fuel fuel' : nat) (key : string) (s s' : State)
    (file : SpecificationFile) :
  lookupFile key (files s) = Some file -> f_referenced file = false ->
  referenceFile (processFile pascalCase fuel) key s = (s', Done tt) ->
  (exists s1 file1 emitted,
     processFile pascalCase fuel key (setFiles (updateFile key markReferenced) s)
     = (s1, Done tt)
     /\ lookupFile key (files s1) = Some file1
     /\ resultTypes s1 = resultTypes s ++ emitted
     /\ resultTypes s'
        = resultTypes s ++ emitted
          ++ match f_type file1 with Some tid => [tid] | None => [] end)
  /\ (exists f', lookupFile key (files s') = Some f' /\ f_referenced f' = true)
  /\ referenceFile (processFile pascalCase fuel') key s' = (s', Done tt).
Proof.
  intros Hfile Href Hrun.
  destruct (referenceFile_marks _ key s s' (Respects_processFile pascalCase fuel) Hrun)
    as (f' & Hf' & Hr').
  split; [|split; [eauto | now apply (referenceFile_referenced _ key s' f')]].
  rewrite (referenceFile_run _ key s file Hfile Href) in Hrun.
  pose proof (Respects_processFile pascalCase fuel key
                (setFiles (updateFile key markReferenced) s)) as [E _].
  destruct (processFile pascalCase fuel key _) as [s1 [[]|e|]] eqn:Hp; try discriminate Hrun.
  cbn [fst] in E. destruct (ext_types _ _ E) as [emitted Ht]. simpl in Ht.
  destruct (lookupFile key (files s1)) as [file1|] eqn:H1; [|discriminate Hrun].
  exists s1, file1, emitted. split; [reflexivity|]. split; [exact H1|].
  split; [exact Ht|].
  destruct (f_type file1) as [tid|].
  - rewrite (addTypeToResults_resultTypes _ _ _ Hrun), Ht, app_assoc. reflexivity.
  - injection Hrun as <-. now rewrite Ht, app_nil_r.
Qed.

End Unhandled.

(** ** Invariants of a run

    A preorder on states that the writes of the resolver follow is followed
    by every function of the resolver, and so by a whole run. *)

Section Stepwise.

Variable R : State -> State -> Prop.
Context `{!PreOrder R}.

Lemma Steps_ret {A} (a : A) : Steps R (ret a).
Proof. intros s. reflexivity. Qed.

Lemma Steps_raise {A} e : Steps R (@raise A e).
Proof. intros s. reflexivity. Qed.

Lemma Steps_typeError {A} : Steps R (@typeError A).
Proof. intros s. reflexivity. Qed.

Lemma Steps_referenceError {A} : Steps R (@referenceError A).
Proof. intros s. reflexivity. Qed.

Lemma Steps_outOfFuel {A} : Steps R (@outOfFuel A).
Proof. intros s. reflexivity. Qed.

Lemma Steps_gets {A} (g : State -> A) : Steps R (gets g).
Proof. intros s. reflexivity. Qed.

Lemma Steps_bind {A B} (m : M A) (k : A -> M B) :
  Steps R m -> (forall a, Steps R (k a)) -> Steps R (bind m k).
Proof.
  intros Hm Hk s. unfold bind. specialize (Hm s).
  destruct (m s) as [s1 [a|e|]]; simpl in *; [|assumption..].
  etrans; [exact Hm | apply Hk].
Qed.

Lemma Steps_forEach {A} (l : list A) (body : A -> M unit) :
  (forall x, Steps R (body x)) -> Steps R (forEach l body).
Proof.
  intros Hb. induction l as [|x l IH]; simpl; [apply Steps_ret | apply Steps_bind; auto].
Qed.

Lemma Steps_modify (g : State -> State) : (forall s, R s (g s)) -> Steps R (modify g).
Proof. intros H s. apply H. Qed.

Lemma Steps_getFile key : Steps R (getFile key).
Proof. intros s. unfold getFile. destruct (lookupFile key (files s)); reflexivity. Qed.

Lemma Steps_getType tid : Steps R (getType tid).
Proof. intros s. unfold getType. destruct (typeHeap s !! tid); reflexivity. Qed.

Lemma Steps_getMember mid : Steps R (getMember mid).
Proof. intros s. unfold getMember. destruct (memberHeap s !! mid); reflexivity. Qed.

Lemma Steps_getArray aid : Steps R (getArray aid).
Proof. intros s. unfold getArray. destruct (arrayHeap s !! aid); reflexivity. Qed.

End Stepwise.

Create HintDb steps.

#[local] Hint Resolve Steps_ret Steps_raise Steps_typeError Steps_referenceError
  Steps_outOfFuel Steps_gets Steps_getFile Steps_getType Steps_getMember Steps_getArray
  : steps.

Ltac steps_step :=
  first
    [ solve [eauto with steps]
    | lazymatch goal with
      | |- Steps _ (bind _ _) => simple apply Steps_bind; [exact _| |intros ?]
      | |- Steps _ (forEach _ _) => simple apply Steps_forEach; [exact _|intros ?]
      | |- Steps _ (match ?x with _ => _ end) => destruct x eqn:?
      | |- Steps _ (let _ := _ in _) => cbv zeta
      end ].

Ltac steps := repeat steps_step.

(** [referenceFile] on an inherited value, for a relation that the setting
    of a flag moves the state along. *)
Lemma Steps_referenceInherited (R : State -> State -> Prop) `{!PreOrder R} :
  (forall name, Steps R (modify (setFlagged (fun names => names ++ [name])))) ->
  (forall key, Steps R (modifyFile key markReferenced)) ->
  forall name, Steps R (referenceInherited name).
Proof. intros Hflag Hmark name. unfold referenceInherited. steps. Qed.

(** The functions that write the member heap and the member arrays only. *)
Section MemberSteps.

Variable pascalCase : string -> string.
Variable R : State -> State -> Prop.
Context `{!PreOrder R}.
Hypothesis R_error : forall msg, Steps R (addError msg).
Hypothesis R_allocMember : forall m, Steps R (allocMember m).
Hypothesis R_setMemberName : forall mid n, Steps R (setMemberName mid n).
Hypothesis R_allocArray : forall a, Steps R (allocArray a).
Hypothesis R_pushArray : forall aid mid, Steps R (pushArray aid mid).

#[local] Hint Resolve R_error R_allocMember R_setMemberName R_allocArray
  R_pushArray : steps.

Lemma Steps_getMembers mids : Steps R (getMembers mids).
Proof. induction mids; simpl; steps. Qed.

Lemma Steps_findDuplicate name mids : Steps R (findDuplicate name mids).
Proof. induction mids; simpl; steps. Qed.

#[local] Hint Resolve Steps_getMembers Steps_findDuplicate : steps.

Lemma Steps_getDuplicate m a : Steps R (getDuplicate m a).
Proof. unfold getDuplicate. steps. Qed.

#[local] Hint Resolve Steps_getDuplicate : steps.

Lemma Steps_suffixLoop budget o num m a : Steps R (suffixLoop budget o num m a).
Proof. revert num. induction budget; intros num; simpl; steps. Qed.

#[local] Hint Resolve Steps_suffixLoop : steps.

Lemma Steps_suffixFallback o m a : Steps R (suffixFallback o m a).
Proof. unfold suffixFallback. steps. Qed.

#[local] Hint Resolve Steps_suffixFallback : steps.

Lemma Steps_adjustMemberName m a : Steps R (adjustMemberName pascalCase m a).
Proof. unfold adjustMemberName. steps. Qed.

Lemma Steps_getEnumMemberName system concept :
  Steps R (getEnumMemberName pascalCase system concept).
Proof. unfold getEnumMemberName. steps. Qed.

#[local] Hint Resolve Steps_getEnumMemberName : steps.

Lemma Steps_processConcepts concepts caseSensitive system :
  Steps R (processConcepts pascalCase concepts caseSensitive system).
Proof. unfold processConcepts. steps. Qed.

End MemberSteps.


(** The whole resolver, over the writes that it is made of. *)
Section ResolverSteps.

Variable pascalCase : string -> string.
Variable R : State -> State -> Prop.
Context `{!PreOrder R}.
Hypothesis R_modifyFile :
  forall key g, (forall f, fileExtends f (g f)) -> Steps R (modifyFile key g).
Hypothesis R_allocType : forall t, Steps R (allocType t).
Hypothesis R_modifyType :
  forall tid g, (forall t, t_name (g t) = t_name t) -> Steps R (modifyType tid g).
Hypothesis R_allocArray : forall a, Steps R (allocArray a).
Hypothesis R_pushArray : forall aid mid, Steps R (pushArray aid mid).
Hypothesis R_error : forall msg, Steps R (addError msg).
Hypothesis R_log : forall g, Steps R (modify (setBodyLog g)).
Hypothesis R_current : forall c, Steps R (modify (setCurrentFile c)).
Hypothesis R_inherited : forall name, Steps R (referenceInherited name).
Hypothesis R_addTypeToResults : forall tid, Steps R (addTypeToResults tid).
Hypothesis R_processConcepts :
  forall concepts caseSensitive system,
    Steps R (processConcepts pascalCase concepts caseSensitive system).
Hypothesis R_adjustMemberName : forall m a, Steps R (adjustMemberName pascalCase m a).

Lemma Steps_setFileType key tid : Steps R (setFileType key tid).
Proof. apply R_modifyFile, fileExtends_withType. Qed.

Lemma Steps_setSymbol key symbol : Steps R (setSymbol key symbol).
Proof. apply R_modifyFile, fileExtends_withSymbol. Qed.

Lemma Steps_markQueued key : Steps R (modifyFile key markQueued).
Proof. apply R_modifyFile, fileExtends_markQueued. Qed.

Lemma Steps_markProcessed key : Steps R (modifyFile key markProcessed).
Proof. apply R_modifyFile, fileExtends_markProcessed. Qed.

Lemma Steps_markReferenced key : Steps R (modifyFile key markReferenced).
Proof. apply R_modifyFile, fileExtends_markReferenced. Qed.

Lemma Steps_setDescription tid d : Steps R (setDescription tid d).
Proof. apply R_modifyType. reflexivity. Qed.

Lemma Steps_setBaseType tid b : Steps R (setBaseType tid b).
Proof. apply R_modifyType. reflexivity. Qed.

Lemma Steps_setProperties tid g : Steps R (setProperties tid g).
Proof. apply R_modifyType. reflexivity. Qed.

#[local] Hint Resolve R_allocType R_allocArray R_pushArray R_error R_log
  R_current R_inherited R_addTypeToResults R_processConcepts R_adjustMemberName
  Steps_setFileType Steps_setSymbol Steps_markQueued Steps_markProcessed
  Steps_markReferenced Steps_setDescription Steps_setBaseType
  Steps_setProperties : steps.

Lemma Steps_readMembers mids : Steps R (getMembers mids).
Proof. induction mids; simpl; steps. Qed.

#[local] Hint Resolve Steps_readMembers : steps.

Lemma Steps_processCodeSystem key : Steps R (processCodeSystem pascalCase key).
Proof. unfold processCodeSystem. steps. Qed.

Lemma Steps_membersOf tid : Steps R (membersOf tid).
Proof. unfold membersOf. steps. Qed.

Lemma Steps_getResourceNameFromProfile p : Steps R (getResourceNameFromProfile p).
Proof. unfold getResourceNameFromProfile. steps. Qed.

Lemma Steps_processPrimitive key : Steps R (processPrimitive key).
Proof. unfold processPrimitive. steps. Qed.

Lemma Steps_stripArrays t : Steps R (stripArrays t).
Proof.
  revert t. fix IH 1. intros [n b|[e|]|ts]; simpl; [steps| |steps..].
  apply IH.
Qed.

Lemma Steps_addProperty c e n t o : Steps R (addProperty c e n t o).
Proof. unfold addProperty. steps. Qed.

Lemma Steps_backfill t n p prop : Steps R (backfill t n p prop).
Proof. unfold backfill. steps. Qed.

#[local] Hint Resolve Steps_processCodeSystem Steps_membersOf
  Steps_getResourceNameFromProfile Steps_processPrimitive Steps_stripArrays
  Steps_addProperty Steps_backfill : steps.

Lemma Steps_polymorphicLoop c e pn refs lp ln :
  Steps R (polymorphicLoop pascalCase c e pn refs lp ln).
Proof. revert lp ln. induction refs; intros lp ln; simpl; steps. Qed.

Lemma Steps_combineMembers tm members : Steps R (combineMembers pascalCase tm members).
Proof. unfold combineMembers. steps. Qed.

#[local] Hint Resolve Steps_polymorphicLoop Steps_combineMembers : steps.

Section OpenSteps.

Variable processFile : string -> M unit.
Variable fuel : nat.
Hypothesis processFile_steps : forall key, Steps R (processFile key).

#[local] Hint Resolve processFile_steps : steps.

Lemma Steps_referenceFile key : Steps R (referenceFile processFile key).
Proof. unfold referenceFile. steps. Qed.

#[local] Hint Resolve Steps_referenceFile : steps.

Lemma Steps_referenceValue file : Steps R (referenceValue processFile file).
Proof. unfold referenceValue. steps. Qed.

#[local] Hint Resolve Steps_referenceValue : steps.

Lemma Steps_substituteCodes url members :
  Steps R (substituteCodesFromOriginalSystem processFile url members).
Proof. unfold substituteCodesFromOriginalSystem. steps. Qed.

Lemma Steps_processFilter url filter members :
  Steps R (processFilter processFile url filter members).
Proof. unfold processFilter. steps. Qed.

Lemma Steps_processImport url : Steps R (processImport processFile url).
Proof. unfold processImport. steps. Qed.

#[local] Hint Resolve Steps_substituteCodes Steps_processFilter Steps_processImport : steps.

Lemma Steps_processInclude tm include :
  Steps R (processInclude pascalCase processFile tm include).
Proof. unfold processInclude, processValueSetComposeInclude. steps. Qed.

#[local] Hint Resolve Steps_processInclude : steps.

Lemma Steps_processValueSet key : Steps R (processValueSet pascalCase processFile key).
Proof. unfold processValueSet. steps. Qed.

Lemma Steps_getTypeByName name : Steps R (getTypeByName processFile name).
Proof. unfold getTypeByName. steps. Qed.

#[local] Hint Resolve Steps_processValueSet Steps_getTypeByName : steps.

Lemma Steps_hasBaseInterfaceLoop budget baseType name :
  Steps R (hasBaseInterfaceLoop processFile budget baseType name).
Proof. revert baseType. induction budget; intros [[tid|inherited]|]; simpl; steps. Qed.

#[local] Hint Resolve Steps_hasBaseInterfaceLoop : steps.

Lemma Steps_getReferencedType t category :
  Steps R (getReferencedType processFile t category).
Proof. unfold getReferencedType. steps. Qed.

#[local] Hint Resolve Steps_getReferencedType : steps.

Lemma Steps_getContainingTypeForPath parent path :
  Steps R (getContainingTypeForPath processFile parent path).
Proof.
  revert parent. induction path as [|p path IH]; intros parent.
  - simpl. steps.
  - destruct path as [|q path]; [simpl; steps|].
    change (Steps R (
      let propertyName := head (p :: q :: path) in
      let* parentNode := getType parent in
      match t_properties parentNode with
      | None => typeError
      | Some props =>
          match getProperty props propertyName with
          | None =>
              addError ("Could not find property '" +:+ Js.showUndefined propertyName
                        +:+ "' on type '" +:+ Js.showUndefined (t_name parentNode) +:+ "'.") >>
              ret None
          | Some property =>
              let* currentType := getReferencedType processFile (Some (p_type property)) None in
              match currentType with
              | None => ret None
              | Some (Named tid) =>
                  let* node := getType tid in
                  if isObjectKind (t_kind node) then
                    getContainingTypeForPath processFile tid (q :: path)
                  else
                    addError ("Expected property '" +:+ Js.showUndefined propertyName
                              +:+ "' to reference an object type.") >>
                    ret None
              | Some (Inline _) | Some (ForeignType _) =>
                  addError ("Expected property '" +:+ Js.showUndefined propertyName
                            +:+ "' to reference an object type.") >>
                  ret None
              end
          end
      end)).
    steps.
Qed.

#[local] Hint Resolve Steps_getContainingTypeForPath : steps.

Lemma Steps_getContainingTypeForElement type element :
  Steps R (getContainingTypeForElement processFile fuel type element).
Proof. unfold getContainingTypeForElement, hasBaseInterface. steps. Qed.

Lemma Steps_findTypeOfFirstProperty budget :
  (forall type name checked,
     Steps R (findTypeOfFirstProperty processFile budget type name checked))
  /\ (forall type name i checked,
        Steps R (findInProperties processFile budget type name i checked)).
Proof.
  induction budget as [|budget [IH1 IH2]]; split; intros; simpl; steps.
Qed.

Lemma Steps_getFileForType name : Steps R (getFileForType processFile name).
Proof. unfold getFileForType. steps. Qed.

Lemma Steps_profileBinding profile : Steps R (profileBinding processFile profile).
Proof. unfold profileBinding. steps. Qed.

#[local] Hint Resolve Steps_getContainingTypeForElement Steps_getFileForType
  Steps_profileBinding : steps.

Lemma Steps_typeReferencesLoop remaining te result :
  Steps R (typeReferencesLoop processFile remaining te result).
Proof. revert te result. induction remaining; intros te result; simpl; steps. Qed.

#[local] Hint Resolve Steps_typeReferencesLoop : steps.

Lemma Steps_getTypeReferences types : Steps R (getTypeReferences processFile types).
Proof. unfold getTypeReferences. steps. Qed.

Lemma Steps_getBindingReference element :
  Steps R (getBindingReference pascalCase processFile element).
Proof. unfold getBindingReference. steps. Qed.

Lemma Steps_createSubType element base : Steps R (createSubType pascalCase element base).
Proof. unfold createSubType. steps. Qed.

#[local] Hint Resolve Steps_getTypeReferences Steps_getBindingReference
  Steps_createSubType : steps.

Lemma Steps_getPropertyTypeForElement root element :
  Steps R (getPropertyTypeForElement pascalCase processFile fuel root element).
Proof.
  unfold getPropertyTypeForElement.
  pose proof (proj1 (Steps_findTypeOfFirstProperty fuel)).
  steps.
Qed.

#[local] Hint Resolve Steps_getPropertyTypeForElement : steps.

Lemma Steps_elementLoop type elements :
  Steps R (elementLoop pascalCase processFile fuel type elements).
Proof. induction elements; simpl; steps. Qed.

#[local] Hint Resolve Steps_elementLoop : steps.

Lemma Steps_processTypeDefinition key :
  Steps R (processTypeDefinition pascalCase processFile fuel key).
Proof. unfold processTypeDefinition. steps. Qed.

#[local] Hint Resolve Steps_processTypeDefinition : steps.

Lemma Steps_processStructureDefinition key :
  Steps R (processStructureDefinition pascalCase processFile fuel key).
Proof. unfold processStructureDefinition, processResource, processType. steps. Qed.

#[local] Hint Resolve Steps_processStructureDefinition : steps.

Lemma Steps_processByResourceType content key :
  Steps R (processByResourceType pascalCase processFile fuel content key).
Proof. unfold processByResourceType. steps. Qed.

#[local] Hint Resolve Steps_processByResourceType : steps.

Lemma Steps_processFileBody key : Steps R (processFileBody pascalCase processFile fuel key).
Proof. unfold processFileBody. steps. Qed.

End OpenSteps.

Lemma Steps_processFile fuel key : Steps R (processFile pascalCase fuel key).
Proof.
  revert key. induction fuel as [|fuel IH]; intros key; simpl.
  - apply Steps_outOfFuel. exact _.
  - now apply Steps_processFileBody.
Qed.

Lemma Steps_seedLoop fuel keys : Steps R (seedLoop pascalCase fuel keys).
Proof.
  unfold seedLoop, isConstrainedType.
  pose proof (Steps_referenceFile (processFile pascalCase fuel) (Steps_processFile fuel)).
  steps.
Qed.

End ResolverSteps.

(** ** The name index and the output list *)

Create HintDb registry.

Section Registry.

Variable pascalCase : string -> string.

#[local] Instance keepsRegistry_preorder : PreOrder keepsRegistry.
Proof. split; [intros s H; exact H | intros s1 s2 s3 H1 H2 H; exact (H2 (H1 H))]. Qed.

Lemma find_ext_elem {A} (p q : A -> bool) (l : list A) :
  (forall x, x ∈ l -> p x = q x) -> List.find p l = List.find q l.
Proof.
  induction l as [|x l IH]; intros H; simpl; [reflexivity|].
  rewrite (H x) by left. destruct (q x); [reflexivity|].
  apply IH. intros y Hy. apply H. now right.
Qed.

Lemma inherits_flagged s s' :
  flagged s' = flagged s -> forall name, inherits s' name = inherits s name.
Proof. intros H name. unfold inherits, isPolluted. now rewrite H. Qed.

Lemma inherits_setFlagged s x name :
  inherits s name = true ->
  inherits (setFlagged (fun names => names ++ [x]) s) name = true.
Proof.
  unfold inherits, isPolluted. cbn [flagged setFlagged]. rewrite existsb_app.
  destruct (Prototype.isStandard name); [reflexivity|]. cbn [orb].
  intros H. apply andb_true_iff in H as [H1 H2]. now rewrite H1, H2.
Qed.

(** A write that keeps the length of the type heap and the names of its
    nodes, does not touch the index or the output list, and takes no name
    from the prototype. *)
Lemma keepsRegistry_names s s' :
  typesByName s' = typesByName s -> resultTypes s' = resultTypes s ->
  (forall i node, typeHeap s !! i = Some node ->
     exists node', typeHeap s' !! i = Some node' /\ t_name node' = t_name node) ->
  (forall name, inherits s name = true -> inherits s' name = true) ->
  keepsRegistry s s'.
Proof.
  intros Hi Ho Hn Hinh (Hvalid & Hempty & Hsound & Hfirst & Hstd). unfold registryInvariant.
  rewrite Hi, Ho.
  assert (Hsame : forall name,
            firstOutput (typeHeap s') (resultTypes s) name
            = firstOutput (typeHeap s) (resultTypes s) name).
  { intros name. unfold firstOutput.
    apply find_ext_elem. intros tid Htid. unfold hasName.
    destruct (Hvalid tid Htid) as [node Hnode].
    destruct (Hn tid node Hnode) as (node' & Hnode' & Hsame).
    now rewrite Hnode, Hnode', Hsame. }
  split; [|split; [exact Hempty|split; [|split; [|exact Hstd]]]].
  - intros tid Htid. destruct (Hvalid tid Htid) as [node Hnode].
    destruct (Hn tid node Hnode) as (node' & Hnode' & _). eauto.
  - intros name tid Hreg. rewrite Hsame. now apply Hsound.
  - intros name Hname Hnot. rewrite Hsame. apply Hfirst; [exact Hname|].
    destruct (inherits s name) eqn:E; [|reflexivity].
    rewrite (Hinh name E) in Hnot. discriminate.
Qed.

Lemma keepsRegistry_frame s s' :
  typeHeap s' = typeHeap s -> typesByName s' = typesByName s ->
  resultTypes s' = resultTypes s -> flagged s' = flagged s -> keepsRegistry s s'.
Proof.
  intros Hh Hi Ho Hf. apply keepsRegistry_names; [assumption..| |].
  - intros i node H. rewrite Hh. eauto.
  - intros name. now rewrite (inherits_flagged s s' Hf).
Qed.

Lemma Steps_registry_frame (g : State -> State) :
  (forall s, typeHeap (g s) = typeHeap s /\ typesByName (g s) = typesByName s
             /\ resultTypes (g s) = resultTypes s /\ flagged (g s) = flagged s) ->
  Steps keepsRegistry (modify g).
Proof. intros H s. destruct (H s) as (? & ? & ? & ?). now apply keepsRegistry_frame. Qed.

Lemma registry_addError msg : Steps keepsRegistry (addError msg).
Proof. intros s. rewrite addError_run. now apply keepsRegistry_frame. Qed.

Lemma registry_allocType t : Steps keepsRegistry (allocType t).
Proof.
  intros s. apply keepsRegistry_names; [reflexivity..| |trivial].
  intros i node H. exists node. split; [|reflexivity]. simpl. now apply lookup_app_l_Some.
Qed.

Lemma registry_modifyType tid g :
  (forall t, t_name (g t) = t_name t) -> Steps keepsRegistry (modifyType tid g).
Proof.
  intros Hg s. apply keepsRegistry_names; [reflexivity..| |trivial].
  intros i node H. simpl. destruct (decide (tid = i)) as [->|Hne].
  - exists (g node). rewrite list_lookup_alter_eq, H. split; [reflexivity | apply Hg].
  - exists node. rewrite list_lookup_alter_ne by assumption. split; [assumption | reflexivity].
Qed.

Lemma registry_flag name :
  Steps keepsRegistry (modify (setFlagged (fun names => names ++ [name]))).
Proof.
  intros s. apply keepsRegistry_names; [reflexivity..| |].
  - intros i node H. eauto.
  - intros n. apply inherits_setFlagged.
Qed.

Lemma find_snoc {A} (p : A -> bool) (l : list A) (x : A) :
  List.find p (l ++ [x])
  = match List.find p l with Some y => Some y | None => if p x then Some x else None end.
Proof.
  induction l as [|y l IH]; simpl; [reflexivity|]. destruct (p y); [reflexivity | exact IH].
Qed.

(** Registering a node keeps the index the first-wins index of the output. *)
Lemma registry_addTypeToResults tid : Steps keepsRegistry (addTypeToResults tid).
Proof.
  intros s (Hvalid & Hempty & Hsound & Hfirst & Hstd).
  unfold addTypeToResults, bind, getType.
  destruct (typeHeap s !! tid) as [node|] eqn:Hnode; [|repeat split; assumption].
  assert (Hkeep : forall name other,
            firstOutput (typeHeap s) (resultTypes s) name = Some other ->
            firstOutput (typeHeap s) (resultTypes s ++ [tid]) name = Some other).
  { intros name other H. unfold firstOutput in *. rewrite find_snoc. now rewrite H. }
  assert (Hother : forall name, t_name node <> Some name ->
            firstOutput (typeHeap s) (resultTypes s ++ [tid]) name
            = firstOutput (typeHeap s) (resultTypes s) name).
  { intros name Hne. unfold firstOutput. rewrite find_snoc.
    destruct (List.find _ (resultTypes s)); [reflexivity|].
    unfold hasName. rewrite Hnode.
    destruct (optEqb String.eqb (t_name node) (Some name)) eqn:Q; [|reflexivity].
    apply optEqb_string_eq in Q. contradiction. }
  assert (Hvalid' : forall i, i ∈ resultTypes s ++ [tid] -> is_Some (typeHeap s !! i)).
  { intros i Hi. apply elem_of_app in Hi as [Hi|Hi]; [now apply Hvalid|].
    apply list_elem_of_singleton in Hi. subst i. eauto. }
  (* the index is left as it is *)
  assert (Hpush : forall s1,
            typeHeap s1 = typeHeap s -> resultTypes s1 = resultTypes s ->
            typesByName s1 = typesByName s -> flagged s1 = flagged s ->
            (forall name, name <> "" -> inherits s name = false ->
               t_name node = Some name -> is_Some (typesByName s !! name)) ->
            registryInvariant (setResultTypes (fun ts => ts ++ [tid]) s1)).
  { intros s1 Hh Ho Hi Hf Htaken. unfold registryInvariant.
    cbn [typeHeap resultTypes typesByName setResultTypes]. rewrite Hh, Ho, Hi.
    split; [exact Hvalid'|]. split; [exact Hempty|].
    split; [|split; [|exact Hstd]].
    - intros name other Hreg. apply Hkeep. now apply Hsound.
    - intros name Hname Hnot.
      rewrite (inherits_flagged s (setResultTypes (fun ts => ts ++ [tid]) s1) Hf) in Hnot.
      destruct (decide (t_name node = Some name)) as [Heq|Hne].
      + destruct (Htaken name Hname Hnot Heq) as [other Hreg].
        rewrite Hreg. symmetry. apply Hkeep. now apply Hsound.
      + rewrite Hother by exact Hne. now apply Hfirst. }
  destruct (t_name node) as [name|] eqn:Hname.
  2:{ apply Hpush; try reflexivity. intros n _ _ [=]. }
  destruct (String.eqb_spec name "") as [->|Hne].
  { apply Hpush; try reflexivity. intros n Hn _ [= <-]. contradiction. }
  unfold gets. destruct (readIndex name s) as [other|] eqn:Hreg.
  - rewrite addError_run. apply Hpush; try reflexivity.
    intros n Hn Hnot [= <-]. unfold readIndex in Hreg.
    destruct (typesByName s !! name); [eauto|]. rewrite Hnot in Hreg. discriminate.
  - unfold readIndex in Hreg.
    destruct (typesByName s !! name) as [other|] eqn:Hown; [discriminate|].
    destruct (inherits s name) eqn:Hinh; [discriminate|].
    assert (Hfree : firstOutput (typeHeap s) (resultTypes s) name = None).
    { rewrite <- (Hfirst name Hne Hinh). exact Hown. }
    assert (Hnew : firstOutput (typeHeap s) (resultTypes s ++ [tid]) name = Some tid).
    { unfold firstOutput in *. rewrite find_snoc, Hfree.
      unfold hasName. rewrite Hnode, Hname. simpl. now rewrite String.eqb_refl. }
    unfold registryInvariant, modify.
    cbn [fst typeHeap resultTypes typesByName setResultTypes setTypesByName].
    split; [exact Hvalid'|]. split; [|split; [|split]].
    + rewrite lookup_insert_ne by congruence. exact Hempty.
    + intros n other. destruct (decide (n = name)) as [->|Hdiff].
      * rewrite lookup_insert_eq. intros [= <-]. exact Hnew.
      * rewrite lookup_insert_ne by congruence. intros H. apply Hkeep. now apply Hsound.
    + intros n Hn Hnot. destruct (decide (n = name)) as [->|Hdiff].
      * rewrite lookup_insert_eq. now rewrite Hnew.
      * rewrite lookup_insert_ne by congruence. rewrite Hother by congruence.
        apply Hfirst; [exact Hn | exact Hnot].
    + intros n Hn. destruct (decide (n = name)) as [->|Hdiff].
      * unfold inherits in Hinh. rewrite Hn in Hinh. discriminate.
      * rewrite lookup_insert_ne by congruence. now apply Hstd.
Qed.

Lemma registry_modifyFile key g : Steps keepsRegistry (modifyFile key g).
Proof. now apply Steps_registry_frame. Qed.

Lemma registry_allocMember m : Steps keepsRegistry (allocMember m).
Proof. intros s. now apply keepsRegistry_frame. Qed.

Lemma registry_setMemberName mid n : Steps keepsRegistry (setMemberName mid n).
Proof. now apply Steps_registry_frame. Qed.

Lemma registry_allocArray a : Steps keepsRegistry (allocArray a).
Proof. intros s. now apply keepsRegistry_frame. Qed.

Lemma registry_pushArray aid mid : Steps keepsRegistry (pushArray aid mid).
Proof. now apply Steps_registry_frame. Qed.

Lemma registry_log g : Steps keepsRegistry (modify (setBodyLog g)).
Proof. now apply Steps_registry_frame. Qed.

Lemma registry_current c : Steps keepsRegistry (modify (setCurrentFile c)).
Proof. now apply Steps_registry_frame. Qed.

Lemma registry_referenceInherited name : Steps keepsRegistry (referenceInherited name).
Proof.
  apply Steps_referenceInherited; [exact _ | exact registry_flag|].
  intros key. apply registry_modifyFile.
Qed.

#[local] Hint Resolve registry_addError registry_allocType registry_modifyType
  registry_addTypeToResults registry_modifyFile registry_allocMember
  registry_setMemberName registry_allocArray registry_pushArray registry_log
  registry_current registry_referenceInherited : registry.

Lemma registry_processFile fuel key : Steps keepsRegistry (processFile pascalCase fuel key).
Proof.
  apply Steps_processFile; try exact _; auto with registry.
  - intros. apply Steps_processConcepts; try exact _; auto with registry.
  - intros. apply Steps_adjustMemberName; try exact _; auto with registry.
Qed.

Lemma registry_seedLoop fuel keys : Steps keepsRegistry (seedLoop pascalCase fuel keys).
Proof.
  apply Steps_seedLoop; try exact _; auto with registry.
  - intros. apply Steps_processConcepts; try exact _; auto with registry.
  - intros. apply Steps_adjustMemberName; try exact _; auto with registry.
Qed.

Lemma registryInvariant_enterProcessFiles s : registryInvariant (enterProcessFiles s).
Proof.
  unfold registryInvariant. simpl. split; [|split; [|split; [|split]]].
  - intros tid H. inversion H.
  - apply lookup_empty.
  - intros name tid H. rewrite lookup_empty in H. discriminate.
  - intros name _ _. apply lookup_empty.
  - intros name _. apply lookup_empty.
Qed.

(** X13. The name index is the first-wins index of the output list, at every
    point of a run: an entry of it maps a name to the first node of the
    output list that has this name, every name of a node of the output list
    has an entry unless [Object.prototype] answers to it, it has no entry
    for the empty name nor for a name of the prototype, and every entry of
    the output list is a node. Every call of [processFile] keeps this,
    whatever its outcome, and it holds of the state in which [processFiles]
    ends. *)
Theorem registry_is_first_wins_index (fuel : nat) :
  (forall key s, registryInvariant s ->
                 registryInvariant (fst (processFile pascalCase fuel key s)))
  /\ (forall key s, registryInvariant s ->
        registryInvariant (fst (referenceFile (processFile pascalCase fuel) key s)))
  /\ (forall s, registryInvariant (fst (processFilesOn pascalCase fuel s)))
  /\ (forall s name tid,
        typesByName (fst (processFilesOn pascalCase fuel s)) !! name = Some tid ->
        tid ∈ resultTypes (fst (processFilesOn pascalCase fuel s))
        /\ exists node, typeHeap (fst (processFilesOn pascalCase fuel s)) !! tid = Some node
                        /\ t_name node = Some name).
Proof.
  assert (Hrun : forall s, registryInvariant (fst (processFilesOn pascalCase fuel s))).
  { intros s. unfold processFilesOn. apply registry_seedLoop.
    apply registryInvariant_enterProcessFiles. }
  split; [intros key s; apply registry_processFile|].
  split.
  { intros key s. apply Steps_referenceFile; try exact _; auto with registry.
    intros k. apply registry_processFile. }
  split; [exact Hrun|].
  intros s name tid Hreg. destruct (Hrun s) as (Hvalid & Hempty & Hsound & _).
  apply Hsound in Hreg. unfold firstOutput in Hreg.
  apply List.find_some in Hreg as [Hin Hhas]. split; [now apply list_elem_of_In|].
  unfold hasName in Hhas.
  destruct (typeHeap _ !! tid) as [node|]; [|discriminate].
  exists node. split; [reflexivity|]. now apply optEqb_string_eq.
Qed.

End Registry.

(** ** The names of enum members *)

Create HintDb names.

Section MemberNames.

Variable pascalCase : string -> string.

#[local] Instance keepsNames_preorder : PreOrder keepsNames.
Proof. split; [intros s H; exact H | intros s1 s2 s3 H1 H2 H; exact (H2 (H1 H))]. Qed.

Lemma keepsNames_frame s s' : memberHeap s' = memberHeap s -> keepsNames s s'.
Proof. intros H Hs. unfold wellNamed in *. now rewrite H. Qed.

Lemma Steps_names_frame (g : State -> State) :
  (forall s, memberHeap (g s) = memberHeap s) -> Steps keepsNames (modify g).
Proof. intros H s. apply keepsNames_frame. apply H. Qed.

Lemma names_addError msg : Steps keepsNames (addError msg).
Proof. intros s. rewrite addError_run. now apply keepsNames_frame. Qed.

Lemma names_modifyFile key g : Steps keepsNames (modifyFile key g).
Proof. now apply Steps_names_frame. Qed.

Lemma names_allocType t : Steps keepsNames (allocType t).
Proof. intros s. now apply keepsNames_frame. Qed.

Lemma names_modifyType tid g :
  (forall t, t_name (g t) = t_name t) -> Steps keepsNames (modifyType tid g).
Proof. intros _. now apply Steps_names_frame. Qed.

Lemma names_allocArray a : Steps keepsNames (allocArray a).
Proof. intros s. now apply keepsNames_frame. Qed.

Lemma names_pushArray aid mid : Steps keepsNames (pushArray aid mid).
Proof. now apply Steps_names_frame. Qed.

Lemma names_log g : Steps keepsNames (modify (setBodyLog g)).
Proof. now apply Steps_names_frame. Qed.

Lemma names_current c : Steps keepsNames (modify (setCurrentFile c)).
Proof. now apply Steps_names_frame. Qed.

Lemma names_flag name :
  Steps keepsNames (modify (setFlagged (fun names => names ++ [name]))).
Proof. now apply Steps_names_frame. Qed.

Lemma names_addTypeToResults tid : Steps keepsNames (addTypeToResults tid).
Proof.
  intros s. apply keepsNames_frame.
  unfold addTypeToResults, bind, getType, gets.
  destruct (typeHeap s !! tid) as [node|]; [|reflexivity].
  destruct (t_name node) as [name|]; [|reflexivity].
  destruct (String.eqb name ""); [reflexivity|].
  destruct (readIndex name s); [|reflexivity].
  now rewrite addError_run.
Qed.

Lemma names_allocMember m : isDigitLed m = false -> Steps keepsNames (allocMember m).
Proof.
  intros Hm s Hs. unfold wellNamed, allocMember. simpl.
  apply Forall_app. split; [exact Hs|]. now constructor.
Qed.

Lemma names_setMemberName mid name :
  Js.startsWithNumber name = false -> Steps keepsNames (setMemberName mid (Some name)).
Proof.
  intros Hn s Hs. unfold wellNamed, setMemberName. simpl.
  apply Forall_alter; [exact Hs|]. intros x _ _. exact Hn.
Qed.

Lemma alternate_not_digit_led rec alternate :
  nonEmpty (getAlternateName pascalCase rec) = Some alternate ->
  Js.startsWithNumber alternate = false.
Proof.
  intros H. apply nonEmpty_Some in H as [H _]. unfold getAlternateName in H.
  cbv zeta in H.
  match type of H with
  | (if Js.truthy ?n then _ else _) = _ =>
      destruct (Js.truthy n); [|discriminate]; destruct n as [x|]; [|discriminate]
  end.
  injection H as <-. apply formatName_not_digit_led.
Qed.

Lemma names_setAlternate mid rec alternate :
  nonEmpty (getAlternateName pascalCase rec) = Some alternate ->
  Steps keepsNames (setMemberName mid (Some alternate)).
Proof. intros H. eapply names_setMemberName, alternate_not_digit_led, H. Qed.

Lemma suffixed_not_digit_led rec num :
  isDigitLed rec = false ->
  Js.startsWithNumber (Js.showNull (m_name rec) +:+ "_" +:+ Js.showNat num) = false.
Proof.
  unfold isDigitLed. destruct (m_name rec) as [[|c name]|]; intros H; try reflexivity.
  unfold Js.showNull. rewrite append_cons. exact H.
Qed.

Lemma names_suffixLoop budget rec num m a :
  isDigitLed rec = false -> Steps keepsNames (suffixLoop budget (m_name rec) num m a).
Proof.
  intros Hrec. revert num. induction budget as [|budget IH]; intros num; simpl.
  - apply Steps_outOfFuel. exact _.
  - apply Steps_bind; [exact _| |intros _].
    + now apply names_setMemberName, suffixed_not_digit_led.
    + apply Steps_bind; [exact _| |intros [d|]].
      * apply Steps_getDuplicate. exact _.
      * apply IH.
      * apply Steps_ret. exact _.
Qed.

Lemma names_suffixFallback rec m a :
  isDigitLed rec = false -> Steps keepsNames (suffixFallback (m_name rec) m a).
Proof.
  intros Hrec. unfold suffixFallback.
  apply Steps_bind; [exact _|apply Steps_getArray; exact _|intros mids].
  apply Steps_bind; [exact _|now apply names_suffixLoop|intros _].
  apply Steps_ret. exact _.
Qed.

(** Reading a member of a heap whose members are well named. *)
Lemma names_bind_getMember {B} mid (k : EnumMember -> M B) :
  (forall rec, isDigitLed rec = false -> Steps keepsNames (k rec)) ->
  Steps keepsNames (bind (getMember mid) k).
Proof.
  intros H s Hs. unfold bind, getMember.
  destruct (memberHeap s !! mid) as [rec|] eqn:E; [|exact Hs].
  apply (H rec); [|exact Hs].
  unfold wellNamed in Hs. rewrite Forall_lookup in Hs. exact (Hs mid rec E).
Qed.

Lemma names_referenceInherited name : Steps keepsNames (referenceInherited name).
Proof.
  apply Steps_referenceInherited; [exact _ | exact names_flag|].
  intros key. apply names_modifyFile.
Qed.

#[local] Hint Resolve names_addError names_modifyFile names_allocType names_modifyType
  names_allocArray names_pushArray names_log names_current names_referenceInherited
  names_addTypeToResults
  names_setAlternate names_suffixFallback : names.

Lemma names_adjustMemberName m a : Steps keepsNames (adjustMemberName pascalCase m a).
Proof.
  unfold adjustMemberName.
  apply Steps_bind; [exact _|apply Steps_getDuplicate; exact _|intros [d|]].
  2:{ apply Steps_ret. exact _. }
  apply Steps_bind; [exact _|apply Steps_getMember; exact _|intros dupRec].
  apply names_bind_getMember. intros addRec Hadd.
  destruct (areEnumMembersEqual dupRec addRec); [apply Steps_ret; exact _|].
  cbv zeta.
  destruct (nonEmpty (getAlternateName pascalCase addRec)) as [alternate|] eqn:Halt.
  2:{ now apply names_suffixFallback. }
  apply Steps_bind; [exact _|eapply names_setAlternate, Halt|intros _].
  apply Steps_bind; [exact _|apply Steps_getDuplicate; exact _|intros [d1|]].
  2:{ apply Steps_ret. exact _. }
  apply Steps_bind; [exact _|apply Steps_getMember; exact _|intros dupRec'].
  destruct (nonEmpty (getAlternateName pascalCase dupRec')) as [alternate'|] eqn:Halt'.
  2:{ now apply names_suffixFallback. }
  apply Steps_bind; [exact _|eapply names_setAlternate, Halt'|intros _].
  apply Steps_bind; [exact _|apply Steps_getDuplicate; exact _|intros [d2|]].
  - now apply names_suffixFallback.
  - apply Steps_ret. exact _.
Qed.

Lemma names_processConcepts concepts caseSensitive system :
  Steps keepsNames (processConcepts pascalCase concepts caseSensitive system).
Proof.
  unfold processConcepts.
  apply Steps_bind; [exact _|apply names_allocArray|intros members].
  apply Steps_bind; [exact _| |intros _; apply Steps_ret; exact _].
  destruct concepts as [cs|]; [|apply Steps_ret; exact _].
  apply Steps_forEach; [exact _|]. intros concept s Hs.
  unfold bind at 1.
  destruct (getEnumMemberName_cases pascalCase system concept s)
    as [(candidate & _ & ->)|(_ & ->)].
  - cbv zeta.
    refine (Steps_bind keepsNames _ _ _ _ s Hs).
    + apply names_allocMember. unfold isDigitLed. simpl. apply formatName_not_digit_led.
    + intros member. apply names_pushArray.
  - cbv zeta. rewrite addError_run. cbn [fst].
    refine (Steps_bind keepsNames _ _ _ _ _ _).
    + now apply names_allocMember.
    + intros member. apply names_pushArray.
    + exact Hs.
Qed.

#[local] Hint Resolve names_adjustMemberName names_processConcepts : names.

Lemma names_processFile fuel key : Steps keepsNames (processFile pascalCase fuel key).
Proof. apply Steps_processFile; try exact _; auto with names. Qed.

Lemma names_seedLoop fuel keys : Steps keepsNames (seedLoop pascalCase fuel keys).
Proof. apply Steps_seedLoop; try exact _; auto with names. Qed.

(** X14. No enum member ever has a name that starts with a digit. The names
    that [getEnumMemberName], [getAlternateName] and the numeric suffix give
    do not, so every call of [processFile] keeps the member heap free of such
    names, whatever its outcome; and after a run of [processFiles] on fresh
    documents no member of any enum type has such a name. *)
Theorem member_names_are_not_digit_led (fuel : nat) :
  (forall key s, wellNamed s -> wellNamed (fst (processFile pascalCase fuel key s)))
  /\ (forall s, wellNamed s -> wellNamed (fst (processFilesOn pascalCase fuel s)))
  /\ (forall fs mid member name,
        memberHeap (fst (processFiles pascalCase fuel fs)) !! mid = Some member ->
        m_name member = Some name -> Js.startsWithNumber name = false).
Proof.
  assert (Hrun : forall s, wellNamed s -> wellNamed (fst (processFilesOn pascalCase fuel s))).
  { intros s Hs. unfold processFilesOn. apply names_seedLoop. exact Hs. }
  split; [intros key s; apply names_processFile|]. split; [exact Hrun|].
  intros fs mid member name Hmid Hname.
  assert (Hfresh : wellNamed (freshDocuments fs)) by constructor.
  specialize (Hrun _ Hfresh). unfold wellNamed in Hrun. rewrite Forall_lookup in Hrun.
  specialize (Hrun mid member Hmid). unfold isDigitLed in Hrun. now rewrite Hname in Hrun.
Qed.

End MemberNames.

(** ** The realm *)

Create HintDb realm.

Section Realm.

Variable pascalCase : string -> string.

#[local] Instance realmGrows_preorder : PreOrder realmGrows.
Proof.
  split.
  - intros s. exists []. now rewrite app_nil_r.
  - intros s1 s2 s3 [l1 H1] [l2 H2]. exists (l1 ++ l2). now rewrite H2, H1, app_assoc.
Qed.

Lemma realmGrows_frame s s' : flagged s' = flagged s -> realmGrows s s'.
Proof. intros H. exists []. now rewrite app_nil_r. Qed.

Lemma Steps_realm_frame (g : State -> State) :
  (forall s, flagged (g s) = flagged s) -> Steps realmGrows (modify g).
Proof. intros H s. apply realmGrows_frame. apply H. Qed.

Lemma realm_addError msg : Steps realmGrows (addError msg).
Proof. intros s. rewrite addError_run. now apply realmGrows_frame. Qed.

Lemma realm_modifyFile key g : Steps realmGrows (modifyFile key g).
Proof. now apply Steps_realm_frame. Qed.

Lemma realm_allocType t : Steps realmGrows (allocType t).
Proof. intros s. now apply realmGrows_frame. Qed.

Lemma realm_modifyType tid g :
  (forall t, t_name (g t) = t_name t) -> Steps realmGrows (modifyType tid g).
Proof. intros _. now apply Steps_realm_frame. Qed.

Lemma realm_allocArray a : Steps realmGrows (allocArray a).
Proof. intros s. now apply realmGrows_frame. Qed.

Lemma realm_pushArray aid mid : Steps realmGrows (pushArray aid mid).
Proof. now apply Steps_realm_frame. Qed.

Lemma realm_allocMember m : Steps realmGrows (allocMember m).
Proof. intros s. now apply realmGrows_frame. Qed.

Lemma realm_setMemberName mid n : Steps realmGrows (setMemberName mid n).
Proof. now apply Steps_realm_frame. Qed.

Lemma realm_log g : Steps realmGrows (modify (setBodyLog g)).
Proof. now apply Steps_realm_frame. Qed.

Lemma realm_current c : Steps realmGrows (modify (setCurrentFile c)).
Proof. now apply Steps_realm_frame. Qed.

Lemma realm_flag name :
  Steps realmGrows (modify (setFlagged (fun names => names ++ [name]))).
Proof. intros s. now exists [name]. Qed.

Lemma realm_addTypeToResults tid : Steps realmGrows (addTypeToResults tid).
Proof.
  intros s. apply realmGrows_frame.
  unfold addTypeToResults, bind, getType, gets.
  destruct (typeHeap s !! tid) as [node|]; [|reflexivity].
  destruct (t_name node) as [name|]; [|reflexivity].
  destruct (String.eqb name ""); [reflexivity|].
  destruct (readIndex name s); [|reflexivity].
  now rewrite addError_run.
Qed.

Lemma realm_referenceInherited name : Steps realmGrows (referenceInherited name).
Proof.
  apply Steps_referenceInherited; [exact _ | exact realm_flag|].
  intros key. apply realm_modifyFile.
Qed.

#[local] Hint Resolve realm_addError realm_modifyFile realm_allocType realm_modifyType
  realm_allocArray realm_pushArray realm_allocMember realm_setMemberName realm_log
  realm_current realm_referenceInherited realm_addTypeToResults : realm.

Lemma realm_processConcepts concepts caseSensitive system :
  Steps realmGrows (processConcepts pascalCase concepts caseSensitive system).
Proof. apply Steps_processConcepts; try exact _; auto with realm. Qed.

Lemma realm_adjustMemberName m a : Steps realmGrows (adjustMemberName pascalCase m a).
Proof. apply Steps_adjustMemberName; try exact _; auto with realm. Qed.

#[local] Hint Resolve realm_processConcepts realm_adjustMemberName : realm.

Lemma realm_processFile fuel key : Steps realmGrows (processFile pascalCase fuel key).
Proof. apply Steps_processFile; try exact _; auto with realm. Qed.

Lemma realm_typeReferencesLoop fuel remaining te result :
  Steps realmGrows (typeReferencesLoop (processFile pascalCase fuel) remaining te result).
Proof.
  apply Steps_typeReferencesLoop; try exact _; auto with realm.
  intros key. apply realm_processFile.
Qed.

(** A name that the prototype answers to keeps being answered. *)
Lemma inherits_grows s s' name :
  realmGrows s s' -> inherits s name = true -> inherits s' name = true.
Proof.
  intros [names H]. unfold inherits, isPolluted. rewrite H, existsb_app.
  destruct (Prototype.isStandard name); [reflexivity|]. cbn [orb].
  intros Hp. apply andb_true_iff in Hp as [H1 H2]. now rewrite H1, H2.
Qed.

End Realm.

(** ** The flag on [Object.prototype] *)

Create HintDb marked.

Section Pollution.

Variable pascalCase : string -> string.

#[local] Instance keepsMarked_preorder : PreOrder keepsMarked.
Proof. split; [intros s H; exact H | intros s1 s2 s3 H1 H2 H; exact (H2 (H1 H))]. Qed.

Lemma keepsMarked_frame s s' :
  files s' = files s -> flagged s' = flagged s -> keepsMarked s s'.
Proof.
  intros Hf Hg Hinv Hp k f. rewrite Hf. apply Hinv.
  unfold isPolluted in *. now rewrite <- Hg.
Qed.

Lemma Steps_marked_frame (g : State -> State) :
  (forall s, files (g s) = files s) -> (forall s, flagged (g s) = flagged s) ->
  Steps keepsMarked (modify g).
Proof. intros Hf Hg s. apply keepsMarked_frame; [apply Hf | apply Hg]. Qed.

Lemma marked_addError msg : Steps keepsMarked (addError msg).
Proof. intros s. rewrite addError_run. now apply keepsMarked_frame. Qed.

Lemma marked_modifyFile key g :
  (forall f, fileExtends f (g f)) -> Steps keepsMarked (modifyFile key g).
Proof.
  intros Hg s Hinv Hp k f'. simpl. rewrite lookupFile_updateFile.
  destruct (String.eqb key k).
  - destruct (lookupFile k (files s)) as [f|] eqn:Hf; [|discriminate].
    intros [= <-]. apply (Hg f). exact (Hinv Hp k f Hf).
  - apply Hinv. exact Hp.
Qed.

Lemma marked_allocType t : Steps keepsMarked (allocType t).
Proof. intros s. now apply keepsMarked_frame. Qed.

Lemma marked_modifyType tid g :
  (forall t, t_name (g t) = t_name t) -> Steps keepsMarked (modifyType tid g).
Proof. intros _. now apply Steps_marked_frame. Qed.

Lemma marked_allocArray a : Steps keepsMarked (allocArray a).
Proof. intros s. now apply keepsMarked_frame. Qed.

Lemma marked_pushArray aid mid : Steps keepsMarked (pushArray aid mid).
Proof. now apply Steps_marked_frame. Qed.

Lemma marked_allocMember m : Steps keepsMarked (allocMember m).
Proof. intros s. now apply keepsMarked_frame. Qed.

Lemma marked_setMemberName mid n : Steps keepsMarked (setMemberName mid n).
Proof. now apply Steps_marked_frame. Qed.

Lemma marked_log g : Steps keepsMarked (modify (setBodyLog g)).
Proof. now apply Steps_marked_frame. Qed.

Lemma marked_current c : Steps keepsMarked (modify (setCurrentFile c)).
Proof. now apply Steps_marked_frame. Qed.

Lemma marked_addTypeToResults tid : Steps keepsMarked (addTypeToResults tid).
Proof.
  intros s. unfold addTypeToResults, bind, getType, gets.
  destruct (typeHeap s !! tid) as [node|]; [|reflexivity].
  destruct (t_name node) as [name|]; [|now apply keepsMarked_frame].
  destruct (String.eqb name ""); [now apply keepsMarked_frame|].
  destruct (readIndex name s); [|now apply keepsMarked_frame].
  rewrite addError_run. now apply keepsMarked_frame.
Qed.

(** The loop that sets the flag on every document. *)
Lemma markAll_files keys :
  forall s,
    let s' := fst (forEach keys (fun key => modifyFile key markReferenced) s) in
    flagged s' = flagged s
    /\ forall k f', lookupFile k (files s') = Some f' ->
         exists f, lookupFile k (files s) = Some f
                   /\ (f_referenced f = true \/ k ∈ keys -> f_referenced f' = true).
Proof.
  induction keys as [|key keys IH]; intros s; cbn [forEach].
  - split; [reflexivity|]. intros k f' H. exists f'. split; [exact H|].
    intros [Hr|Hin]; [exact Hr | now apply elem_of_nil in Hin].
  - unfold bind. unfold modifyFile at 1. unfold modify at 1. cbv iota beta zeta.
    set (s1 := setFiles (updateFile key markReferenced) s).
    destruct (IH s1) as [Hg Hfiles]. cbv zeta in Hg, Hfiles.
    split; [exact Hg|].
    intros k f' Hf'. destruct (Hfiles k f' Hf') as (f1 & Hf1 & Href).
    subst s1. simpl in Hf1. rewrite lookupFile_updateFile in Hf1.
    destruct (String.eqb key k) eqn:E.
    + destruct (lookupFile k (files s)) as [f|]; [|discriminate].
      injection Hf1 as <-. exists f. split; [reflexivity|].
      intros _. apply Href. now left.
    + exists f1. split; [exact Hf1|]. intros [Hr|Hin]; [apply Href; now left|].
      apply elem_of_cons in Hin as [->|Hin].
      * now rewrite String.eqb_refl in E.
      * apply Href. now right.
Qed.

Lemma marked_referenceInherited name : Steps keepsMarked (referenceInherited name).
Proof.
  intros s Hinv. unfold referenceInherited, bind, gets.
  destruct (isFlagged name s) eqn:Hflagged; [exact Hinv|].
  unfold modify at 1. cbv iota beta.
  set (s1 := setFlagged (fun names => names ++ [name]) s).
  destruct (String.eqb name "__proto__") eqn:E.
  - destruct (markAll_files (map fst (files s1)) s1) as [_ Hfiles]. cbv zeta in Hfiles.
    intros _ k f' Hf'. destruct (Hfiles k f' Hf') as (f & Hf & Href).
    apply Href. right. apply lookupFile_keys. eauto.
  - intros Hp. apply Hinv. subst s1. unfold isPolluted in *.
    unfold ret in Hp. cbn [fst flagged setFlagged] in Hp.
    rewrite existsb_app in Hp. cbn [existsb] in Hp.
    rewrite (String.eqb_sym "__proto__" name), E, !orb_false_r in Hp. exact Hp.
Qed.

#[local] Hint Resolve marked_addError marked_modifyFile marked_allocType marked_modifyType
  marked_allocArray marked_pushArray marked_allocMember marked_setMemberName marked_log
  marked_current marked_addTypeToResults marked_referenceInherited : marked.

Lemma marked_processConcepts concepts caseSensitive system :
  Steps keepsMarked (processConcepts pascalCase concepts caseSensitive system).
Proof. apply Steps_processConcepts; try exact _; auto with marked. Qed.

Lemma marked_adjustMemberName m a : Steps keepsMarked (adjustMemberName pascalCase m a).
Proof. apply Steps_adjustMemberName; try exact _; auto with marked. Qed.

#[local] Hint Resolve marked_processConcepts marked_adjustMemberName : marked.

Lemma marked_processFile fuel key : Steps keepsMarked (processFile pascalCase fuel key).
Proof. apply Steps_processFile; try exact _; auto with marked. Qed.

Lemma marked_seedLoop fuel keys : Steps keepsMarked (seedLoop pascalCase fuel keys).
Proof. apply Steps_seedLoop; try exact _; auto with marked. Qed.

(** In every state that a run reaches, the flags of the documents agree with
    what a read through the prototype gives: when [Object.prototype] has the
    flag, every document has it. So [referenceFile] may read the flag of a
    document off the document. *)
Lemma polluted_realm_marks_documents (fuel : nat) :
  (forall key s, markedInvariant s ->
                 markedInvariant (fst (processFile pascalCase fuel key s)))
  /\ (forall s, markedInvariant s -> markedInvariant (fst (processFilesOn pascalCase fuel s)))
  /\ (forall fs, markedInvariant (fst (processFiles pascalCase fuel fs))).
Proof.
  assert (Hon : forall s, markedInvariant s ->
                          markedInvariant (fst (processFilesOn pascalCase fuel s))).
  { intros s Hinv. unfold processFilesOn. apply marked_seedLoop.
    intros Hp k f. simpl. apply Hinv. exact Hp. }
  split; [intros key s; apply marked_processFile|]. split; [exact Hon|].
  intros fs. unfold processFiles. apply Hon. intros Hp. discriminate Hp.
Qed.

End Pollution.

(** ** Code systems *)

Section CodeSystems.

Variable pascalCase : string -> string.

#[local] Instance sameDocumentsAndTypes_preorder : PreOrder sameDocumentsAndTypes.
Proof.
  split.
  - intros s. repeat split.
  - intros s1 s2 s3 (?&?&?&?&?&?) (?&?&?&?&?&?). repeat split; congruence.
Qed.

Lemma processConcepts_same concepts caseSensitive system :
  Steps sameDocumentsAndTypes (processConcepts pascalCase concepts caseSensitive system).
Proof.
  apply Steps_processConcepts; try exact _.
  - intros msg s. rewrite addError_run. repeat split.
  - intros m s. repeat split.
  - intros a s. repeat split.
  - intros aid mid s. repeat split.
Qed.

Lemma alter_alter {A} (f g : A -> A) (i : nat) (l : list A) :
  alter f i (alter g i l) = alter (fun x => f (g x)) i l.
Proof.
  revert i. induction l as [|x l IH]; intros [|i]; simpl; try reflexivity.
  f_equal. apply IH.
Qed.

Lemma alter_ext_at {A} (f g : A -> A) (i : nat) (l : list A) (x : A) :
  l !! i = Some x -> f x = g x -> alter f i l = alter g i l.
Proof.
  revert i. induction l as [|y l IH]; intros [|i]; simpl; try discriminate.
  - intros [= ->] H. now rewrite H.
  - intros Hl H. f_equal. now apply IH.
Qed.

(** The loop of [processConcepts]: one new member per concept, pushed on
    the array in the order of the concepts. *)
Lemma processConcepts_loop caseSensitive system (a : nat) (concepts : list Concept) :
  forall s ids,
    arrayHeap s !! a = Some ids ->
    exists s' ms,
      forEach concepts (fun concept =>
        let* name := getEnumMemberName pascalCase system concept in
        let* member :=
          allocMember (mkEnumMember name (getEnumMemberDescription concept)
                         (c_code concept)
                         (nonEmpty (andThen (c_display concept) Js.trim)) system
                         caseSensitive) in
        pushArray a member) s = (s', Done tt)
      /\ memberHeap s' = memberHeap s ++ ms
      /\ Forall2 (memberOfConcept caseSensitive system) concepts ms
      /\ arrayHeap s'
         = alter (fun ids => ids ++ seq (length (memberHeap s)) (length concepts)) a
                 (arrayHeap s).
Proof.
  induction concepts as [|concept concepts IH]; intros s ids Ha.
  - exists s, []. cbn [forEach ret length seq]. rewrite app_nil_r.
    split; [reflexivity|]. split; [reflexivity|]. split; [constructor|].
    symmetry. apply (alter_fixed _ _ _ ids Ha). now rewrite app_nil_r.
  - cbn [forEach].
    set (member := fun name =>
           mkEnumMember name (getEnumMemberDescription concept) (c_code concept)
                        (nonEmpty (andThen (c_display concept) Js.trim)) system caseSensitive).
    assert (Hbody : exists s1 name,
              (let* name := getEnumMemberName pascalCase system concept in
               let* m :=
                 allocMember (mkEnumMember name (getEnumMemberDescription concept)
                                (c_code concept)
                                (nonEmpty (andThen (c_display concept) Js.trim)) system
                                caseSensitive) in
               pushArray a m) s = (s1, Done tt)
              /\ memberHeap s1 = memberHeap s ++ [member name]
              /\ arrayHeap s1
                 = alter (fun ids => ids ++ [length (memberHeap s)]) a (arrayHeap s)).
    { unfold bind at 1.
      destruct (getEnumMemberName_cases pascalCase system concept s)
        as [(candidate & _ & ->)|(_ & ->)].
      - eexists _, _. split; [reflexivity|]. split; reflexivity.
      - rewrite addError_run. eexists _, _. split; [reflexivity|]. split; reflexivity. }
    destruct Hbody as (s1 & name & Hrun & Hm1 & Ha1).
    unfold bind at 1. cbv beta. rewrite Hrun.
    assert (Ha' : arrayHeap s1 !! a = Some (ids ++ [length (memberHeap s)])).
    { rewrite Ha1, list_lookup_alter_eq, Ha. reflexivity. }
    destruct (IH s1 _ Ha') as (s' & ms & Hloop & Hm' & Hall & Harr).
    exists s', (member name :: ms). split; [exact Hloop|].
    split; [rewrite Hm', Hm1, <- app_assoc; reflexivity|].
    split; [constructor; [repeat split | exact Hall]|].
    rewrite Harr, Ha1, alter_alter, Hm1, length_app. cbn [length seq].
    apply (alter_ext_at _ _ _ _ ids Ha).
    rewrite <- app_assoc. cbn [app]. now rewrite Nat.add_1_r.
Qed.

(** X15. A code system becomes an enum type with one member for each of its
    top-level concepts, in the order of the document and with the code of
    the concept as its value. No collision of names is looked for, and no
    member is dropped: two concepts with the same name give two members. *)
Theorem code_system_has_a_member_per_concept (key : string) (s : State)
    (file : SpecificationFile) (content : Content) :
  lookupFile key (files s) = Some file -> f_content file = Some content ->
  exists s' ms,
    processCodeSystem pascalCase key s = (s', Done tt)
    /\ lookupFile key (files s') = Some (withType (length (typeHeap s)) file)
    /\ typeHeap s'
       = typeHeap s ++ [createEnumType CatCodeSystem (getEnumName pascalCase file content)
                                       (ct_description content) (length (arrayHeap s))]
    /\ arrayHeap s'
       = arrayHeap s ++ [seq (length (memberHeap s)) (length (default [] (ct_concept content)))]
    /\ memberHeap s' = memberHeap s ++ ms
    /\ Forall2 (memberOfConcept (ct_caseSensitive content) (ct_url content))
               (default [] (ct_concept content)) ms.
Proof.
  intros Hfile Hc. unfold processCodeSystem.
  unfold bind at 1. unfold getFile. rewrite Hfile, Hc.
  pose proof (processConcepts_same (ct_concept content) (ct_caseSensitive content)
                (ct_url content) s) as Hsame.
  assert (Hconcepts : exists s1 ms,
            processConcepts pascalCase (ct_concept content) (ct_caseSensitive content)
                            (ct_url content) s = (s1, Done (length (arrayHeap s)))
            /\ memberHeap s1 = memberHeap s ++ ms
            /\ Forall2 (memberOfConcept (ct_caseSensitive content) (ct_url content))
                       (default [] (ct_concept content)) ms
            /\ arrayHeap s1
               = arrayHeap s
                 ++ [seq (length (memberHeap s)) (length (default [] (ct_concept content)))]).
  { unfold processConcepts. cbv zeta. unfold bind at 1. unfold allocArray. cbn [fst snd].
    destruct (ct_concept content) as [concepts|]; cbn [default].
    - set (s0 := setArrayHeap (fun h => h ++ [[]]) s).
      assert (Ha : arrayHeap s0 !! length (arrayHeap s) = Some []).
      { subst s0. simpl. apply list_lookup_middle. reflexivity. }
      destruct (processConcepts_loop (ct_caseSensitive content) (ct_url content)
                  (length (arrayHeap s)) concepts s0 [] Ha) as (s1 & ms & Hloop & Hm & Hall & Harr).
      exists s1, ms. unfold bind at 1. rewrite Hloop. split; [reflexivity|].
      split; [exact Hm|]. split; [exact Hall|].
      rewrite Harr. subst s0. simpl. rewrite alter_snoc. reflexivity.
    - exists (setArrayHeap (fun h => h ++ [[]]) s), []. split; [reflexivity|].
      simpl. rewrite app_nil_r. repeat split. constructor. }
  destruct Hconcepts as (s1 & ms & Hrun & Hm & Hall & Harr).
  rewrite Hrun in Hsame. cbn [fst] in Hsame.
  destruct Hsame as (Hfiles & Hheap & _).
  unfold bind at 1. rewrite Hrun.
  unfold bind, allocType, setFileType, modifyFile, modify. cbn [fst snd].
  eexists _, ms. split; [reflexivity|]. cbn [files typeHeap arrayHeap memberHeap setFiles setTypeHeap].
  rewrite Hfiles, Hheap.
  split; [now apply lookupFile_updateFile_eq|].
  split; [reflexivity|]. split; [exact Harr|]. split; [exact Hm | exact Hall].
Qed.

End CodeSystems.

(** ** Primitive types, type options and base types *)

Lemma bind_Done_inv {A B} (m : M A) (k : A -> M B) (s s' : State) (b : B) :
  bind m k s = (s', Done b) -> exists s1 a, m s = (s1, Done a) /\ k a s1 = (s', Done b).
Proof.
  unfold bind. destruct (m s) as [s1 [a|e|]]; try discriminate. eauto.
Qed.

Lemma fold_left_last_match (id : option string) (elements : list ElementDefinition) :
  fold_left (fun d element =>
               if optEqb String.eqb (Some (el_path element)) id
               then el_definition element else d) elements None
  = primitiveDescription id elements.
Proof.
  unfold primitiveDescription.
  induction elements as [|e elements IH] using rev_ind; [reflexivity|].
  rewrite fold_left_app, rev_app_distr. cbn [fold_left rev app List.find].
  destruct (optEqb String.eqb (Some (el_path e)) id); [reflexivity | exact IH].
Qed.

Lemma getIntrinsicType_range (p : option string) (t : string) :
  getIntrinsicType p = Some t -> t = "string" \/ t = "number" \/ t = "boolean".
Proof.
  unfold getIntrinsicType. destruct p as [p|]; [|discriminate].
  unfold intrinsicTypes. cbn [List.find fst snd].
  repeat (destruct (String.eqb _ p); [intros [= <-]; auto|]). discriminate.
Qed.

(** X16. [processPrimitive] always gives the document a primitive type node
    with the id of the document as its name, also when the id is none of the
    primitive types it knows: then it records the one error and the node has
    no intrinsic type. An intrinsic type is one of [string], [number] and
    [boolean]. *)
Theorem primitive_always_gets_a_node (key : string) (s : State) (file : SpecificationFile)
    (content : Content) (elements : list ElementDefinition) :
  lookupFile key (files s) = Some file -> f_content file = Some content ->
  ct_differential content = Some elements ->
  processPrimitive key s
  = (mkState (updateFile key (withType (length (typeHeap s))) (files s))
             (typeHeap s
              ++ [mkTypeNode KPrimitive CatPrimitive (ct_id content)
                             (primitiveDescription (ct_id content) elements)
                             (getIntrinsicType (ct_id content)) None None None])
             (memberHeap s) (arrayHeap s) (typesByName s) (resultTypes s)
             (resultErrors s
              ++ if Js.truthy (getIntrinsicType (ct_id content)) then []
                 else [errorPrefix s +:+ "Unknown primitive type '"
                       +:+ Js.showUndefined (ct_id content) +:+ "'."])
             (currentFile s) (bodyLog s) (flagged s),
     Done tt)
  /\ (forall t, getIntrinsicType (ct_id content) = Some t ->
                t = "string" \/ t = "number" \/ t = "boolean").
Proof.
  intros Hfile Hc Hd. split; [|apply getIntrinsicType_range].
  unfold processPrimitive. unfold bind at 1. unfold getFile. rewrite Hfile, Hc, Hd.
  cbv zeta. rewrite fold_left_last_match.
  destruct (Js.truthy (getIntrinsicType (ct_id content))).
  - unfold bind, ret, allocType, setFileType, setDescription, modifyFile, modifyType, modify.
    cbn [fst snd]. rewrite app_nil_r. unfold setTypeHeap, setFiles.
    cbn [files typeHeap memberHeap arrayHeap typesByName resultTypes resultErrors
         currentFile bodyLog].
    rewrite alter_snoc. reflexivity.
  - unfold bind at 1. rewrite addError_run.
    unfold bind, ret, allocType, setFileType, setDescription, modifyFile, modifyType, modify.
    cbn [fst snd]. unfold setTypeHeap, setFiles, setResultErrors.
    cbn [files typeHeap memberHeap arrayHeap typesByName resultTypes resultErrors
         currentFile bodyLog].
    rewrite alter_snoc. reflexivity.
Qed.

Section TypeOptions.

Variable pf : string -> M unit.

(** X17. When [getTypeReferences] returns references, they stand one for one
    and in order for the type options that are no wildcard, each with the
    name of its option, and [string] for [xhtml]. *)
Theorem type_references_follow_the_options (types : list ElementType) (s s' : State)
    (refs : list PType) :
  getTypeReferences pf (Some types) s = (s', Done (Some refs)) ->
  map ptypeName refs
  = map resolvedTypeName (List.filter (fun t => negb (isWildcard t)) types)
  /\ length refs = length (List.filter (fun t => negb (isWildcard t)) types)
  /\ Forall (fun t => isNamedReference t = true) refs.
Proof.
  intros Hrun. pose proof (typeReferencesLoop_names pf _ _ _ _ _ _ Hrun) as Hnames.
  simpl in Hnames. split; [exact Hnames|]. split.
  - apply (f_equal (@length _)) in Hnames. now rewrite !length_map in Hnames.
  - eapply getTypeReferences_named, Hrun.
Qed.

(** X18. The walk of [hasBaseInterface] up the base types has no guard
    against a cycle: started in a set of nodes that it does not leave and
    that holds no node of the name, it does not end, whatever budget it is
    given, and it leaves the state as it is. *)
Theorem hasBaseInterface_loops_on_a_cycle (s : State) (name : string) (cycle : list nat) :
  baseCycle pf s name cycle ->
  forall budget tid, tid ∈ cycle ->
    hasBaseInterfaceLoop pf budget (Some (Node tid)) name s = (s, OutOfFuel)
    /\ hasBaseInterface pf budget tid name s = (s, OutOfFuel).
Proof.
  intros Hcycle.
  assert (Hloop : forall budget tid, tid ∈ cycle ->
            hasBaseInterfaceLoop pf budget (Some (Node tid)) name s = (s, OutOfFuel)).
  { induction budget as [|budget IH]; intros tid Htid; [reflexivity|].
    destruct (Hcycle tid Htid) as (node & next & Hnode & Hname & Hbase & Hnext).
    cbn [hasBaseInterfaceLoop]. unfold bind at 1. unfold getType. rewrite Hnode.
    destruct (optEqb String.eqb (t_name node) (Some name)) eqn:Q.
    { apply optEqb_string_eq in Q. contradiction. }
    unfold bind. rewrite Hbase. now apply IH. }
  intros budget tid Htid. split; [now apply Hloop|]. unfold hasBaseInterface. now apply Hloop.
Qed.

End TypeOptions.

Section PropertyTypes.

Variable pascalCase : string -> string.
Variable pf : string -> M unit.

(** X19. The type that [getPropertyTypeForElement] gives a property is an
    array type unless the [max] of the element is exactly ["1"]: also an
    element that states no [max] gets an array. *)
Theorem property_is_array_unless_max_is_one (fuel root : nat) (element : ElementDefinition)
    (s s' : State) (t : PType) :
  getPropertyTypeForElement pascalCase pf fuel root element s = (s', Done (Some t)) ->
  el_max element <> Some "1" ->
  exists elementType, t = ArrayType elementType.
Proof.
  intros Hrun Hmax. unfold getPropertyTypeForElement in Hrun.
  apply bind_Done_inv in Hrun as (s1 & elementType & _ & Hk).
  destruct elementType as [elementType|]; [|discriminate].
  destruct (optEqb String.eqb (el_max element) (Some "1")) eqn:Q.
  { apply optEqb_string_eq in Q. contradiction. }
  injection Hk as _ <-. eauto.
Qed.

End PropertyTypes.

(** ** Combining the members of a value set *)

Section Combine.

Variable pascalCase : string -> string.

#[local] Instance sameArrays_preorder : PreOrder sameArrays.
Proof. split; [intros s; reflexivity | intros s1 s2 s3 H1 H2; unfold sameArrays in *; congruence]. Qed.

Lemma adjustMemberName_sameArrays m a : Steps sameArrays (adjustMemberName pascalCase m a).
Proof.
  apply Steps_adjustMemberName; try exact _. intros mid n s. reflexivity.
Qed.

Lemma combine_loop (tm : nat) (mids : list nat) :
  forall s,
    exists added,
      sublist added mids
      /\ arrayHeap (fst (forEach mids (fun member =>
                           let* ok := adjustMemberName pascalCase member tm in
                           if ok then pushArray tm member else ret tt) s))
         = alter (fun ids => ids ++ added) tm (arrayHeap s).
Proof.
  induction mids as [|m mids IH]; intros s.
  - exists []. split; [constructor|]. cbn [forEach ret fst]. symmetry.
    apply list_alter_id. intros ids. apply app_nil_r.
  - cbn [forEach]. unfold bind at 1. unfold bind at 1.
    pose proof (adjustMemberName_sameArrays m tm s) as Hsame. unfold sameArrays in Hsame.
    destruct (adjustMemberName pascalCase m tm s) as [s1 [[]|e|]]; cbn [fst] in Hsame.
    + cbn [pushArray modify].
      destruct (IH (setArrayHeap (alter (fun a => a ++ [m]) tm) s1)) as (added & Hsub & Harr).
      exists (m :: added). split; [now constructor|].
      rewrite Harr. cbn [arrayHeap setArrayHeap]. rewrite Hsame, alter_alter.
      apply list_alter_ext; [|reflexivity]. intros ids _. now rewrite <- app_assoc.
    + cbn [ret]. destruct (IH s1) as (added & Hsub & Harr).
      exists added. split; [now constructor|]. now rewrite Harr, Hsame.
    + exists []. split; [apply sublist_nil_l|]. cbn [fst]. rewrite Hsame. symmetry.
      apply list_alter_id. intros ids. apply app_nil_r.
    + exists []. split; [apply sublist_nil_l|]. cbn [fst]. rewrite Hsame. symmetry.
      apply list_alter_id. intros ids. apply app_nil_r.
Qed.

(** X20. [combine] only ever appends to the members of the value set: after
    it, whatever its outcome, the member array of the type is what it was,
    followed by some of the members of the included array in their order
    (those whose name could be kept or made unique; a member that equals one
    of the same name is left out), and no other array has changed. *)
Theorem combine_appends_included_members (typeMembers members : nat) (mids : list nat)
    (s : State) :
  arrayHeap s !! members = Some mids ->
  exists added,
    sublist added mids
    /\ arrayHeap (fst (combineMembers pascalCase typeMembers (Some members) s))
       = alter (fun ids => ids ++ added) typeMembers (arrayHeap s).
Proof.
  intros Hm. unfold combineMembers. unfold bind at 1. unfold getArray. rewrite Hm.
  apply combine_loop.
Qed.

End Combine.

(** ** Bindings, backfilled properties and unknown types *)

Section Bindings.

Variable pascalCase : string -> string.
Variable pf : string -> M unit.

(** X21. An example binding is ignored: the type of a property whose binding
    has the strength [example] is the type that the element would get
    without the binding, and the value set of the binding is not looked at. *)
Theorem example_binding_is_ignored (fuel root : nat) (element : ElementDefinition)
    (binding : Binding) (s : State) :
  el_binding element = Some binding -> isExampleBinding binding = true ->
  getPropertyTypeForElement pascalCase pf fuel root element s
  = getPropertyTypeForElement pascalCase pf fuel root (withoutBinding element) s.
Proof.
  intros Hb He. unfold getPropertyTypeForElement, withoutBinding, createSubType.
  cbn [el_path el_short el_definition el_min el_max el_contentReference el_type el_binding].
  rewrite Hb, He. reflexivity.
Qed.

(** X22. [processTypeDefinition] backfills a property at most once: after a
    backfill that completed, the type of the given name has a property of
    the backfilled name, and a second backfill changes nothing. *)
Theorem backfill_is_idempotent (type : nat) (typeName propertyName : string)
    (property : Property) (s s1 : State) :
  p_name property = propertyName ->
  backfill type typeName propertyName property s = (s1, Done tt) ->
  backfill type typeName propertyName property s1 = (s1, Done tt)
  /\ forall node props,
       typeHeap s1 !! type = Some node -> t_name node = Some typeName ->
       t_properties node = Some props ->
       is_Some (getProperty props (Some propertyName)).
Proof.
  intros Hp. unfold backfill, bind, getType.
  destruct (typeHeap s !! type) as [node|] eqn:Hnode; [|discriminate].
  destruct (optEqb String.eqb (t_name node) (Some typeName)) eqn:Hname.
  2:{ intros [= <-]. split; [now rewrite Hnode, Hname|].
      intros node' props Hn' Hname'. rewrite Hnode in Hn'. injection Hn' as <-.
      rewrite Hname' in Hname. simpl in Hname. rewrite String.eqb_refl in Hname.
      discriminate. }
  destruct (t_properties node) as [props|] eqn:Hprops; [|discriminate].
  destruct (getProperty props (Some propertyName)) as [found|] eqn:Hfound.
  - intros [= <-]. split; [now rewrite Hnode, Hname, Hprops, Hfound|].
    intros node' props' Hn' _ Hp'. rewrite Hnode in Hn'. injection Hn' as <-.
    rewrite Hprops in Hp'. injection Hp' as <-. rewrite Hfound. eauto.
  - rewrite (setProperties_run type _ s node props Hnode Hprops). intros [= <-].
    destruct (putProperties_lookup type (property :: props) s node Hnode)
      as (node' & Hnode' & Hprops').
    assert (Hname' : t_name node' = t_name node).
    { unfold putProperties in Hnode'. simpl in Hnode'.
      rewrite list_lookup_alter_eq, Hnode in Hnode'. injection Hnode' as <-. reflexivity. }
    assert (Hget : getProperty (property :: props) (Some propertyName) = Some property).
    { unfold getProperty. cbn [List.find]. rewrite Hp. simpl.
      now rewrite String.eqb_refl. }
    split; [now rewrite Hnode', Hname', Hname, Hprops', Hget|].
    intros node'' props'' Hn'' _ Hp''. rewrite Hnode' in Hn''. injection Hn'' as <-.
    rewrite Hprops' in Hp''. injection Hp'' as <-. rewrite Hget. eauto.
Qed.

End Bindings.

Section UnknownTypes.

Variable pascalCase : string -> string.

Lemma getFileForType_true pf name s s' :
  getFileForType pf name s = (s', Done true) ->
  is_Some (lookupFile name (files s)) \/ inherits s name = true.
Proof.
  unfold getFileForType, bind, gets, readFiles.
  destruct (lookupFile name (files s)) as [f|]; [eauto|].
  destruct (inherits s name); [auto|].
  rewrite addError_run. discriminate.
Qed.

Lemma typeReferencesLoop_resolvable fuel remaining :
  forall te result s s' refs,
    typeReferencesLoop (processFile pascalCase fuel) remaining te result s
    = (s', Done (Some refs)) ->
    Forall (resolvableOn (map fst (files s)) s') remaining.
Proof.
  set (pf := processFile pascalCase fuel).
  induction remaining as [|t rest IH]; intros te result s s' refs Hrun; [constructor|].
  pose proof (realm_typeReferencesLoop pascalCase fuel (t :: rest) te result s) as Hgrow.
  fold pf in Hgrow. rewrite Hrun in Hgrow. cbn [fst] in Hgrow.
  cbn [typeReferencesLoop] in Hrun.
  destruct (nonEmpty (et_code t)) as [typeName|] eqn:E.
  2:{ unfold bind in Hrun. rewrite addError_run in Hrun. discriminate. }
  pose proof (nonEmpty_Some _ _ E) as [Hcode _].
  destruct (String.eqb typeName "*") eqn:W.
  { constructor; [|eapply IH; eassumption].
    left. unfold isWildcard, Js.isStr. now rewrite Hcode. }
  unfold bind at 1 in Hrun.
  destruct (String.eqb typeName "xhtml") eqn:X.
  - unfold ret at 1 in Hrun. unfold bind at 1 in Hrun.
    pose proof (Respects_profileBinding pf (Respects_processFile pascalCase fuel)
                  (et_profile t) s) as [Ext _].
    destruct (profileBinding pf (et_profile t) s) as [s1 [binding|e|]]; try discriminate.
    constructor.
    + right. left. unfold Js.isStr. now rewrite Hcode.
    + rewrite <- (ext_keys _ _ Ext). eapply IH; eassumption.
  - unfold bind at 1 in Hrun.
    pose proof (Respects_getFileForType pf (Respects_processFile pascalCase fuel)
                  typeName s) as [Ext1 _].
    destruct (getFileForType pf typeName s) as [s1 [[]|e|]] eqn:G; try discriminate.
    unfold ret at 1 in Hrun. unfold bind at 1 in Hrun.
    pose proof (Respects_profileBinding pf (Respects_processFile pascalCase fuel)
                  (et_profile t) s1) as [Ext2 _].
    destruct (profileBinding pf (et_profile t) s1) as [s2 [binding|e|]]; try discriminate.
    cbn [fst] in Ext1, Ext2. constructor.
    + right. right. exists typeName. split; [exact Hcode|].
      destruct (getFileForType_true _ _ _ _ G) as [Hown|Hinh].
      * left. now apply lookupFile_keys.
      * right. eapply inherits_grows; eassumption.
    + rewrite <- (ext_keys _ _ Ext1), <- (ext_keys _ _ Ext2). eapply IH; eassumption.
Qed.

(** X23. [getTypeReferences] returns a list only if every type option is the
    wildcard, [xhtml], the name of a document of the map, or a name that the
    map inherits from [Object.prototype]: one type option that has no code,
    or a name that the map does not answer to, makes it return nothing for
    the whole element. *)
Theorem type_references_need_documents (fuel : nat) (types : list ElementType)
    (s s' : State) (refs : list PType) :
  getTypeReferences (processFile pascalCase fuel) (Some types) s = (s', Done (Some refs)) ->
  Forall (resolvableOn (map fst (files s)) s') types.
Proof. apply typeReferencesLoop_resolvable. Qed.

End UnknownTypes.

(** ** More concrete runs *)

Section MoreRuns.

Import Examples MoreExamples.

(** X3 at the patient profile of the listing. *)
Lemma reader_documents_are_dispatched_witness :
  let f := mkFile "Patient" "spec/patient.profile.json" false false false None
                  (Some patientContent) None in
  lookupFile "Patient" (Reader.r_files (Reader.readSpecification "spec" (Reader.Listed listing)))
  = Some f
  /\ map fst (Reader.r_files (Reader.readSpecification "spec" (Reader.Listed listing)))
     = ["Patient"; "http://example.org/vs"]
  /\ Reader.r_errors (Reader.readSpecification "spec" (Reader.Listed listing))
     = ["spec/status-copy.json: Duplicate id 'http://example.org/vs' already defined in file 'spec/status.json'.";
        "spec/broken.json: Unexpected end of JSON input"]
  /\ processByResourceType ChangeCase.pascalCase (processFile ChangeCase.pascalCase 0) 0
       patientContent "Patient"
     = processStructureDefinition ChangeCase.pascalCase (processFile ChangeCase.pascalCase 0) 0
         "Patient".
Proof.
  intros f.
  assert (H : lookupFile "Patient"
                (Reader.r_files (Reader.readSpecification "spec" (Reader.Listed listing)))
              = Some f) by reflexivity.
  destruct (reader_documents_are_dispatched ChangeCase.pascalCase
              (processFile ChangeCase.pascalCase 0) 0 "spec" (Reader.Listed listing)
              "Patient" f H)
    as (entries & filename & content & _ & _ & _ & Hf & _ & _ & Hcase).
  injection Hf as <- <-.
  split; [exact H|]. split; [reflexivity|]. split; [reflexivity|].
  destruct Hcase as [[Hrt _]|[[Hrt _]|(_ & _ & Hrun)]]; [discriminate Hrt..|exact Hrun].
Defined.

(** X7 at the path of an element. *)
Lemma getPropertyName_last_segment_witness :
  Js.indexOf "." "value[x]" = None
  /\ getPropertyName "Observation.component.value[x]" = Some "value[x]".
Proof.
  split; [reflexivity|].
  exact (proj1 (getPropertyName_last_segment "Observation.component" "value[x]" eq_refl)).
Defined.

(** X8 at the name [value[x]] and the type [Quantity]. *)
Lemma polymorphic_name_is_base_and_marker_witness :
  isPolymorphicName "value[x]" = true
  /\ isPolymorphicName "[x]" = false
  /\ isPolymorphicName "a[x]b[x]" = false
  /\ combinePropertyNameWithType ChangeCase.pascalCase "value[x]" (Some "Quantity")
     = "valueQuantity".
Proof.
  split; [reflexivity|]. split; [reflexivity|]. split; [reflexivity|].
  destruct (polymorphic_name_is_base_and_marker ChangeCase.pascalCase "value[x]" eq_refl)
    as (base & _ & Hname & _ & Hcombine).
  rewrite (Hcombine (Some "Quantity") eq_refl).
  assert (Hbase : base = "value").
  { apply (append_cancel_r base "value" "[x]"); [now rewrite <- Hname|].
    apply (f_equal String.length) in Hname. rewrite length_append in Hname.
    simpl in Hname. simpl. lia. }
  rewrite Hbase. reflexivity.
Defined.

(** X9 at a questionnaire. *)
Lemma unhandled_document_is_reported_witness :
  let s := freshDocuments [("Questionnaire", questionnaire)] in
  let r := referenceFile (processFile ChangeCase.pascalCase 1) "Questionnaire" s in
  unhandledMessage (mkContent (Some "Questionnaire") (Some "Questionnaire") None None None
                              None None None None None None None None)
  = Some "Unknown resource type 'Questionnaire'."
  /\ resultErrors (fst (processFile ChangeCase.pascalCase 1 "Questionnaire" s))
     = ["questionnaire.json: Unknown resource type 'Questionnaire'."]
  /\ lookupFile "Questionnaire" (files (fst (processFile ChangeCase.pascalCase 1 "Questionnaire" s)))
     = Some (markProcessed (markQueued questionnaire))
  /\ resultTypes (fst r) = [].
Proof.
  intros s r. split; [reflexivity|].
  destruct (unhandled_document_is_reported ChangeCase.pascalCase 0 "Questionnaire" s
              questionnaire _ _ eq_refl eq_refl eq_refl eq_refl) as [Hrun Hfile].
  split; [rewrite Hrun; reflexivity|]. split; [exact Hfile | reflexivity].
Defined.

(** X10 at a map that holds a value set only, and at a map that holds the
    same value set under the key [hasOwnProperty]. *)
Lemma no_seed_no_output_witness :
  processFiles ChangeCase.pascalCase 5 vsDocuments
  = (enterProcessFiles (freshDocuments vsDocuments), Done tt)
  /\ processFiles ChangeCase.pascalCase 5 ownKeyDocuments
     = (enterProcessFiles (freshDocuments ownKeyDocuments), Raise "TypeError").
Proof.
  split.
  - refine (proj1 (proj1 (no_seed_no_output ChangeCase.pascalCase 5
                            (freshDocuments vsDocuments) _) eq_refl)).
    intros k f. unfold freshDocuments, vsDocuments. cbn [files lookupFile].
    destruct (String.eqb "http://hl7.org/fhir/ValueSet/vs/intent" k); [|discriminate].
    intros [= <-]. reflexivity.
  - refine (proj2 (no_seed_no_output ChangeCase.pascalCase 5 (freshDocuments ownKeyDocuments)
                     _) _ eq_refl).
    intros k f. unfold freshDocuments, ownKeyDocuments. cbn [files lookupFile].
    destruct (String.eqb "hasOwnProperty" k); [|discriminate].
    intros [= <-]. reflexivity.
Defined.

(** X12 at the resource with a backbone element: the sub-type of the element
    is emitted before the resource. *)
Lemma referenceFile_emits_once_and_last_witness :
  let s := freshDocuments subTypeDocuments in
  let pf := processFile ChangeCase.pascalCase 4 in
  let s' := fst (referenceFile pf "Foo" s) in
  referenceFile pf "Foo" s = (s', Done tt)
  /\ resultTypes s' = [1; 2; 0]
  /\ referenceFile pf "Foo" s' = (s', Done tt).
Proof.
  intros s pf s'.
  assert (Hrun : referenceFile pf "Foo" s = (s', Done tt)) by (vm_compute; reflexivity).
  destruct (referenceFile_emits_once_and_last ChangeCase.pascalCase 4 4 "Foo" s s' _
              eq_refl eq_refl Hrun) as (_ & _ & Hagain).
  split; [exact Hrun|]. split; [vm_compute; reflexivity | exact Hagain].
Defined.

(** X15 at a code system with two concepts that are both displayed as
    [Active]: both become members named [Active]. *)
Lemma code_system_has_a_member_per_concept_witness :
  let s := freshDocuments codeSystemDocuments in
  let r := processCodeSystem ChangeCase.pascalCase "http://example.org/status" s in
  snd r = Done tt
  /\ arrayHeap (fst r) = [[0; 1]]
  /\ map m_name (memberHeap (fst r)) = [Some "Active"; Some "Active"]
  /\ map m_value (memberHeap (fst r)) = ["active"; "ACTIVE"].
Proof.
  intros s r.
  destruct (code_system_has_a_member_per_concept ChangeCase.pascalCase
              "http://example.org/status" s _ statusCodes eq_refl eq_refl)
    as (s' & ms & Hrun & _ & _ & Harr & _ & _).
  unfold r. rewrite Hrun. cbn [fst snd]. split; [reflexivity|]. split; [exact Harr|].
  assert (Hs' : s' = fst (processCodeSystem ChangeCase.pascalCase
                            "http://example.org/status" s)) by now rewrite Hrun.
  rewrite Hs'. split; vm_compute; reflexivity.
Defined.

(** X16 at the primitive type [string] and at a primitive of an unknown name. *)
Lemma primitive_always_gets_a_node_witness :
  let run := fun id => processPrimitive id (freshDocuments [(id, primitive id)]) in
  typeHeap (fst (run "string"))
  = [mkTypeNode KPrimitive CatPrimitive (Some "string") (Some "The type string")
                (Some "string") None None None]
  /\ resultErrors (fst (run "string")) = []
  /\ typeHeap (fst (run "xhtml"))
     = [mkTypeNode KPrimitive CatPrimitive (Some "xhtml") (Some "The type xhtml") None None
                   None None]
  /\ resultErrors (fst (run "xhtml")) = ["Unknown primitive type 'xhtml'."].
Proof.
  intros run. unfold run.
  destruct (primitive_always_gets_a_node "string" (freshDocuments [("string", primitive "string")])
              (primitive "string") _ _ eq_refl eq_refl eq_refl) as [H1 _].
  destruct (primitive_always_gets_a_node "xhtml" (freshDocuments [("xhtml", primitive "xhtml")])
              (primitive "xhtml") _ _ eq_refl eq_refl eq_refl) as [H2 _].
  rewrite H1, H2. repeat split.
Defined.

(** X17 at the options [Quantity], wildcard, [xhtml], [string]. *)
Lemma type_references_follow_the_options_witness :
  let s := freshDocuments openTypeDocuments in
  let pf := processFile ChangeCase.pascalCase 3 in
  let types := map (fun c => mkElementType (Some c) None) ["Quantity"; "*"; "xhtml"; "string"] in
  exists s' refs,
    getTypeReferences pf (Some types) s = (s', Done (Some refs))
    /\ map ptypeName refs = [Some "Quantity"; Some "string"; Some "string"].
Proof.
  intros s pf types.
  destruct (getTypeReferences pf (Some types) s) as [s' [[refs|]|e|]] eqn:Hrun;
    try (vm_compute in Hrun; discriminate Hrun).
  exists s', refs. split; [reflexivity|].
  destruct (type_references_follow_the_options pf types s s' refs Hrun) as (Hnames & _ & _).
  rewrite Hnames. reflexivity.
Defined.

(** X18 at two registered types whose base types form a cycle. *)
Lemma hasBaseInterface_loops_on_a_cycle_witness :
  let pf := processFile ChangeCase.pascalCase 0 in
  baseCycle pf cycleState "C" [0; 1]
  /\ forall budget, hasBaseInterface pf budget 0 "C" cycleState = (cycleState, OutOfFuel).
Proof.
  intros pf.
  assert (Hcycle : baseCycle pf cycleState "C" [0; 1]).
  { intros tid Htid. apply elem_of_cons in Htid as [->|Htid].
    - exists (cycleNode "A" "B"), 1. split; [reflexivity|]. split; [discriminate|].
      split; [reflexivity|]. right. left.
    - apply list_elem_of_singleton in Htid. subst tid.
      exists (cycleNode "B" "A"), 0. split; [reflexivity|]. split; [discriminate|].
      split; [reflexivity|]. left. }
  split; [exact Hcycle|]. intros budget.
  refine (proj2 (hasBaseInterface_loops_on_a_cycle pf cycleState "C" [0; 1] Hcycle budget 0 _)).
  left.
Defined.

(** X19 at an element that states no [max]. *)
Lemma property_is_array_unless_max_is_one_witness :
  let s := observationState ["Quantity"] in
  let pf := processFile ChangeCase.pascalCase 3 in
  snd (getPropertyTypeForElement ChangeCase.pascalCase pf 3 0 noteElement s)
  = Done (Some (ArrayType (Some (TypeReference (Some "string") None)))).
Proof.
  intros s pf.
  destruct (getPropertyTypeForElement ChangeCase.pascalCase pf 3 0 noteElement s)
    as [s' [[t|]|e|]] eqn:Hrun; try (vm_compute in Hrun; discriminate Hrun).
  destruct (property_is_array_unless_max_is_one ChangeCase.pascalCase pf 3 0 noteElement s s' t
              Hrun) as [elementType ->]; [discriminate|].
  vm_compute in Hrun. injection Hrun as _ ->. reflexivity.
Defined.

(** X20 at an include whose two members are named as the member of the
    type: the first is kept under a suffixed name, the second equals the
    member of the type and is left out. *)
Lemma combine_appends_included_members_witness :
  arrayHeap combineState !! 1 = Some [1; 2]
  /\ arrayHeap (fst (combineMembers ChangeCase.pascalCase 0 (Some 1) combineState))
     = [[0; 1]; [1; 2]]
  /\ exists added,
       sublist added [1; 2]
       /\ arrayHeap (fst (combineMembers ChangeCase.pascalCase 0 (Some 1) combineState))
          = alter (fun ids => ids ++ added) 0 (arrayHeap combineState).
Proof.
  split; [reflexivity|]. split; [vm_compute; reflexivity|].
  exact (combine_appends_included_members ChangeCase.pascalCase 0 1 [1; 2] combineState eq_refl).
Defined.

(** X21 at an element of type [string] whose binding is an example. *)
Lemma example_binding_is_ignored_witness :
  let s := freshDocuments openTypeDocuments in
  let pf := processFile ChangeCase.pascalCase 3 in
  getPropertyTypeForElement ChangeCase.pascalCase pf 3 0 categoryElement s
  = getPropertyTypeForElement ChangeCase.pascalCase pf 3 0 (withoutBinding categoryElement) s.
Proof.
  intros s pf.
  apply (example_binding_is_ignored ChangeCase.pascalCase pf 3 0 categoryElement
           (mkBinding (Some "example") (Some "http://example.org/vs")) s);
    reflexivity.
Defined.

(** X22 at a resource type without properties. *)
Lemma backfill_is_idempotent_witness :
  exists s1,
    backfill 0 "Resource" "resourceType" resourceTypeProperty resourceState = (s1, Done tt)
    /\ backfill 0 "Resource" "resourceType" resourceTypeProperty s1 = (s1, Done tt)
    /\ option_map t_properties (typeHeap s1 !! 0) = Some (Some [resourceTypeProperty]).
Proof.
  destruct (backfill 0 "Resource" "resourceType" resourceTypeProperty resourceState)
    as [s1 [[]|e|]] eqn:Hrun; try (vm_compute in Hrun; discriminate Hrun).
  exists s1. split; [reflexivity|].
  destruct (backfill_is_idempotent 0 "Resource" "resourceType" resourceTypeProperty
              resourceState s1 eq_refl Hrun) as [Hagain _].
  split; [exact Hagain|].
  vm_compute in Hrun. injection Hrun as <-. reflexivity.
Defined.

(** X23 at the options [Quantity], wildcard, [xhtml], [constructor]: the
    last is no document, and resolves as a name of the prototype. *)
Lemma type_references_need_documents_witness :
  let s := freshDocuments openTypeDocuments in
  let types :=
    map (fun c => mkElementType (Some c) None) ["Quantity"; "*"; "xhtml"; "constructor"] in
  exists s' refs,
    getTypeReferences (processFile ChangeCase.pascalCase 3) (Some types) s
    = (s', Done (Some refs))
    /\ map ptypeName refs = [Some "Quantity"; Some "string"; Some "constructor"]
    /\ resultErrors s' = []
    /\ lookupFile "constructor" (files s) = None
    /\ Forall (resolvableOn (map fst (files s)) s') types.
Proof.
  intros s types.
  destruct (getTypeReferences (processFile ChangeCase.pascalCase 3) (Some types) s)
    as [s' [[refs|]|e|]] eqn:Hrun; try (vm_compute in Hrun; discriminate Hrun).
  exists s', refs. split; [reflexivity|].
  pose proof (type_references_need_documents ChangeCase.pascalCase 3 types s s' refs Hrun)
    as Hall.
  vm_compute in Hrun. injection Hrun as <- <-.
  split; [reflexivity|]. split; [reflexivity|]. split; [reflexivity | exact Hall].
Defined.

End MoreRuns.
